(** * CoinMarketCap table scraper: row extraction, collection loop and output

    A shallow embedding of [crypto_data_inject_demo.py].

    - Python [str] values are modelled as [string]; a character is one of
      256 code points, classified as Python's [str] methods and the [re]
      module classify them: U+0000..U+00FF, where the place of the control
      character U+0095 is taken by the bullet U+2022 of the split pattern, as
      in Windows-1252.  Python puts the two in the same classes: neither is
      whitespace, a word character, a digit or a letter, and neither has a
      case.
    - A [Dict[str, str]] is a [gmap string string].
    - The Playwright page is a black box: a state of an arbitrary type [W] and
      one function per awaited call, each of which may raise.  Exceptions are
      the subclasses of [Exception]; every call that is made is appended to a
      trace.  The coroutines run one after the other, so [await] is plain
      sequencing; logging and [asyncio.sleep] change nothing that is modelled
      and are left out.
    - The [while] loop of [scrape_top_n] takes a number of rounds it may run,
      and the properties show that [MAX_PAGE_NAVIGATIONS + 1] rounds always
      are enough.
    - The file system, the [csv] module and [pandas] are a black box of the
      same kind: a state of an arbitrary type [F] and a function that answers
      each call, which may raise; every call that is made is appended to a
      trace of its own, with its arguments. *)

From Stdlib Require Import ZArith NArith Ascii Lia Permutation.
From Stdlib Require String.
From Stdlib Require DecimalString.
From stdpp Require Import gmap strings list fin_maps sorting.

Local Open Scope Z_scope.
Local Open Scope nat_scope.

(** ** Characters *)

Definition code (c : ascii) : N := N_of_ascii c.

Definition in_range (lo hi : N) (c : ascii) : bool :=
  ((lo <=? code c) && (code c <=? hi))%N.

(** [str.isspace], [\s]: the ASCII whitespace table, NEL and NBSP. *)
Definition is_space (c : ascii) : bool :=
  in_range 9 13 c || in_range 28 32 c || (code c =? 133)%N || (code c =? 160)%N.

(** [\d]: the decimal digits. *)
Definition is_digit (c : ascii) : bool := in_range 48 57 c.

(** [[A-Z]] and [[A-Za-z]]. *)
Definition is_AZ (c : ascii) : bool := in_range 65 90 c.
Definition is_AZaz (c : ascii) : bool := in_range 65 90 c || in_range 97 122 c.

(** Characters with the Uppercase and the Lowercase property. *)
Definition is_uppercase (c : ascii) : bool :=
  in_range 65 90 c || in_range 192 214 c || in_range 216 222 c.
Definition is_lowercase (c : ascii) : bool :=
  in_range 97 122 c || (code c =? 170)%N || (code c =? 181)%N || (code c =? 186)%N
  || in_range 223 246 c || in_range 248 255 c.

(** [\w]: alphabetic, decimal, digit or numeric characters and the underscore. *)
Definition is_word (c : ascii) : bool :=
  is_digit c || is_uppercase c || is_lowercase c || (code c =? 95)%N
  || (code c =? 178)%N || (code c =? 179)%N || (code c =? 185)%N
  || in_range 188 190 c.

Definition is_char (a c : ascii) : bool := bool_decide (a = c).

Definition newline : ascii := ascii_of_N 10.

(** The bullet U+2022, at the place of U+0095. *)
Definition bullet : ascii := ascii_of_N 149.

(** ** Strings *)

Abbreviation len := String.length.

Definition nonempty (s : string) : bool :=
  match s with EmptyString => false | String _ _ => true end.

(** [c in s] for a one-character [c]. *)
Fixpoint has_char (c : ascii) (s : string) : bool :=
  match s with
  | EmptyString => false
  | String a s' => is_char c a || has_char c s'
  end.

(** [sub in s]. *)
Fixpoint contains (sub s : string) : bool :=
  String.prefix sub s ||
  match s with
  | EmptyString => false
  | String _ s' => contains sub s'
  end.

(** [re.sub(r"\s+", " ", s)]: every maximal run of whitespace becomes one
    space; [in_run] tells that the previous character was whitespace. *)
Fixpoint sub_spaces (in_run : bool) (s : string) : string :=
  match s with
  | EmptyString => EmptyString
  | String c s' =>
      if is_space c
      then if in_run then sub_spaces true s' else String " " (sub_spaces true s')
      else String c (sub_spaces false s')
  end.

Fixpoint lstrip (s : string) : string :=
  match s with
  | EmptyString => EmptyString
  | String c s' => if is_space c then lstrip s' else s
  end.

Fixpoint rstrip (s : string) : string :=
  match s with
  | EmptyString => EmptyString
  | String c s' =>
      match rstrip s' with
      | EmptyString => if is_space c then EmptyString else String c EmptyString
      | r => String c r
      end
  end.

(** [s.strip()] *)
Definition strip (s : string) : string := rstrip (lstrip s).

(** [clean_text]; [None] is Python's [None]. *)
Definition clean_text (s : option string) : string :=
  match s with
  | None => ""
  | Some s => strip (sub_spaces false s)
  end.

(** [s.split()]: the maximal runs of non-whitespace characters. *)
Fixpoint split_ws (cur : string) (s : string) : list string :=
  match s with
  | EmptyString => if nonempty cur then [cur] else []
  | String c s' =>
      if is_space c
      then (if nonempty cur then [cur] else []) ++ split_ws "" s'
      else split_ws (cur +:+ String c "") s'
  end.

(** [s.isupper()]: no lowercase character and at least one uppercase one. *)
Fixpoint all_not_lower (s : string) : bool :=
  match s with
  | EmptyString => true
  | String c s' => negb (is_lowercase c) && all_not_lower s'
  end.
Fixpoint some_upper (s : string) : bool :=
  match s with
  | EmptyString => false
  | String c s' => is_uppercase c || some_upper s'
  end.
Definition isupper (s : string) : bool := all_not_lower s && some_upper s.

Definition likely_money (s : string) : bool := nonempty s && has_char "$" s.
Definition likely_percent (s : string) : bool := nonempty s && has_char "%" s.

(** ** Regular expressions

    The fragment of [re] that the patterns of the scraper use, with Python's
    backtracking order: alternatives left to right, greedy quantifiers longest
    first, lazy ones shortest first.  Quantifiers range over character
    classes, [Opt] is the greedy [(...)?]. *)

Inductive regex : Type :=
| Bol                                   (* ^ *)
| Eol                                   (* $ *)
| WordB                                 (* \b *)
| One (p : ascii → bool)                (* one character of a class *)
| Rep (p : ascii → bool) (lo : nat) (hi : option nat) (greedy : bool)
| Opt (r : regex)
| Cat (r1 r2 : regex)
| Alt (r1 r2 : regex)
| Grp (i : nat) (r : regex).

(** A position in the subject: its index, the character before it, the text
    from it on, and the spans of the groups closed so far. *)
Record mstate : Type := MState {
  m_pos : nat;
  m_prev : option ascii;
  m_rest : string;
  m_groups : list (nat * (nat * nat))
}.

Definition hi_allows (hi : option nat) : bool :=
  match hi with Some 0 => false | _ => true end.

Fixpoint rep (p : ascii → bool) (greedy : bool) (k : mstate → option mstate)
    (lo : nat) (hi : option nat) (pos : nat) (prev : option ascii)
    (groups : list (nat * (nat * nat))) (rest : string) {struct rest}
  : option mstate :=
  match rest with
  | String c rest' =>
      if p c && hi_allows hi then
        if greedy then
          match rep p greedy k (pred lo) (pred <$> hi) (S pos) (Some c) groups rest' with
          | Some m => Some m
          | None =>
              match lo with 0 => k (MState pos prev rest groups) | S _ => None end
          end
        else
          match lo with
          | 0 =>
              match k (MState pos prev rest groups) with
              | Some m => Some m
              | None => rep p greedy k 0 (pred <$> hi) (S pos) (Some c) groups rest'
              end
          | S lo' => rep p greedy k lo' (pred <$> hi) (S pos) (Some c) groups rest'
          end
      else match lo with 0 => k (MState pos prev rest groups) | S _ => None end
  | EmptyString =>
      match lo with 0 => k (MState pos prev rest groups) | S _ => None end
  end.

Definition word_before (s : mstate) : bool :=
  match m_prev s with Some c => is_word c | None => false end.
Definition word_after (s : mstate) : bool :=
  match m_rest s with String c _ => is_word c | EmptyString => false end.

Fixpoint rmatch (r : regex) (k : mstate → option mstate) (s : mstate)
  : option mstate :=
  match r with
  | Bol => if m_pos s =? 0 then k s else None
  | Eol =>
      match m_rest s with
      | EmptyString => k s
      | String c EmptyString => if is_char newline c then k s else None
      | _ => None
      end
  | WordB => if xorb (word_before s) (word_after s) then k s else None
  | One p =>
      match m_rest s with
      | String c rest' =>
          if p c then k (MState (S (m_pos s)) (Some c) rest' (m_groups s)) else None
      | EmptyString => None
      end
  | Rep p lo hi greedy =>
      rep p greedy k lo hi (m_pos s) (m_prev s) (m_groups s) (m_rest s)
  | Opt r' =>
      match rmatch r' k s with Some m => Some m | None => k s end
  | Cat r1 r2 => rmatch r1 (rmatch r2 k) s
  | Alt r1 r2 =>
      match rmatch r1 k s with Some m => Some m | None => rmatch r2 k s end
  | Grp i r' =>
      rmatch r'
        (fun s' => k (MState (m_pos s') (m_prev s') (m_rest s')
                        ((i, (m_pos s, m_pos s')) :: m_groups s'))) s
  end.

(** A match object: where the match starts and ends and its group spans. *)
Record match_obj : Type := Match {
  subject : string;
  m_start : nat;
  m_end : nat;
  spans : list (nat * (nat * nat))
}.

Definition match_at (r : regex) (subj : string) (pos : nat)
    (prev : option ascii) (rest : string) : option match_obj :=
  (λ m, Match subj pos (m_pos m) (m_groups m)) <$>
    rmatch r Some (MState pos prev rest []).

(** [re.match(r, s)] *)
Definition re_match (r : regex) (s : string) : option match_obj :=
  match_at r s 0 None s.

Fixpoint search_from (r : regex) (subj : string) (pos : nat)
    (prev : option ascii) (rest : string) : option match_obj :=
  match match_at r subj pos prev rest with
  | Some m => Some m
  | None =>
      match rest with
      | String c rest' => search_from r subj (S pos) (Some c) rest'
      | EmptyString => None
      end
  end.

(** [re.search(r, s)] *)
Definition re_search (r : regex) (s : string) : option match_obj :=
  search_from r s 0 None s.

Fixpoint span_of (i : nat) (l : list (nat * (nat * nat))) : option (nat * nat) :=
  match l with
  | [] => None
  | (j, sp) :: l' => if i =? j then Some sp else span_of i l'
  end.

(** [m.group(i)]; every group of the patterns below takes part in every
    match, so that the [None] of an unset group does not arise. *)
Definition group (m : match_obj) (i : nat) : string :=
  match span_of i (spans m) with
  | Some (a, b) => String.substring a (b - a) (subject m)
  | None => ""
  end.

(** [re.split(r, s)] for a pattern without groups that matches no empty
    string: [cur] is the piece read so far, [skip] the number of characters
    of the current separator still to pass. *)
Fixpoint split_from (r : regex) (subj : string) (skip : nat) (cur : string)
    (pos : nat) (prev : option ascii) (rest : string) {struct rest}
  : list string :=
  match rest with
  | EmptyString => [cur]
  | String c rest' =>
      match skip with
      | S n => split_from r subj n cur (S pos) (Some c) rest'
      | 0 =>
          match match_at r subj pos prev rest with
          | Some m =>
              match m_end m - pos with
              | S n => cur :: split_from r subj n "" (S pos) (Some c) rest'
              | 0 => split_from r subj 0 (cur +:+ String c "") (S pos) (Some c) rest'
              end
          | None => split_from r subj 0 (cur +:+ String c "") (S pos) (Some c) rest'
          end
      end
  end.

Definition re_split (r : regex) (s : string) : list string :=
  split_from r s 0 "" 0 None s.

Definition star (p : ascii → bool) : regex := Rep p 0 None true.
Definition plus (p : ascii → bool) : regex := Rep p 1 None true.
Definition quest (p : ascii → bool) : regex := Rep p 0 (Some 1) true.

(** [.] *)
Definition is_dot (c : ascii) : bool := negb (is_char newline c).
(** [•] *)
Definition is_bullet (c : ascii) : bool := is_char bullet c.

(** [^\s*(\d{1,4})\b] *)
Definition rank_re : regex :=
  Cat Bol (Cat (star is_space) (Cat (Grp 1 (Rep is_digit 1 (Some 4) true)) WordB)).

(** [[A-Za-z]] *)
Definition letter_re : regex := One is_AZaz.

(** [\s{2,}|\s?\n\s?|\s•\s] *)
Definition parts_re : regex :=
  Alt (Rep is_space 2 None true)
    (Alt (Cat (quest is_space) (Cat (One (is_char newline)) (quest is_space)))
         (Cat (One is_space) (Cat (One is_bullet) (One is_space)))).

(** [^(.+?)\s+([A-Z]{2,6})$] *)
Definition name_symbol_re : regex :=
  Cat Bol (Cat (Grp 1 (Rep is_dot 1 None false))
    (Cat (plus is_space) (Cat (Grp 2 (Rep is_AZ 2 (Some 6) true)) Eol))).

(** [-?\d+(\.\d+)?%] *)
Definition change_re : regex :=
  Cat (quest (is_char "-")) (Cat (plus is_digit)
    (Cat (Opt (Grp 1 (Cat (One (is_char ".")) (plus is_digit)))) (One (is_char "%")))).

(** [\d[\d,\.]*\s*[A-Za-z]{1,6}] *)
Definition supply_re : regex :=
  Cat (One is_digit)
    (Cat (star (λ c, is_digit c || is_char "," c || is_char "." c))
      (Cat (star is_space) (Rep is_AZaz 1 (Some 6) true))).

(** ** Records

    [data] of [extract_from_row] is a dict with the eight keys below.  All
    dicts that are read hold these keys ([extract_from_row_keys]), so the
    [KeyError] of a missing key does not arise and [data[k]] is the total
    lookup. *)

Abbreviation dict := (gmap string string).

Definition getitem (d : dict) (k : string) : string := d !!! k.

Definition field_keys : list string :=
  ["rank"; "name"; "symbol"; "price"; "change_24h"; "market_cap";
   "volume_24h"; "circulating_supply"].

Definition data0 : dict :=
  <["rank" := ""]> (<["name" := ""]> (<["symbol" := ""]> (<["price" := ""]>
  (<["change_24h" := ""]> (<["market_cap" := ""]> (<["volume_24h" := ""]>
  (<["circulating_supply" := ""]> ∅))))))).

(** [a or b] on strings. *)
Definition py_or (a b : string) : string := if nonempty a then a else b.

(** [re.sub(r"[\(\)]", "", s)] *)
Fixpoint remove_parens (s : string) : string :=
  match s with
  | EmptyString => EmptyString
  | String c s' =>
      if is_char "(" c || is_char ")" c then remove_parens s'
      else String c (remove_parens s')
  end.

(** [sorted(l, key=len, reverse=True)] and [l.sort(key=len, reverse=True)]:
    Python's sort is stable, also with [reverse=True], which fixes the result:
    descending length, equal lengths in their original order. *)
Fixpoint insert_desc (x : string) (l : list string) : list string :=
  match l with
  | [] => [x]
  | y :: l' => if len x <? len y then y :: insert_desc x l' else x :: y :: l'
  end.

Fixpoint sort_len_desc (l : list string) : list string :=
  match l with
  | [] => []
  | x :: l' => insert_desc x (sort_len_desc l')
  end.

(** [l[i]] for an index that the guard before it keeps in range. *)
Definition item (l : list string) (i : nat) : string := default "" (l !! i).

(** ** The steps of [extract_from_row] that read only [tds] *)

Definition is_money (t : string) : bool := has_char "$" t.
Definition is_percent (t : string) : bool := has_char "%" t.
Definition searches (r : regex) (t : string) : bool :=
  bool_decide (is_Some (re_search r t)).

(** 1) rank: the first of [tds[:3]] that matches. *)
Fixpoint rank_loop (ts : list string) (data : dict) : dict :=
  match ts with
  | [] => data
  | t :: ts' =>
      match re_match rank_re t with
      | Some m => <["rank" := group m 1]> data
      | None => rank_loop ts' data
      end
  end.

Definition rank_step (tds : list string) (data : dict) : dict :=
  match tds with [] => data | _ => rank_loop (take 3 tds) data end.

(** 2) name and symbol from the cell texts.  One part of one cell; the
    boolean is the [break] out of the loop over the parts. *)
Definition fallback_part (p0 : string) (data : dict) : dict * bool :=
  let p := strip p0 in
  if (1 <? len p) && negb (likely_money p) && negb (likely_percent p) then
    match re_match name_symbol_re p with
    | Some m =>
        let data1 := <["name" := py_or (getitem data "name") (strip (group m 1))]> data in
        (<["symbol" := py_or (getitem data1 "symbol") (strip (group m 2))]> data1, true)
    | None =>
        if isupper p && (2 <=? len p) && (len p <=? 6) then
          (<["symbol" := py_or (getitem data "symbol") p]> data, false)
        else if (length (split_ws "" p) <=? 3) && negb (nonempty (getitem data "name")) then
          (<["name" := p]> data, false)
        else (data, false)
    end
  else (data, false).

Fixpoint fallback_parts (parts : list string) (data : dict) : dict :=
  match parts with
  | [] => data
  | p :: parts' =>
      let '(data', brk) := fallback_part p data in
      if brk then data' else fallback_parts parts' data'
  end.

Definition fallback_cell (t : string) (data : dict) : dict :=
  if nonempty t && searches letter_re t
  then fallback_parts (re_split parts_re t) data
  else data.

Fixpoint fallback_cells (ts : list string) (data : dict) : dict :=
  match ts with
  | [] => data
  | t :: ts' => fallback_cells ts' (fallback_cell t data)
  end.

Definition fallback_step (tds : list string) (data : dict) : dict :=
  if negb (nonempty (getitem data "name")) || negb (nonempty (getitem data "symbol"))
  then fallback_cells tds data
  else data.

(** 3) price: the first short cell with a dollar sign. *)
Fixpoint price_loop (ts : list string) (data : dict) : dict :=
  match ts with
  | [] => data
  | t :: ts' =>
      if is_money t && (len t <? 20) then <["price" := t]> data
      else price_loop ts' data
  end.

Definition price_step (tds : list string) (data : dict) : dict :=
  match tds with [] => data | _ => price_loop tds data end.

(** 4) 24h change. *)
Definition is_change (t : string) : bool := is_percent t && searches change_re t.

Fixpoint change_loop (ts : list string) (data : dict) : dict :=
  match ts with
  | [] => data
  | t :: ts' =>
      if is_change t then <["change_24h" := t]> data else change_loop ts' data
  end.

Definition change_step (tds : list string) (data : dict) : dict :=
  match tds with [] => data | _ => change_loop tds data end.

(** 5) market cap. *)
Definition is_cap_candidate (t : string) : bool := is_money t && (6 <? len t).

Definition market_cap_step (tds : list string) (data : dict) : dict :=
  match tds with
  | [] => data
  | _ =>
      let candidates := List.filter is_cap_candidate tds in
      match candidates with
      | [] => data
      | _ => <["market_cap" := item (sort_len_desc candidates) 0]> data
      end
  end.

(** 6) 24h volume. *)
Definition volume_step (tds : list string) (data : dict) : dict :=
  match tds with
  | [] => data
  | _ =>
      let dollar_values := List.filter is_money tds in
      match dollar_values with
      | [] => data
      | _ =>
          let sorted_dollars := sort_len_desc dollar_values in
          if 2 <=? length sorted_dollars
          then <["volume_24h" := item sorted_dollars 1]> data
          else if length sorted_dollars =? 1
          then <["volume_24h" := ""]> data
          else data
      end
  end.

(** 7) circulating supply. *)
Definition is_supply (t : string) : bool :=
  nonempty t && searches supply_re t && negb (contains "Market Cap" t)
  && negb (is_money t).

Fixpoint supply_loop (ts : list string) : string :=
  match ts with
  | [] => ""
  | t :: ts' => if is_supply t then t else supply_loop ts'
  end.

Definition supply_step (tds : list string) (data : dict) : dict :=
  <["circulating_supply" := supply_loop tds]> data.

(** The final loop [data[k] = clean_text(data[k])]. *)
Definition cleanup (data : dict) : dict := (λ v, clean_text (Some v)) <$> data.

(** ** Exceptions and state

    A computation runs on a state, returns a value or raises, and keeps the
    state it has reached when it raises. *)

Inductive exn : Type :=
| PlaywrightTimeoutError
| OtherException.

Inductive result (A : Type) : Type :=
| Ok (a : A)
| Raise (e : exn).
Arguments Ok {A} a.
Arguments Raise {A} e.

Global Instance result_fmap : FMap result := λ A B f r,
  match r with Ok a => Ok (f a) | Raise e => Raise e end.

Definition M (St A : Type) : Type := St → result A * St.

Global Instance M_ret {St} : MRet (M St) := λ A a s, (Ok a, s).

Global Instance M_bind {St} : MBind (M St) := λ A B f m s,
  match m s with
  | (Ok a, s') => f a s'
  | (Raise e, s') => (Raise e, s')
  end.

(** [try: m  except Exception as e: h e] *)
Definition catch {St A} (m : M St A) (h : exn → M St A) : M St A := λ s,
  match m s with
  | (Ok a, s') => (Ok a, s')
  | (Raise e, s') => h e s'
  end.

(** Local variables [L] next to an outer state [B]. *)
Definition lift {L B A} (m : M B A) : M (L * B) A := λ s,
  let '(r, b) := m s.2 in (r, (s.1, b)).

Definition get_local {L B} : M (L * B) L := λ s, (Ok s.1, s).

Definition modify {L B} (f : L → L) : M (L * B) unit := λ s,
  (Ok tt, (f s.1, s.2)).

(** Runs [m] on fresh locals [init] and returns them with its value. *)
Definition with_locals {L B A} (init : L) (m : M (L * B) A) : M B (A * L) := λ b,
  match m (init, b) with
  | (Ok a, (l, b')) => (Ok (a, l), b')
  | (Raise e, (_, b')) => (Raise e, b')
  end.

(** ** The page

    Locators are built without touching the page; the awaited calls go to the
    page and may raise. *)

Inductive locator : Type :=
| PageLocator (selector : string)                  (* page.locator(sel) *)
| SubLocator (parent : locator) (selector : string) (* parent.locator(sel) *)
| Nth (l : locator) (i : nat)                       (* l.nth(i) *)
| First (l : locator).                              (* l.first *)

Global Instance locator_eq_dec : EqDecision locator.
Proof. solve_decision. Defined.

Inductive call : Type :=
| Launch
| Goto (url : string)
| WaitForSelector (selector : string)
| Count (l : locator)
| TextContent (l : locator) (timeout : option nat)
| WaitFor (l : locator)
| IsEnabled (l : locator)
| Click (l : locator)
| Close.

(** [br_launch] stands for entering [async_playwright()] and opening browser,
    context and page; [br_close] for [browser.close()]. *)
Record browser (W : Type) : Type := Browser {
  br_launch : W → result unit * W;
  br_goto : string → W → result unit * W;
  br_wait_for_selector : string → W → result unit * W;
  br_count : locator → W → result nat * W;
  br_text_content : locator → option nat → W → result (option string) * W;
  br_wait_for : locator → W → result unit * W;
  br_is_enabled : locator → W → result bool * W;
  br_click : locator → W → result unit * W;
  br_close : W → result unit * W
}.
Arguments br_launch {W}.
Arguments br_goto {W}.
Arguments br_wait_for_selector {W}.
Arguments br_count {W}.
Arguments br_text_content {W}.
Arguments br_wait_for {W}.
Arguments br_is_enabled {W}.
Arguments br_click {W}.
Arguments br_close {W}.

(** The page and the calls made so far, oldest first. *)
Record bstate (W : Type) : Type := BState {
  world : W;
  trace : list call
}.
Arguments BState {W}.
Arguments world {W}.
Arguments trace {W}.

Definition TARGET_COUNT : Z := 20.
Definition START_URL : string := "https://coinmarketcap.com/".
Definition MAX_PAGE_NAVIGATIONS : nat := 5.

Section Scraper.

Context {W : Type} (B : browser W).

Definition invoke {A} (c : call) (f : W → result A * W) : M (bstate W) A := λ b,
  let '(r, w) := f (world b) in (r, BState w (trace b ++ [c])).

Definition launch : M (bstate W) unit := invoke Launch (br_launch B).
Definition goto (url : string) : M (bstate W) unit :=
  invoke (Goto url) (br_goto B url).
Definition wait_for_selector (sel : string) : M (bstate W) unit :=
  invoke (WaitForSelector sel) (br_wait_for_selector B sel).
Definition count (l : locator) : M (bstate W) nat :=
  invoke (Count l) (br_count B l).
Definition text_content (l : locator) (timeout : option nat)
  : M (bstate W) (option string) :=
  invoke (TextContent l timeout) (br_text_content B l timeout).
Definition wait_for (l : locator) : M (bstate W) unit :=
  invoke (WaitFor l) (br_wait_for B l).
Definition is_enabled (l : locator) : M (bstate W) bool :=
  invoke (IsEnabled l) (br_is_enabled B l).
Definition click (l : locator) : M (bstate W) unit :=
  invoke (Click l) (br_click B l).
Definition close : M (bstate W) unit := invoke Close (br_close B).

(** *** [safe_text] *)
Definition safe_text (l : locator) : M (bstate W) string :=
  catch (txt ← text_content l (Some 500); mret (clean_text txt))
        (λ _, mret "").

(** *** [extract_from_row] *)

Definition tds_locator (row : locator) : locator := SubLocator row "td".
Definition name_locator (row : locator) : locator :=
  SubLocator row "a[href*='/currencies/'] >> h3, a[href*='/currencies/'] >> p".
Definition sym_loc (row : locator) : locator :=
  SubLocator row
    "a[href*='/currencies/'] >> div >> p > span, a[href*='/currencies/'] >> p + p, a[href*='/currencies/'] >> span".
Definition price_sel (row : locator) : locator :=
  SubLocator row "td >> a[href*='/price/'], td >> span:has-text('$')".

(** The loop [for i in range(td_count)]. *)
Fixpoint tds_loop (row : locator) (indices : list nat) (tds : list string)
  : M (bstate W) (list string) :=
  match indices with
  | [] => mret tds
  | i :: indices' =>
      txt ← safe_text (Nth (tds_locator row) i);
      tds_loop row indices' (tds ++ [clean_text (Some txt)])
  end.

Definition read_tds (row : locator) : M (bstate W) (list string) :=
  catch (td_count ← count (tds_locator row);
         tds_loop row (seq 0 td_count) [])
        (λ _, mret []).

(** The locators of name and symbol inside the row; its own [try]. *)
Definition hints (row : locator) : M (dict * bstate W) unit :=
  catch
    (n ← lift (count (name_locator row));
     (if 0 <? n then
        txt ← lift (text_content (Nth (name_locator row) 0) None);
        let name_text := clean_text txt in
        if nonempty name_text then modify (<["name" := name_text]>) else mret tt
      else mret tt);;
     k ← lift (count (sym_loc row));
     if 0 <? k then
       txt ← lift (text_content (Nth (sym_loc row) 0) None);
       let sym := remove_parens (clean_text txt) in
       if (1 <? len sym) && (len sym <=? 10)
       then modify (<["symbol" := sym]>) else mret tt
     else mret tt)
    (λ _, mret tt).

(** The selector tried when no cell gave a price. *)
Definition price_fallback (row : locator) : M (dict * bstate W) unit :=
  data ← get_local;
  if negb (nonempty (getitem data "price")) then
    catch
      (n ← lift (count (price_sel row));
       if 0 <? n then
         txt ← lift (text_content (Nth (price_sel row) 0) None);
         modify (<["price" := clean_text txt]>)
       else mret tt)
      (λ _, mret tt)
  else mret tt.

(** The body of the outer [try]. *)
Definition extract_body (row : locator) : M (dict * bstate W) unit :=
  tds ← lift (read_tds row);
  modify (rank_step tds);;
  hints row;;
  modify (fallback_step tds);;
  modify (price_step tds);;
  price_fallback row;;
  modify (change_step tds);;
  modify (market_cap_step tds);;
  modify (volume_step tds);;
  modify (supply_step tds).

Definition extract_from_row (row : locator) : M (bstate W) dict :=
  '(_, data) ← with_locals data0
     (catch (extract_body row) (λ _, mret tt);;
      modify cleanup);
  mret data.

(** *** [scrape_top_n] *)

Definition rows_locator : locator := PageLocator "tbody tr".
Definition next_btn : locator :=
  PageLocator "button[aria-label='Next'], a[aria-label='Next']".

(** [results[:n]] *)
Definition slice_to {A} (l : list A) (n : Z) : list A :=
  if (n <? 0)%Z then take (Z.to_nat (Z.of_nat (length l) + n)) l
  else take (Z.to_nat n) l.

(** [data[key] and any(r.get(key) == data[key] for r in results)] *)
Definition is_dup (key : string) (data : dict) (results : list dict) : bool :=
  nonempty (getitem data key)
  && existsb (λ r, bool_decide (r !! key = Some (getitem data key))) results.

(** [not data["name"] and not data["price"] and not data["rank"]] *)
Definition unusable (data : dict) : bool :=
  negb (nonempty (getitem data "name")) && negb (nonempty (getitem data "price"))
  && negb (nonempty (getitem data "rank")).

(** The checks between [extract_from_row] and [results.append(data)]; each
    [continue] leaves [results] as it is. *)
Definition accumulate (data : dict) (results : list dict) : list dict :=
  if unusable data then results
  else if is_dup "rank" data results then results
  else if is_dup "name" data results then results
  else results ++ [data].

(** One round of the loop over the rows; returns [results] as it leaves them. *)
Definition process_row (i : nat) (results : list dict) : M (bstate W) (list dict) :=
  catch
    (let row := Nth rows_locator i in
     catch (wait_for row) (λ _, mret tt);;
     data ← extract_from_row row;
     mret (accumulate data results))
    (λ _, mret results).

(** [for i in range(row_count)] with its [break]. *)
Fixpoint scan_rows (target_count : Z) (indices : list nat) (results : list dict)
  : M (bstate W) (list dict) :=
  match indices with
  | [] => mret results
  | i :: indices' =>
      if (target_count <=? Z.of_nat (length results))%Z then mret results
      else results' ← process_row i results;
           scan_rows target_count indices' results'
  end.

(** The pagination [try]: [true] is its [continue], [false] its [break]. *)
Definition paginate : M (bstate W) bool :=
  catch
    (n ← count next_btn;
     enabled ← (if 0 <? n then is_enabled next_btn else mret false);
     if enabled : bool then
       click (First next_btn);;
       wait_for_selector "tbody tr";;
       mret true
     else mret false)
    (λ _, mret false).

(** The [while] loop; [None] when [fuel] rounds do not end it.  Returns
    [results] and [navigations]. *)
Fixpoint collection_loop (fuel : nat) (target_count : Z) (results : list dict)
    (navigations : nat) : M (bstate W) (option (list dict * nat)) :=
  match fuel with
  | 0 => mret None
  | S fuel' =>
      if (Z.of_nat (length results) <? target_count)%Z
         && (navigations <? MAX_PAGE_NAVIGATIONS)
      then
        let navigations := navigations + 1 in
        row_count ← catch (count rows_locator) (λ _, mret 0);
        results ← scan_rows target_count (seq 0 row_count) results;
        if (Z.of_nat (length results) <? target_count)%Z then
          continue ← paginate;
          if continue : bool
          then collection_loop fuel' target_count results navigations
          else mret (Some (results, navigations))
        else collection_loop fuel' target_count results navigations
      else mret (Some (results, navigations))
  end.

Definition scrape_top_n (fuel : nat) (target_count : Z)
  : M (bstate W) (option (list dict)) :=
  launch;;
  loaded ← catch (goto START_URL;; wait_for_selector "tbody tr";; mret true)
                 (λ e, match e with
                       | PlaywrightTimeoutError => mret true
                       | OtherException => close;; mret false
                       end);
  if loaded : bool then
    r ← collection_loop fuel target_count [] 0;
    match r with
    | None => mret None
    | Some (results, _) => close;; mret (Some (slice_to results target_count))
    end
  else mret (Some []).

End Scraper.

(** ** A page that shows a fixed table

    The pages of a table, each a list of rows of cell texts.  The state is the
    number of the page shown; the Next control is there and enabled while a
    further page exists; the row has none of the inner elements that the
    name, symbol and price selectors look for. *)

Module Static.

Definition table : Type := list (list (list string)).

Definition rows_of (t : table) (page : nat) : list (list string) :=
  default [] (t !! page).

(** The row, the cells of a row and the cell that a locator points to. *)
Definition as_row (l : locator) : option nat :=
  match l with
  | Nth p r => if bool_decide (p = rows_locator) then Some r else None
  | _ => None
  end.

Definition as_cells (l : locator) : option nat :=
  match l with
  | SubLocator p sel => if bool_decide (sel = "td") then as_row p else None
  | _ => None
  end.

Definition as_cell (l : locator) : option (nat * nat) :=
  match l with
  | Nth p c => (λ r, (r, c)) <$> as_cells p
  | _ => None
  end.

Definition static_count (t : table) (l : locator) (page : nat) : result nat * nat :=
  if bool_decide (l = rows_locator) then (Ok (length (rows_of t page)), page)
  else if bool_decide (l = next_btn)
  then (Ok (if S page <? length t then 1 else 0), page)
  else match as_cells l with
       | Some r => (Ok (length (default [] (rows_of t page !! r))), page)
       | None => (Ok 0, page)
       end.

Definition static_text (t : table) (l : locator) (timeout : option nat) (page : nat)
  : result (option string) * nat :=
  match as_cell l ≫= (λ rc, rows_of t page !! rc.1 ≫= (λ row, row !! rc.2)) with
  | Some txt => (Ok (Some txt), page)
  | None => (Raise PlaywrightTimeoutError, page)
  end.

Definition static_browser (t : table) : browser nat := {|
  br_launch page := (Ok tt, page);
  br_goto _ page := (Ok tt, page);
  br_wait_for_selector _ page := (Ok tt, page);
  br_count := static_count t;
  br_text_content := static_text t;
  br_wait_for _ page := (Ok tt, page);
  br_is_enabled _ page := (Ok true, page);
  br_click _ page := (Ok tt, S page);
  br_close page := (Ok tt, page)
|}.

Definition start : bstate nat := BState 0 [].

(** The record extracted from one row of cells. *)
Definition extract_cells (cells : list string) : result dict :=
  (extract_from_row (static_browser [[cells]]) (Nth rows_locator 0) start).1.

(** The records scraped from a table. *)
Definition scrape (t : table) (target_count : Z) : result (option (list dict)) :=
  (scrape_top_n (static_browser t) (S MAX_PAGE_NAVIGATIONS) target_count start).1.

Definition fields (d : dict) : list string := (λ k, getitem d k) <$> field_keys.

End Static.

(** ** The vocabulary of the properties *)

(** Whitespace occurs only as single spaces; [prev] tells that a space
    stands right before the string. *)
Fixpoint single_spaced (prev : bool) (s : string) : Prop :=
  match s with
  | EmptyString => True
  | String c s' =>
      if is_space c then c = " "%char ∧ prev = false ∧ single_spaced true s'
      else single_spaced false s'
  end.

(** A text that [clean_text] leaves as it is. *)
Definition normalized (s : string) : Prop := clean_text (Some s) = s.

(** [d'] has the keys of [d] and differs from it at most at the keys [K]. *)
Definition touches (K : list string) (d d' : dict) : Prop :=
  dom d' = dom d ∧ ∀ k, k ∉ K → d' !! k = d !! k.

(** The keys of [d] are the eight field names. *)
Definition keys_ok (d : dict) : Prop := dom d = list_to_set field_keys.

(** The steps after the price, none of which calls the page. *)
Definition late_steps (tds : list string) (d : dict) : dict :=
  supply_step tds (volume_step tds (market_cap_step tds (change_step tds d))).

(** The fields that the steps after the price write. *)
Definition late_keys : list string :=
  ["change_24h"; "market_cap"; "volume_24h"; "circulating_supply"].

(** [m] is the first of the longest elements of [l] that satisfy [P]. *)
Definition first_longest (P : string → Prop) (l : list string) (m : string) : Prop :=
  ∃ l1 l2, l = l1 ++ m :: l2 ∧ P m
    ∧ (∀ t, t ∈ l1 → P t → len t < len m)
    ∧ (∀ t, t ∈ l2 → P t → len t ≤ len m).

(** [v] is second when [l] is put in descending order of length. *)
Definition second_longest (l : list string) (v : string) : Prop :=
  ∃ m rest, l ≡ₚ m :: v :: rest ∧ len v ≤ len m ∧ Forall (λ t, len t ≤ len v) rest.

(** The order of [sort_len_desc]. *)
Definition longer_eq (a b : string) : Prop := len b ≤ len a.

(** A fragment that the change step accepts: a percent sign and the pattern
    [-?\d+(\.\d+)?%] somewhere in it. *)
Definition change_candidate (t : string) : Prop :=
  has_char "%" t = true ∧ is_Some (re_search change_re t).

(** A fragment that the market-cap step considers. *)
Definition cap_candidate (t : string) : Prop := has_char "$" t = true ∧ 6 < len t.


(** A field that is set in [d] has the same value in [d']. *)
Definition kept (k : string) (d d' : dict) : Prop :=
  getitem d k ≠ "" → getitem d' k = getitem d k.

(** A click is the one call that moves the page on. *)
Definition is_click (c : call) : bool :=
  match c with Click _ => true | _ => false end.

(** The page transitions among the calls made. *)
Definition clicks (tr : list call) : nat := length (List.filter is_click tr).

(** At least one of rank, name and price is there. *)
Definition usable (d : dict) : Prop :=
  getitem d "rank" ≠ "" ∨ getitem d "name" ≠ "" ∨ getitem d "price" ≠ "".

(** No two records share a value of [k] that is not empty. *)
Definition no_shared (k : string) (results : list dict) : Prop :=
  ∀ i j r1 r2, i ≠ j → results !! i = Some r1 → results !! j = Some r2 →
    getitem r1 k = getitem r2 k → getitem r1 k = "".

(** What holds of [results] throughout the loop. *)
Definition result_set (results : list dict) : Prop :=
  Forall keys_ok results ∧ Forall usable results
  ∧ no_shared "rank" results ∧ no_shared "name" results.

(** [m] leaves the measure [μ] of the state as it is. *)
Definition quiet {St A} (μ : St → nat) (m : M St A) : Prop := ∀ s, μ (m s).2 = μ s.

(** The page transitions made up to the state [b]. *)
Definition nclicks {W} (b : bstate W) : nat := clicks (trace b).

(** A table whose first page shows no row and whose second page shows one. *)
Definition empty_then_one : Static.table := [[]; [["1"; "Bitcoin BTC"; "$5"]]].

(** A table of one page with a row that repeats a rank, a row that repeats a
    name and a row that has only a 24h change. *)
Definition with_repeats : Static.table :=
  [[["1"; "Bitcoin BTC"; "$5"]; ["1"; "Ether ETH"; "$4"]; ["2"; "Bitcoin BTC"; "$5"];
    ["-0.52%"]; ["3"; "Ether ETH"; "$4"]]].

(** The page with the one row [cells], and the locator of that row. *)
Definition one_row (cells : list string) : browser nat := Static.static_browser [[cells]].
Definition row0 : locator := Nth rows_locator 0.

(** A row as the table shows it. *)
Definition priced_cells : list string :=
  ["7"; "Bitcoin BTC"; "$61,234.00"; "-0.52%"; "$1,205,432,112,000";
   "$32,112,000,000"; "19,000,000 BTC"].

(** A row whose dollar amounts are short. *)
Definition short_cells : list string := ["$1"; "$22"; "BTC"].

(** A row whose first cell has a price and a percentage. *)
Definition mixed_cells : list string := ["$61,234.00 (1.2%)"; "-0.52%"].

(** ** The vocabulary of the further properties *)

(** The characters of [s] that are not whitespace, in their order. *)
Fixpoint visible (s : string) : string :=
  match s with
  | EmptyString => EmptyString
  | String c s' => if is_space c then visible s' else String c (visible s')
  end.

(** All characters of [s] are in the class [p]. *)
Fixpoint all_chars (p : ascii → bool) (s : string) : bool :=
  match s with
  | EmptyString => true
  | String c s' => p c && all_chars p s'
  end.

(** The rank that a cell text gives, and whether it gives one. *)
Definition rank_of (t : string) : string :=
  default "" ((λ m, group m 1) <$> re_match rank_re t).
Definition has_rank (t : string) : bool := bool_decide (is_Some (re_match rank_re t)).

(** A cell text that the price step accepts. *)
Definition is_price (t : string) : bool := is_money t && (len t <? 20).
Definition price_candidate (t : string) : Prop := has_char "$" t = true ∧ len t < 20.

(** A cell text that the circulating-supply step accepts. *)
Definition supply_candidate (t : string) : Prop :=
  t ≠ "" ∧ is_Some (re_search supply_re t)
  ∧ contains "Market Cap" t = false ∧ has_char "$" t = false.




(** Whatever state [m] starts from, the calls it adds to the trace [tr] of the
    state are all in [P]. *)
Definition emits {St A} (tr : St → list call) (P : call → Prop) (m : M St A) : Prop :=
  ∀ s, ∃ evs, tr (m s).2 = tr s ++ evs ∧ Forall P evs.

(** The calls that read the cells of a row, its inner elements for name and
    symbol, and its element for the price. *)
Definition cell_read (row : locator) (c : call) : Prop :=
  c = Count (tds_locator row)
  ∨ ∃ i, c = TextContent (Nth (tds_locator row) i) (Some 500).

Definition hint_read (row : locator) (c : call) : Prop :=
  c = Count (name_locator row) ∨ c = TextContent (Nth (name_locator row) 0) None
  ∨ c = Count (sym_loc row) ∨ c = TextContent (Nth (sym_loc row) 0) None.

Definition price_read (row : locator) (c : call) : Prop :=
  c = Count (price_sel row) ∨ c = TextContent (Nth (price_sel row) 0) None.

Definition row_read (row : locator) (c : call) : Prop :=
  cell_read row c ∨ hint_read row c ∨ price_read row c.

(** The calls of the collection loop. *)
Definition loop_call (c : call) : Prop :=
  c = Count rows_locator
  ∨ (∃ i, c = WaitFor (Nth rows_locator i) ∨ row_read (Nth rows_locator i) c)
  ∨ c = Count next_btn ∨ c = IsEnabled next_btn
  ∨ c = Click (First next_btn) ∨ c = WaitForSelector "tbody tr".


(** A record that [extract_from_row] returns for some row of the table. *)
Definition extracted {W} (B : browser W) (d : dict) : Prop :=
  ∃ i b, (extract_from_row B (Nth rows_locator i) b).1 = Ok d.

(** Every field of [d] is a text that [clean_text] leaves as it is. *)
Definition clean_fields (d : dict) : Prop := ∀ k v, d !! k = Some v → normalized v.

(** [data[k]] is empty or the value of [k] in no record of [results]. *)
Definition fresh_at (k : string) (data : dict) (results : list dict) : Prop :=
  getitem data k = "" ∨ ∀ r, r ∈ results → r !! k ≠ Some (getitem data k).

(** ** The files

    The save functions go to the file system, to the [csv] module and to
    [pandas].  Their calls are kept in the order they are made, with their
    arguments; each may raise. *)

Definition OUTPUT_CSV : string := "coinmarketcap_top20_async.csv".
Definition OUTPUT_TXT : string := "coinmarketcap_top20_async.txt".
Definition OUTPUT_XLSX : string := "coinmarketcap_top20_async.xlsx".

Inductive fcall : Type :=
| FOpen (path : string) (newline : option string) (* open(path, "w", newline=...) *)
| FWrite (s : string)                             (* f.write(s) *)
| FClose                                          (* leaving the [with] block *)
| CsvWriter (fieldnames : list string)            (* csv.DictWriter(f, fieldnames=...) *)
| CsvHeader                                       (* writer.writeheader() *)
| CsvRow (row : list (string * string))           (* writer.writerow(row) *)
| DataFrame (records : list dict)                 (* pd.DataFrame(records) *)
| Reindex (columns : list string)                 (* df.reindex(columns=...) *)
| ToExcel (path : string).                        (* df.to_excel(path, index=False) *)

(** What the libraries answer, by their state [F]. *)
Definition files (F : Type) : Type := fcall → F → result unit * F.

Record fstate (F : Type) : Type := FState {
  fworld : F;
  ftrace : list fcall
}.
Arguments FState {F}.
Arguments fworld {F}.
Arguments ftrace {F}.

Definition raise {St A} (e : exn) : M St A := λ s, (Raise e, s).

(** [r.get(k, "")] *)
Definition get (r : dict) (k : string) : string := default "" (r !! k).

(** An [int] in an f-string. *)
Definition decimal (n : nat) : string :=
  DecimalString.NilEmpty.string_of_uint (Nat.to_uint n).

Definition nl : string := String newline "".

Definition keys : list string :=
  ["rank"; "name"; "symbol"; "price"; "change_24h"; "market_cap"; "volume_24h";
   "circulating_supply"].
Definition cols : list string :=
  ["rank"; "name"; "symbol"; "price"; "change_24h"; "market_cap"; "volume_24h";
   "circulating_supply"].

(** [{k: r.get(k, "") for k in keys}] *)
Definition csv_row (r : dict) : list (string * string) := (λ k, (k, get r k)) <$> keys.

Section Output.

Context {F : Type} (fs : files F).

Definition fcall_run (c : fcall) : M (fstate F) unit := λ s,
  let '(r, w) := fs c (fworld s) in (r, FState w (ftrace s ++ [c])).

Definition fwrite (s : string) : M (fstate F) unit := fcall_run (FWrite s).

(** Leaving a [with] block: the file is closed, also when the body raised,
    and what the body raised is raised again after the close. *)
Definition closing {A} (body : M (fstate F) A) : M (fstate F) A := λ s,
  match body s with
  | (Ok a, s') => (fcall_run FClose;; mret a) s'
  | (Raise e, s') => (fcall_run FClose;; raise e) s'
  end.

(** [with open(path, "w", ...) as f: body] *)
Definition with_open {A} (path : string) (newline : option string)
    (body : M (fstate F) A) : M (fstate F) A :=
  fcall_run (FOpen path newline);; closing body.

(** *** [save_to_csv] *)

Fixpoint csv_loop (records : list dict) : M (fstate F) unit :=
  match records with
  | [] => mret tt
  | r :: records' => fcall_run (CsvRow (csv_row r));; csv_loop records'
  end.

Definition save_to_csv (records : list dict) (path : string) : M (fstate F) unit :=
  match records with
  | [] => mret tt
  | _ :: _ =>
      with_open path (Some "")
        (fcall_run (CsvWriter keys);;
         fcall_run CsvHeader;;
         csv_loop records)
  end.

(** *** [save_to_text] *)

(** The body of [for idx, r in enumerate(records, start=1)]. *)
Definition write_record (idx : nat) (r : dict) : M (fstate F) unit :=
  fwrite (decimal idx +:+ ". Rank: " +:+ get r "rank" +:+ nl);;
  fwrite ("   Name: " +:+ get r "name" +:+ " (" +:+ get r "symbol" +:+ ")" +:+ nl);;
  fwrite ("   Price: " +:+ get r "price" +:+ nl);;
  fwrite ("   24h Change: " +:+ get r "change_24h" +:+ nl);;
  fwrite ("   Market Cap: " +:+ get r "market_cap" +:+ nl);;
  fwrite ("   24h Volume: " +:+ get r "volume_24h" +:+ nl);;
  fwrite ("   Circulating Supply: " +:+ get r "circulating_supply" +:+ nl);;
  fwrite nl.

Fixpoint text_loop (idx : nat) (records : list dict) : M (fstate F) unit :=
  match records with
  | [] => mret tt
  | r :: records' => write_record idx r;; text_loop (S idx) records'
  end.

Definition save_to_text (records : list dict) (path : string) : M (fstate F) unit :=
  match records with
  | [] => mret tt
  | _ :: _ => with_open path None (text_loop 1 records)
  end.

(** *** [save_to_excel] *)

Definition save_to_excel (records : list dict) (path : string) : M (fstate F) unit :=
  match records with
  | [] => mret tt
  | _ :: _ =>
      fcall_run (DataFrame records);;
      fcall_run (Reindex cols);;
      fcall_run (ToExcel path)
  end.

(** *** [main] *)

(** A computation on the files, next to the page. *)
Definition on_files {Bs A} (m : M (fstate F) A) : M (fstate F * Bs) A := λ s,
  let '(r, f) := m s.1 in (r, (f, s.2)).

Context {W : Type} (B : browser W).

(** [None] when [fuel] rounds do not end the loop of [scrape_top_n]. *)
Definition main (fuel : nat) : M (fstate F * bstate W) (option unit) :=
  catch
    (r ← lift (scrape_top_n B fuel TARGET_COUNT);
     match r with
     | None => mret None
     | Some [] => mret (Some tt)
     | Some records =>
         on_files (save_to_csv records OUTPUT_CSV);;
         on_files (save_to_text records OUTPUT_TXT);;
         on_files (save_to_excel records OUTPUT_XLSX);;
         mret (Some tt)
     end)
    (λ _, mret (Some tt)).

End Output.

(** Files that take every call. *)
Definition plain_files : files unit := λ _ w, (Ok tt, w).

(** Files on which the [n]-th call from now raises. *)
Definition failing_files : files nat := λ _ n,
  match n with 0 => (Raise OtherException, 0) | S n' => (Ok tt, n') end.

(** The calls that a run of calls is made of. *)
Fixpoint run_calls {F} (fs : files F) (cs : list fcall) : M (fstate F) unit :=
  match cs with
  | [] => mret tt
  | c :: cs' => fcall_run fs c;; run_calls fs cs'
  end.

(** The strings that [write_record] writes. *)
Definition record_lines (idx : nat) (r : dict) : list string :=
  [ decimal idx +:+ ". Rank: " +:+ get r "rank" +:+ nl;
    "   Name: " +:+ get r "name" +:+ " (" +:+ get r "symbol" +:+ ")" +:+ nl;
    "   Price: " +:+ get r "price" +:+ nl;
    "   24h Change: " +:+ get r "change_24h" +:+ nl;
    "   Market Cap: " +:+ get r "market_cap" +:+ nl;
    "   24h Volume: " +:+ get r "volume_24h" +:+ nl;
    "   Circulating Supply: " +:+ get r "circulating_supply" +:+ nl;
    nl ].

Fixpoint text_lines (idx : nat) (records : list dict) : list string :=
  match records with
  | [] => []
  | r :: records' => record_lines idx r ++ text_lines (S idx) records'
  end.

(** The text that the calls [tr] have written. *)
Fixpoint written (tr : list fcall) : string :=
  match tr with
  | [] => ""
  | FWrite s :: tr' => s +:+ written tr'
  | _ :: tr' => written tr'
  end.

(** The number of times [c] occurs in [s]. *)
Fixpoint count_char (c : ascii) (s : string) : nat :=
  match s with
  | EmptyString => 0
  | String a s' => (if bool_decide (a = c) then 1 else 0) + count_char c s'
  end.


(** A row with a rank, a name and one dollar amount. *)
Definition lone_price_cells : list string := ["7"; "Bitcoin BTC"; "$61,234.00"].


(** ** The vocabulary of the fallback, the cut and the pagination *)

(** A part of a cell text that the fallback looks at. *)
Definition token_ok (p : string) : bool :=
  (1 <? len p) && negb (likely_money p) && negb (likely_percent p).

(** A token of the form of a name followed by a symbol. *)
Definition is_pair (p : string) : bool :=
  bool_decide (is_Some (re_match name_symbol_re p)).

(** A token of two to six characters that [isupper] accepts. *)
Definition short_upper (p : string) : bool :=
  isupper p && (2 <=? len p) && (len p <=? 6).

(** The name and the symbol that a token offers, empty when it offers none. *)
Definition name_offer (p : string) : string :=
  match re_match name_symbol_re p with
  | Some m => strip (group m 1)
  | None =>
      if short_upper p then ""
      else if length (split_ws "" p) <=? 3 then p else ""
  end.

Definition symbol_offer (p : string) : string :=
  match re_match name_symbol_re p with
  | Some m => strip (group m 2)
  | None => if short_upper p then p else ""
  end.

(** The tokens up to the first of the form of a name followed by a symbol,
    which ends the cell. *)
Fixpoint up_to_pair (ps : list string) : list string :=
  match ps with
  | [] => []
  | p :: ps' => if is_pair p then [p] else p :: up_to_pair ps'
  end.

(** The tokens of a cell text and of a row, in the order in which the
    fallback comes to them. *)
Definition cell_tokens (t : string) : list string :=
  if nonempty t && searches letter_re t
  then up_to_pair (List.filter token_ok (strip <$> re_split parts_re t))
  else [].

Definition row_tokens (tds : list string) : list string := tds ≫= cell_tokens.

(** The first string of [l] that is not empty. *)
Definition first_set (l : list string) : string :=
  default "" (head (List.filter nonempty l)).

(** The page never finds an element for [l]: counting gives none or raises. *)
Definition unresolved {W} (B : browser W) (l : locator) : Prop :=
  ∀ w, (∃ w', br_count B l w = (Ok 0, w')) ∨ (∃ e w', br_count B l w = (Raise e, w')).

(** Cell texts with parts set apart by bullets. *)
Definition bullet_cells : list string := ["Bitcoin " +:+ String bullet " BTC"].
Definition bullets_cells : list string :=
  ["BTC " +:+ String bullet (" Bitcoin " +:+ String bullet (" Ether ETH "
     +:+ String bullet " Litecoin")); "$5"; "XRP"].

(** From the loaded page [b0], [scrape_top_n] started at [b] returns the
    first [target_count] records of the loop, in their order, once the
    browser is closed. *)
Definition returns_cut {W} (B : browser W) (fuel : nat) (target_count : Z)
    (b b0 : bstate W) : Prop :=
  ∃ results navigations b1,
    collection_loop B fuel target_count [] 0 b0 = (Ok (Some (results, navigations)), b1)
    ∧ ∀ b2, close B b1 = (Ok tt, b2) →
        scrape_top_n B fuel target_count b
        = (Ok (Some (take (Z.to_nat target_count) results)), b2).

(** From [b1], where the page has just said that it shows no row, the loop
    started at [b] ends at [b2] with the records it had. *)
Definition ends_at {W} (B : browser W) (fuel : nat) (target_count : Z)
    (results : list dict) (navigations : nat) (b b2 : bstate W) : Prop :=
  collection_loop B (S fuel) target_count results navigations b
  = (Ok (Some (results, navigations + 1)), b2).

(** The calls of a pagination that goes on. *)
Definition next_page_calls : list call :=
  [Count next_btn; IsEnabled next_btn; Click (First next_btn);
   WaitForSelector "tbody tr"].



(** * Properties *)

(** ** Examples *)

Example clean_text_ex :
  clean_text (Some (String newline "  Bitcoin  " +:+ String newline " BTC ")) = "Bitcoin BTC".
Proof. reflexivity. Qed.

Example rank_re_ex1 : (λ m, group m 1) <$> re_match rank_re "7" = Some "7".
Proof. reflexivity. Qed.
Example rank_re_ex2 : re_match rank_re "12345" = None.
Proof. reflexivity. Qed.
Example rank_re_ex3 : re_match rank_re "7th" = None.
Proof. reflexivity. Qed.
Example rank_re_ex4 : (λ m, group m 1) <$> re_match rank_re " 1234 x" = Some "1234".
Proof. reflexivity. Qed.
Example name_symbol_re_ex :
  (λ m, (group m 1, group m 2)) <$> re_match name_symbol_re "Bitcoin Cash  BCH"
  = Some ("Bitcoin Cash", "BCH").
Proof. reflexivity. Qed.
Example change_re_ex1 : is_Some (re_search change_re "up -0.52% today").
Proof. vm_compute. eauto. Qed.
Example change_re_ex2 : re_search change_re "%" = None.
Proof. reflexivity. Qed.
Example parts_re_ex :
  re_split parts_re ("Bitcoin  BTC" +:+ String newline "x y") = ["Bitcoin"; "BTC"; "x y"].
Proof. reflexivity. Qed.
Example parts_re_bullet :
  re_split parts_re ("Bitcoin " +:+ String bullet " BTC") = ["Bitcoin"; "BTC"]
  ∧ re_split parts_re ("Bitcoin" +:+ String bullet "BTC")
    = ["Bitcoin" +:+ String bullet "BTC"]
  ∧ clean_text (Some (" Bitcoin " +:+ String bullet " BTC "))
    = "Bitcoin " +:+ String bullet " BTC".
Proof. vm_compute. repeat split. Qed.
Example supply_re_ex : is_Some (re_search supply_re "19,000,000 BTC").
Proof. vm_compute. eauto. Qed.

Example fallback_ex :
  let d := fallback_step ["Bitcoin BTC"] data0 in
  (d !! "name", d !! "symbol") = (Some "Bitcoin", Some "BTC").
Proof. vm_compute. reflexivity. Qed.

Example extract_ex :
  Static.fields <$> Static.extract_cells
     ["7"; "Bitcoin BTC"; "$61,234.00"; "-0.52%"; "$1,205,432,112,000";
      "$32,112,000,000"; "19,000,000 BTC"]
  = Ok ["7"; "Bitcoin"; "BTC"; "$61,234.00"; "-0.52%"; "$1,205,432,112,000";
        "$32,112,000,000"; "19,000,000 BTC"].
Proof. vm_compute. reflexivity. Qed.

Example scrape_ex :
  fmap (M := option) (fmap (M := list) Static.fields)
    <$> Static.scrape [[]; [["1"; "Bitcoin BTC"; "$5"]]] 20
  = Ok (Some [["1"; "Bitcoin"; "BTC"; "$5"; ""; ""; ""; ""]]).
Proof. vm_compute. reflexivity. Qed.

(** The rows of [with_repeats] that repeat a rank or a name and the row
    without rank, name and price are left out. *)
Example with_repeats_scraped :
  fmap (M := option) (fmap (M := list) Static.fields) <$> Static.scrape with_repeats 20
  = Ok (Some [["1"; "Bitcoin"; "BTC"; "$5"; ""; ""; ""; ""];
              ["3"; "Ether"; "ETH"; "$4"; ""; ""; ""; ""]]).
Proof. vm_compute. reflexivity. Qed.

Example change_only_row :
  Static.fields <$> Static.extract_cells ["-0.52%"]
  = Ok [""; ""; ""; ""; "-0.52%"; ""; ""; ""].
Proof. vm_compute. reflexivity. Qed.

(** ** Normalised text *)

Lemma single_spaced_weaken b s : single_spaced b s → single_spaced false s.
Proof.
  destruct s as [|c s]; simpl; [done|].
  destruct (is_space c); [|done]. intros (? & ? & ?); done.
Qed.

Lemma sub_spaces_single_spaced b s : single_spaced b (sub_spaces b s).
Proof.
  revert b; induction s as [|c s IH]; intros b; simpl; [done|].
  destruct (is_space c) eqn:Hc.
  - destruct b; [apply IH|]. simpl. split_and!; auto.
  - simpl. rewrite Hc. apply IH.
Qed.

Lemma sub_spaces_id b s : single_spaced b s → sub_spaces b s = s.
Proof.
  revert b; induction s as [|c s IH]; intros b; simpl; [done|].
  destruct (is_space c) eqn:Hc.
  - intros (-> & -> & Hs). by rewrite (IH true Hs).
  - intros Hs. by rewrite (IH false Hs).
Qed.

Lemma lstrip_single_spaced b s : single_spaced b s → single_spaced false (lstrip s).
Proof.
  revert b; induction s as [|c s IH]; intros b; simpl; [done|].
  destruct (is_space c) eqn:Hc.
  - intros (_ & _ & Hs). by apply (IH true).
  - intros Hs. simpl. by rewrite Hc.
Qed.

Lemma rstrip_single_spaced b s : single_spaced b s → single_spaced b (rstrip s).
Proof.
  revert b; induction s as [|c s IH]; intros b; simpl; [done|].
  destruct (is_space c) eqn:Hc.
  - intros (-> & -> & Hs). specialize (IH true Hs).
    destruct (rstrip s); [done|]. simpl. auto.
  - intros Hs. specialize (IH false Hs).
    destruct (rstrip s); simpl; by rewrite Hc.
Qed.

Lemma rstrip_idemp s : rstrip (rstrip s) = rstrip s.
Proof.
  induction s as [|c s IH]; simpl; [done|].
  destruct (rstrip s) as [|c' r] eqn:Hr.
  - destruct (is_space c) eqn:Hc; simpl; [done|]. by rewrite Hc.
  - simpl in *. destruct (rstrip r) as [|c'' r'] eqn:Hr'.
    + destruct (is_space c'); [done|]. by rewrite IH.
    + by rewrite IH.
Qed.

(** A string that does not start with whitespace keeps its first character
    under [rstrip], so [lstrip] leaves the result alone. *)
Lemma lstrip_rstrip s : lstrip s = s → lstrip (rstrip s) = rstrip s.
Proof.
  destruct s as [|c s]; simpl; [done|].
  destruct (is_space c) eqn:Hc.
  - intros Hs. exfalso.
    assert (Hlen : ∀ u, len (lstrip u) ≤ len u).
    { induction u as [|a u IHu]; simpl; [lia|]. destruct (is_space a); simpl; lia. }
    specialize (Hlen s). rewrite Hs in Hlen. simpl in Hlen. lia.
  - intros _. destruct (rstrip s); simpl; by rewrite Hc.
Qed.

Lemma lstrip_idemp s : lstrip (lstrip s) = lstrip s.
Proof.
  induction s as [|c s IH]; simpl; [done|].
  destruct (is_space c) eqn:Hc; [done|]. simpl. by rewrite Hc.
Qed.

Lemma strip_idemp s : strip (strip s) = strip s.
Proof.
  unfold strip. rewrite (lstrip_rstrip (lstrip s)) by apply lstrip_idemp.
  apply rstrip_idemp.
Qed.

Lemma strip_single_spaced b s : single_spaced b s → single_spaced false (strip s).
Proof. intros Hs. apply rstrip_single_spaced. by apply (lstrip_single_spaced b). Qed.

(** [clean_text] is idempotent: its results are normalised. *)
Lemma clean_text_normalized o : normalized (clean_text o).
Proof.
  unfold normalized. destruct o as [s|]; [|done]. simpl.
  rewrite (sub_spaces_id false).
  - apply strip_idemp.
  - apply (strip_single_spaced false), sub_spaces_single_spaced.
Qed.

Lemma normalized_empty : normalized "".
Proof. done. Qed.

(** A normalised text has no whitespace but single spaces between other
    characters. *)
Lemma normalized_single_spaced s :
  normalized s → single_spaced false s ∧ lstrip s = s ∧ rstrip s = s.
Proof.
  unfold normalized, clean_text. intros Hs.
  pose proof (strip_single_spaced false _ (sub_spaces_single_spaced false s)) as H1.
  rewrite Hs in H1. split; [done|].
  rewrite <- Hs. unfold strip. split.
  - apply lstrip_rstrip, lstrip_idemp.
  - apply rstrip_idemp.
Qed.

Global Arguments clean_text : simpl never.

(** ** Dicts *)

Lemma touches_refl K d : touches K d d.
Proof. done. Qed.

Lemma touches_trans K d1 d2 d3 : touches K d1 d2 → touches K d2 d3 → touches K d1 d3.
Proof.
  intros [Hd1 H1] [Hd2 H2]. split; [congruence|].
  intros k Hk. rewrite H2, H1; done.
Qed.

Lemma touches_mono K K' d d' : K ⊆ K' → touches K d d' → touches K' d d'.
Proof.
  intros HK [Hd H]. split; [done|]. intros k Hk. apply H.
  intros Hin. apply Hk. by apply HK.
Qed.

Lemma touches_insert K k v d : k ∈ K → k ∈ dom d → touches K d (<[k:=v]> d).
Proof.
  intros HK Hk. split.
  - rewrite dom_insert_L. apply subseteq_union_1_L. by apply singleton_subseteq_l.
  - intros k' Hk'. apply lookup_insert_ne. by intros ->.
Qed.

Lemma keys_ok_data0 : keys_ok data0.
Proof. unfold keys_ok, data0. rewrite !dom_insert_L, dom_empty_L. reflexivity. Qed.

Lemma keys_ok_elem k d : keys_ok d → k ∈ field_keys → k ∈ dom d.
Proof. unfold keys_ok. intros ->. apply elem_of_list_to_set. Qed.

Lemma touches_keys_ok K d d' : touches K d d' → keys_ok d → keys_ok d'.
Proof. unfold keys_ok. intros [-> _]. done. Qed.

Lemma keys_ok_lookup k d : keys_ok d → k ∈ field_keys → d !! k = Some (getitem d k).
Proof.
  intros Hd Hk. apply (keys_ok_elem k) in Hd; [|done].
  apply elem_of_dom in Hd as [v Hv]. unfold getitem.
  by rewrite (lookup_total_correct _ _ _ Hv).
Qed.

Lemma cleanup_lookup d k : cleanup d !! k = (λ v, clean_text (Some v)) <$> d !! k.
Proof. unfold cleanup. apply lookup_fmap. Qed.

Lemma cleanup_keys_ok d : keys_ok d → keys_ok (cleanup d).
Proof. unfold keys_ok, cleanup. by rewrite dom_fmap_L. Qed.

(** ** The steps on [tds] *)

Local Ltac key_in := compute_done.

Lemma rank_loop_touches ts d : keys_ok d → touches ["rank"] d (rank_loop ts d).
Proof.
  intros Hd. induction ts as [|t ts IH]; simpl; [done|].
  destruct (re_match rank_re t); [|done].
  apply touches_insert; [compute_done|]. apply keys_ok_elem; [done|key_in].
Qed.

Lemma rank_step_touches tds d : keys_ok d → touches ["rank"] d (rank_step tds d).
Proof. intros Hd. destruct tds; [done|]. by apply rank_loop_touches. Qed.

Lemma fallback_part_touches p d :
  keys_ok d → touches ["name"; "symbol"] d (fallback_part p d).1.
Proof.
  intros Hd. unfold fallback_part.
  repeat case_match; simpl; try done.
  - eapply touches_trans.
    + apply (touches_insert _ "name"); [compute_done|]. apply keys_ok_elem; [done|key_in].
    + apply touches_insert; [compute_done|]. rewrite dom_insert_L.
      apply elem_of_union_r, keys_ok_elem; [done|key_in].
  - apply touches_insert; [compute_done|]. apply keys_ok_elem; [done|key_in].
  - apply touches_insert; [compute_done|]. apply keys_ok_elem; [done|key_in].
Qed.

Lemma fallback_parts_touches ps d :
  keys_ok d → touches ["name"; "symbol"] d (fallback_parts ps d).
Proof.
  revert d; induction ps as [|p ps IH]; intros d Hd; simpl; [done|].
  pose proof (fallback_part_touches p d Hd) as Hp.
  destruct (fallback_part p d) as [d' brk]; simpl in Hp.
  destruct brk; [done|].
  eapply touches_trans; [done|]. apply IH. by eapply touches_keys_ok.
Qed.

Lemma fallback_cells_touches ts d :
  keys_ok d → touches ["name"; "symbol"] d (fallback_cells ts d).
Proof.
  revert d; induction ts as [|t ts IH]; intros d Hd; simpl; [done|].
  assert (Ht : touches ["name"; "symbol"] d (fallback_cell t d)).
  { unfold fallback_cell. case_match; [|done]. by apply fallback_parts_touches. }
  eapply touches_trans; [done|]. apply IH. by eapply touches_keys_ok.
Qed.

Lemma fallback_step_touches tds d :
  keys_ok d → touches ["name"; "symbol"] d (fallback_step tds d).
Proof.
  intros Hd. unfold fallback_step. case_match; [|done]. by apply fallback_cells_touches.
Qed.

Lemma price_step_touches tds d : keys_ok d → touches ["price"] d (price_step tds d).
Proof.
  intros Hd. destruct tds as [|t0 tds0]; [done|].
  unfold price_step. generalize (t0 :: tds0). intros ts.
  induction ts as [|t ts IH]; simpl; [done|].
  case_match; [|done].
  apply touches_insert; [compute_done|]. apply keys_ok_elem; [done|key_in].
Qed.

Lemma change_step_touches tds d : keys_ok d → touches ["change_24h"] d (change_step tds d).
Proof.
  intros Hd. destruct tds as [|t0 tds0]; [done|].
  unfold change_step. generalize (t0 :: tds0). intros ts.
  induction ts as [|t ts IH]; simpl; [done|].
  case_match; [|done].
  apply touches_insert; [compute_done|]. apply keys_ok_elem; [done|key_in].
Qed.

Lemma market_cap_step_touches tds d :
  keys_ok d → touches ["market_cap"] d (market_cap_step tds d).
Proof.
  intros Hd. unfold market_cap_step. repeat case_match; try done.
  all: apply touches_insert; [compute_done|]; apply keys_ok_elem; [done|key_in].
Qed.

Lemma volume_step_touches tds d :
  keys_ok d → touches ["volume_24h"] d (volume_step tds d).
Proof.
  intros Hd. unfold volume_step. repeat case_match; try done.
  all: apply touches_insert; [compute_done|]; apply keys_ok_elem; [done|key_in].
Qed.

Lemma supply_step_touches tds d :
  keys_ok d → touches ["circulating_supply"] d (supply_step tds d).
Proof.
  intros Hd. apply touches_insert; [compute_done|]. apply keys_ok_elem; [done|key_in].
Qed.

Lemma late_steps_touches tds d : keys_ok d → touches late_keys d (late_steps tds d).
Proof.
  intros Hd. unfold late_steps.
  pose proof (change_step_touches tds d Hd) as H1.
  pose proof (market_cap_step_touches tds _ (touches_keys_ok _ _ _ H1 Hd)) as H2.
  pose proof (touches_keys_ok _ _ _ H2 (touches_keys_ok _ _ _ H1 Hd)) as Hd2.
  pose proof (volume_step_touches tds _ Hd2) as H3.
  pose proof (supply_step_touches tds _ (touches_keys_ok _ _ _ H3 Hd2)) as H4.
  eapply touches_trans; [|eapply touches_mono; [|exact H4]].
  eapply touches_trans; [|eapply touches_mono; [|exact H3]].
  eapply touches_trans; [|eapply touches_mono; [|exact H2]].
  eapply touches_mono; [|exact H1].
  all: intros k Hk; apply list_elem_of_singleton in Hk as ->; compute_done.
Qed.

(** ** [extract_from_row] step by step *)

Section ExtractProps.

Context {W : Type} (B : browser W).

Local Ltac run :=
  unfold catch, mbind, M_bind, mret, M_ret, lift, modify, get_local,
    count, text_content, invoke; simpl.

Lemma safe_text_spec l b :
  ∃ s b', safe_text B l b = (Ok s, b') ∧ normalized s
    ∧ (∀ e w, br_text_content B l (Some 500) (world b) = (Raise e, w) → s = "").
Proof.
  unfold safe_text. run.
  destruct (br_text_content B l (Some 500) (world b)) as [[o|e] w]; simpl.
  - eexists _, _. split_and!; [done|apply clean_text_normalized|done].
  - eexists _, _. split_and!; [done|done|done].
Qed.

Lemma tds_loop_spec row indices tds b :
  Forall normalized tds →
  ∃ tds' b', tds_loop B row indices tds b = (Ok tds', b') ∧ Forall normalized tds'.
Proof.
  revert tds b; induction indices as [|i indices IH]; intros tds b Htds; simpl.
  - by eexists _, _.
  - destruct (safe_text_spec (Nth (tds_locator row) i) b) as (s & b1 & Hs & _ & _).
    unfold mbind, M_bind. rewrite Hs.
    apply IH. apply Forall_app. split; [done|].
    apply Forall_singleton, clean_text_normalized.
Qed.

Lemma read_tds_spec row b :
  ∃ tds b', read_tds B row b = (Ok tds, b') ∧ Forall normalized tds
    ∧ (∀ e w, br_count B (tds_locator row) (world b) = (Raise e, w) → tds = []).
Proof.
  unfold read_tds. run.
  destruct (br_count B (tds_locator row) (world b)) as [[n|e] w]; simpl.
  - destruct (tds_loop_spec row (seq 0 n) [] (BState w (trace b ++ [Count (tds_locator row)])))
      as (tds & b' & Hl & Hn); [done|].
    unfold mbind, M_bind in Hl. rewrite Hl. by eexists _, _.
  - by eexists _, _.
Qed.

Lemma hints_spec row d b :
  keys_ok d →
  ∃ d' b', hints B row (d, b) = (Ok tt, (d', b')) ∧ touches ["name"; "symbol"] d d'
    ∧ (∀ e w, br_count B (name_locator row) (world b) = (Raise e, w) → d' = d).
Proof.
  intros Hd.
  assert (Hn : ∀ v, touches ["name"; "symbol"] d (<["name" := v]> d)).
  { intros v. apply touches_insert; [compute_done|]. apply keys_ok_elem; [done|key_in]. }
  assert (Hs : ∀ v d1, touches ["name"; "symbol"] d d1 →
                 touches ["name"; "symbol"] d (<["symbol" := v]> d1)).
  { intros v d1 H1. eapply touches_trans; [done|].
    apply touches_insert; [compute_done|].
    apply keys_ok_elem; [by eapply touches_keys_ok|key_in]. }
  unfold hints. run.
  destruct (br_count B (name_locator row) (world b)) as [[n|e] w] eqn:Hc; simpl.
  - repeat (case_match; simplify_eq/=);
      eexists _, _; (split; [reflexivity|]); (split; [|done]);
      auto using touches_refl.
  - eexists _, _. split; [reflexivity|]. split; [apply touches_refl|done].
Qed.

Lemma price_fallback_spec row d b :
  keys_ok d →
  ∃ d' b', price_fallback B row (d, b) = (Ok tt, (d', b')) ∧ touches ["price"] d d'
    ∧ (∀ e w, br_count B (price_sel row) (world b) = (Raise e, w) → d' = d).
Proof.
  intros Hd.
  assert (Hp : ∀ v, touches ["price"] d (<["price" := v]> d)).
  { intros v. apply touches_insert; [compute_done|]. apply keys_ok_elem; [done|key_in]. }
  unfold price_fallback. run.
  destruct (nonempty (getitem d "price")); simpl.
  { eexists _, _. split; [reflexivity|]. split; [apply touches_refl|done]. }
  destruct (br_count B (price_sel row) (world b)) as [[n|e] w] eqn:Hc; simpl.
  - repeat (case_match; simplify_eq/=);
      eexists _, _; (split; [reflexivity|]); (split; [|done]);
      auto using touches_refl.
  - eexists _, _. split; [reflexivity|]. split; [apply touches_refl|done].
Qed.

(** The whole of [extract_from_row]: the cells are read, the page may
    contribute to name, symbol and price, and the rest is computed from the
    cells. *)
Lemma extract_from_row_spec row b :
  ∃ tds b1 d1 d2 b',
    read_tds B row b = (Ok tds, b1)
    ∧ Forall normalized tds
    ∧ (∀ e w, br_count B (tds_locator row) (world b) = (Raise e, w) → tds = [])
    ∧ touches ["name"; "symbol"] (rank_step tds data0) d1
    ∧ touches ["price"] (price_step tds (fallback_step tds d1)) d2
    ∧ ((∀ l w, ∃ e w', br_count B l w = (Raise e, w')) →
         d1 = rank_step tds data0 ∧ d2 = price_step tds (fallback_step tds d1))
    ∧ keys_ok d2
    ∧ extract_from_row B row b = (Ok (cleanup (late_steps tds d2)), b').
Proof.
  destruct (read_tds_spec row b) as (tds & b1 & Hr & Hn & He).
  pose proof (touches_keys_ok _ _ _ (rank_step_touches tds _ keys_ok_data0) keys_ok_data0) as Hk0.
  destruct (hints_spec row (rank_step tds data0) b1 Hk0) as (d1 & b2 & Hh & Ht1 & Hh').
  pose proof (touches_keys_ok _ _ _ Ht1 Hk0) as Hk1.
  pose proof (touches_keys_ok _ _ _ (fallback_step_touches tds _ Hk1) Hk1) as Hk2.
  pose proof (touches_keys_ok _ _ _ (price_step_touches tds _ Hk2) Hk2) as Hk3.
  destruct (price_fallback_spec row _ b2 Hk3) as (d2 & b3 & Hp & Ht2 & Hp').
  exists tds, b1, d1, d2, b3. split_and!; try done.
  - intros Hall. split.
    + destruct (Hall (name_locator row) (world b1)) as (e & w & Hc). by eapply Hh'.
    + destruct (Hall (price_sel row) (world b2)) as (e & w & Hc). by eapply Hp'.
  - by eapply touches_keys_ok.
  - unfold extract_from_row, with_locals, extract_body.
    unfold catch, mbind, M_bind, mret, M_ret, lift, modify. simpl.
    rewrite Hr. simpl. rewrite Hh. simpl. rewrite Hp. done.
Qed.

End ExtractProps.

(** ** Sorting by length *)

Lemma insert_desc_perm x l : insert_desc x l ≡ₚ x :: l.
Proof.
  induction l as [|y l IH]; simpl; [done|].
  destruct (len x <? len y); [|done].
  rewrite IH. apply Permutation_swap.
Qed.

Lemma sort_len_desc_perm l : sort_len_desc l ≡ₚ l.
Proof.
  induction l as [|x l IH]; simpl; [done|].
  rewrite insert_desc_perm. by rewrite IH.
Qed.

Lemma sort_len_desc_length l : length (sort_len_desc l) = length l.
Proof. apply Permutation_length, sort_len_desc_perm. Qed.

Lemma insert_desc_sorted x l :
  StronglySorted longer_eq l → StronglySorted longer_eq (insert_desc x l).
Proof.
  induction l as [|y l IH]; simpl; intros Hs.
  - repeat constructor.
  - apply StronglySorted_inv in Hs as [Hl Hy].
    destruct (len x <? len y) eqn:Hxy.
    + apply Nat.ltb_lt in Hxy. constructor; [by apply IH|].
      rewrite insert_desc_perm. constructor; [unfold longer_eq; lia|done].
    + apply Nat.ltb_ge in Hxy. constructor; [by constructor|].
      constructor; [done|].
      eapply Forall_impl; [exact Hy|]. unfold longer_eq. intros; simpl in *; lia.
Qed.

Lemma sort_len_desc_sorted l : StronglySorted longer_eq (sort_len_desc l).
Proof.
  induction l as [|x l IH]; simpl; [constructor|]. by apply insert_desc_sorted.
Qed.

(** The second element of the sorted list. *)
Lemma sort_len_desc_second l :
  2 ≤ length l → ∃ v, sort_len_desc l !! 1 = Some v ∧ second_longest l v ∧ v ∈ l.
Proof.
  intros Hl. pose proof (sort_len_desc_sorted l) as Hs.
  pose proof (sort_len_desc_perm l) as Hp.
  pose proof (sort_len_desc_length l) as Hlen.
  destruct (sort_len_desc l) as [|m [|v rest]]; simpl in Hlen; try lia.
  exists v. split; [done|].
  apply StronglySorted_inv in Hs as [Hs Hm].
  apply StronglySorted_inv in Hs as [_ Hv].
  apply Forall_cons in Hm as [Hm _].
  split.
  - exists m, rest. split_and!; [by symmetry|exact Hm|exact Hv].
  - rewrite <- Hp. apply elem_of_cons. right. apply elem_of_cons. by left.
Qed.

(** The head of the sorted list is the first of the longest elements. *)
Lemma sort_len_desc_head l m r :
  sort_len_desc l = m :: r →
  ∃ l1 l2, l = l1 ++ m :: l2
    ∧ Forall (λ t, len t < len m) l1 ∧ Forall (λ t, len t ≤ len m) l2.
Proof.
  revert m r; induction l as [|x l IH]; intros m r; simpl; [done|].
  destruct (sort_len_desc l) as [|m' r'] eqn:Hs.
  - simpl. intros [= <- <-].
    assert (l = []) as ->.
    { apply Permutation_nil. rewrite <- Hs. apply sort_len_desc_perm. }
    by exists [], [].
  - destruct (IH m' r' eq_refl) as (l1 & l2 & -> & H1 & H2).
    simpl. destruct (len x <? len m') eqn:Hx.
    + apply Nat.ltb_lt in Hx. intros [= <- <-].
      exists (x :: l1), l2. split_and!; [done| |done]. by constructor.
    + apply Nat.ltb_ge in Hx. intros [= <- <-].
      exists [], (l1 ++ m' :: l2). split_and!; [done|constructor|].
      apply Forall_app. split.
      * eapply Forall_impl; [exact H1|]. intros; simpl in *; lia.
      * constructor; [lia|]. eapply Forall_impl; [exact H2|]. intros; simpl in *; lia.
Qed.

Lemma filter_split (P : string → bool) tds l1 m l2 :
  List.filter P tds = l1 ++ m :: l2 →
  ∃ t1 t2, tds = t1 ++ m :: t2 ∧ List.filter P t1 = l1 ∧ List.filter P t2 = l2
    ∧ P m = true.
Proof.
  revert l1; induction tds as [|t tds IH]; intros l1; simpl.
  - by destruct l1.
  - destruct (P t) eqn:Ht.
    + destruct l1 as [|a l1]; simpl.
      * intros [= -> Hf]. exists [], tds. by rewrite Hf.
      * intros [= -> Hf]. destruct (IH l1 Hf) as (t1 & t2 & -> & H1 & H2 & Hm).
        exists (a :: t1), t2. simpl. rewrite Ht, H1. done.
    + intros Hf. destruct (IH l1 Hf) as (t1 & t2 & -> & H1 & H2 & Hm).
      exists (t :: t1), t2. simpl. rewrite Ht. done.
Qed.

Lemma filter_first_longest (P : string → bool) tds m r :
  sort_len_desc (List.filter P tds) = m :: r →
  first_longest (λ t, P t = true) tds m.
Proof.
  intros Hs. apply sort_len_desc_head in Hs as (l1 & l2 & Hf & H1 & H2).
  apply filter_split in Hf as (t1 & t2 & -> & <- & <- & Hm).
  exists t1, t2. split_and!; [done|done| |].
  - intros t Ht HP. rewrite Forall_forall in H1. apply H1.
    apply list_elem_of_In, filter_In. split; [by apply list_elem_of_In|done].
  - intros t Ht HP. rewrite Forall_forall in H2. apply H2.
    apply list_elem_of_In, filter_In. split; [by apply list_elem_of_In|done].
Qed.

(** ** What each step writes *)

Lemma is_change_true t : is_change t = true ↔ change_candidate t.
Proof.
  unfold is_change, change_candidate, is_percent, searches.
  rewrite andb_true_iff, bool_decide_eq_true. done.
Qed.

Lemma is_cap_candidate_true t : is_cap_candidate t = true ↔ cap_candidate t.
Proof.
  unfold is_cap_candidate, cap_candidate, is_money.
  rewrite andb_true_iff, Nat.ltb_lt. done.
Qed.

Lemma change_step_loop tds d : change_step tds d = change_loop tds d.
Proof. by destruct tds. Qed.

Lemma market_cap_step_cases tds d :
  (List.filter is_cap_candidate tds = [] ∧ market_cap_step tds d = d)
  ∨ (∃ m r, sort_len_desc (List.filter is_cap_candidate tds) = m :: r
       ∧ market_cap_step tds d = <["market_cap" := m]> d).
Proof.
  unfold market_cap_step. destruct tds as [|t0 tds0]; [by left|].
  generalize (t0 :: tds0). intros tds.
  destruct (List.filter is_cap_candidate tds) as [|c cs] eqn:Hf; [by left|].
  right. pose proof (sort_len_desc_length (c :: cs)) as Hlen.
  destruct (sort_len_desc (c :: cs)) as [|m r]; [done|]. by exists m, r.
Qed.

Lemma volume_step_cases tds d :
  let dollars := List.filter is_money tds in
  (dollars = [] ∧ volume_step tds d = d)
  ∨ (length dollars = 1 ∧ volume_step tds d = <["volume_24h" := ""]> d)
  ∨ (2 ≤ length dollars ∧ ∃ v, sort_len_desc dollars !! 1 = Some v
       ∧ volume_step tds d = <["volume_24h" := v]> d).
Proof.
  unfold volume_step. destruct tds as [|t0 tds0]; [by left|].
  generalize (t0 :: tds0). intros tds. simpl.
  destruct (List.filter is_money tds) as [|c cs] eqn:Hf; [by left|].
  right. rewrite sort_len_desc_length.
  destruct cs as [|c' cs].
  - left. done.
  - right. split; [simpl; lia|].
    destruct (sort_len_desc_second (c :: c' :: cs)) as (v & Hv & _); [simpl; lia|].
    exists v. split; [done|]. unfold item. by rewrite Hv.
Qed.

Section LateFields.

Variables (tds : list string) (d : dict).
Hypothesis Hd : keys_ok d.

Lemma late_keys_ok :
  keys_ok (change_step tds d)
  ∧ keys_ok (market_cap_step tds (change_step tds d))
  ∧ keys_ok (volume_step tds (market_cap_step tds (change_step tds d))).
Proof.
  assert (H1 : keys_ok (change_step tds d))
    by (eapply touches_keys_ok; [apply change_step_touches|]; done).
  assert (H2 : keys_ok (market_cap_step tds (change_step tds d)))
    by (eapply touches_keys_ok; [apply market_cap_step_touches|]; done).
  assert (H3 : keys_ok (volume_step tds (market_cap_step tds (change_step tds d))))
    by (eapply touches_keys_ok; [apply volume_step_touches|]; done).
  done.
Qed.

Lemma late_change : late_steps tds d !! "change_24h" = change_loop tds d !! "change_24h".
Proof.
  destruct late_keys_ok as (H1 & H2 & H3). unfold late_steps.
  rewrite (proj2 (supply_step_touches tds _ H3)) by compute_done.
  rewrite (proj2 (volume_step_touches tds _ H2)) by compute_done.
  rewrite (proj2 (market_cap_step_touches tds _ H1)) by compute_done.
  by rewrite change_step_loop.
Qed.

Lemma late_market_cap :
  late_steps tds d !! "market_cap"
    = market_cap_step tds (change_step tds d) !! "market_cap"
  ∧ change_step tds d !! "market_cap" = d !! "market_cap".
Proof.
  destruct late_keys_ok as (H1 & H2 & H3). unfold late_steps. split.
  - rewrite (proj2 (supply_step_touches tds _ H3)) by compute_done.
    by rewrite (proj2 (volume_step_touches tds _ H2)) by compute_done.
  - by rewrite (proj2 (change_step_touches tds _ Hd)) by compute_done.
Qed.

Lemma late_volume :
  late_steps tds d !! "volume_24h"
    = volume_step tds (market_cap_step tds (change_step tds d)) !! "volume_24h"
  ∧ market_cap_step tds (change_step tds d) !! "volume_24h" = d !! "volume_24h".
Proof.
  destruct late_keys_ok as (H1 & H2 & H3). unfold late_steps. split.
  - by rewrite (proj2 (supply_step_touches tds _ H3)) by compute_done.
  - rewrite (proj2 (market_cap_step_touches tds _ H1)) by compute_done.
    by rewrite (proj2 (change_step_touches tds _ Hd)) by compute_done.
Qed.

Lemma late_supply : late_steps tds d !! "circulating_supply" = Some (supply_loop tds).
Proof. unfold late_steps, supply_step. apply lookup_insert_eq. Qed.

End LateFields.

Section ExtractFields.

Context {W : Type} (B : browser W).

(** The record of a row, as far as its last four fields go. *)
Lemma extract_late row b :
  ∃ tds d b',
    (read_tds B row b).1 = Ok tds
    ∧ Forall normalized tds
    ∧ keys_ok d
    ∧ (∀ k, k ∈ late_keys → d !! k = Some "")
    ∧ extract_from_row B row b = (Ok (cleanup (late_steps tds d)), b').
Proof.
  destruct (extract_from_row_spec B row b)
    as (tds & b1 & d1 & d2 & b' & Hr & Hn & _ & Ht1 & Ht2 & _ & Hk & He).
  exists tds, d2, b'. rewrite Hr. split_and!; try done.
  intros k Hk'.
  pose proof (rank_step_touches tds _ keys_ok_data0) as Ht0.
  pose proof (touches_keys_ok _ _ _ Ht0 keys_ok_data0) as Hk0.
  pose proof (touches_keys_ok _ _ _ Ht1 Hk0) as Hk1.
  pose proof (fallback_step_touches tds _ Hk1) as Ht3.
  pose proof (touches_keys_ok _ _ _ Ht3 Hk1) as Hk3.
  pose proof (price_step_touches tds _ Hk3) as Ht4.
  assert (Hcases : k = "change_24h" ∨ k = "market_cap" ∨ k = "volume_24h"
                   ∨ k = "circulating_supply").
  { unfold late_keys in Hk'.
    repeat (apply elem_of_cons in Hk' as [-> | Hk']; [tauto|]).
    by apply elem_of_nil in Hk'. }
  destruct Hcases as [-> | [-> | [-> | ->]]];
    rewrite (proj2 Ht2), (proj2 Ht4), (proj2 Ht3), (proj2 Ht1), (proj2 Ht0)
      by compute_done; reflexivity.
Qed.

End ExtractFields.

(** ** The fields read from the cells *)

Lemma elem_of_middle (l1 l2 : list string) t : t ∈ l1 ++ t :: l2.
Proof. apply elem_of_app. right. apply elem_of_cons. by left. Qed.

Lemma normalized_elem tds t : Forall normalized tds → t ∈ tds → clean_text (Some t) = t.
Proof. intros Hn Ht. rewrite Forall_forall in Hn. by apply Hn. Qed.

Lemma filter_elem (P : string → bool) tds t :
  t ∈ List.filter P tds ↔ t ∈ tds ∧ P t = true.
Proof. rewrite !list_elem_of_In. apply filter_In. Qed.

Lemma filter_nil_none (P : string → bool) tds t :
  List.filter P tds = [] → t ∈ tds → P t = true → False.
Proof.
  intros Hf Ht HP. assert (Hin : t ∈ List.filter P tds) by by apply filter_elem.
  rewrite Hf in Hin. by apply elem_of_nil in Hin.
Qed.

Lemma filter_nil_Forall (P : string → bool) tds :
  List.filter P tds = [] → Forall (λ t, P t = false) tds.
Proof.
  intros Hf. apply Forall_forall. intros t Ht.
  destruct (P t) eqn:HP; [|done]. by destruct (filter_nil_none P tds t).
Qed.

Lemma change_loop_filter ts d :
  change_loop ts d
  = match List.filter is_change ts with
    | t :: _ => <["change_24h" := t]> d
    | [] => d
    end.
Proof.
  induction ts as [|t ts IH]; simpl; [done|]. by destruct (is_change t).
Qed.

Lemma sort_len_desc_elem l i v : sort_len_desc l !! i = Some v → v ∈ l.
Proof.
  intros Hv. rewrite <- (sort_len_desc_perm l). by eapply list_elem_of_lookup_2.
Qed.

Section Classifiers.

Context {W : Type} (B : browser W).

(** The last three fields of the record that depend on an order of the
    cells, computed from the cells. *)
Lemma extract_cell_fields row b tds :
  (read_tds B row b).1 = Ok tds →
  ∃ d b', extract_from_row B row b = (Ok d, b')
    ∧ Forall normalized tds
    ∧ d !! "change_24h" = Some (item (List.filter is_change tds) 0)
    ∧ d !! "market_cap" = Some (item (sort_len_desc (List.filter is_cap_candidate tds)) 0)
    ∧ d !! "volume_24h" = Some (item (sort_len_desc (List.filter is_money tds)) 1).
Proof.
  intros Htds.
  destruct (extract_late B row b) as (tds' & d & b' & Hr & Hn & Hk & Hl & He).
  rewrite Hr in Htds. injection Htds as ->.
  exists (cleanup (late_steps tds d)), b'. split; [done|]. split; [done|].
  rewrite !cleanup_lookup. split_and!.
  - rewrite (late_change tds d Hk), change_loop_filter.
    destruct (List.filter is_change tds) as [|t ts] eqn:Hf.
    + by rewrite Hl by compute_done.
    + rewrite lookup_insert_eq. simpl. f_equal. apply (normalized_elem tds); [done|].
      apply (filter_elem is_change). rewrite Hf. apply elem_of_cons. by left.
  - destruct (late_market_cap tds d Hk) as [-> Hd1].
    destruct (market_cap_step_cases tds (change_step tds d)) as [[Hf ->]|(m & r & Hs & ->)].
    + by rewrite Hd1, Hl, Hf by compute_done.
    + rewrite lookup_insert_eq, Hs. simpl. f_equal. apply (normalized_elem tds); [done|].
      apply (filter_elem is_cap_candidate), (sort_len_desc_elem _ 0). by rewrite Hs.
  - destruct (late_volume tds d Hk) as [-> Hd2].
    destruct (volume_step_cases tds (market_cap_step tds (change_step tds d)))
      as [[Hf ->]|[[Hf ->]|(Hf & v & Hv & ->)]].
    + by rewrite Hd2, Hl, Hf by compute_done.
    + rewrite lookup_insert_eq. simpl. f_equal. unfold item.
      rewrite lookup_ge_None_2; [done|]. rewrite sort_len_desc_length. lia.
    + rewrite lookup_insert_eq. unfold item. rewrite Hv. simpl. f_equal.
      apply (normalized_elem tds); [done|].
      by apply (filter_elem is_money), (sort_len_desc_elem _ 1).
Qed.

(** C7.  The market cap of the record is the first of the longest cell texts
    that have a dollar sign and more than six characters, and is empty when
    no cell text is of that kind. *)
Theorem market_cap_first_longest row b tds :
  (read_tds B row b).1 = Ok tds →
  ∃ d b', extract_from_row B row b = (Ok d, b')
    ∧ ((∀ t, t ∈ tds → ¬ cap_candidate t) → d !! "market_cap" = Some "")
    ∧ ((∃ t, t ∈ tds ∧ cap_candidate t) →
         ∃ m, d !! "market_cap" = Some m ∧ first_longest cap_candidate tds m).
Proof.
  intros Htds.
  destruct (extract_cell_fields row b tds Htds) as (d & b' & He & _ & _ & Hcap & _).
  exists d, b'. split; [done|]. rewrite Hcap.
  destruct (sort_len_desc (List.filter is_cap_candidate tds)) as [|m r] eqn:Hs.
  - split; [done|]. intros (t & Ht & Hc). exfalso.
    assert (Hf : List.filter is_cap_candidate tds = []).
    { apply Permutation_nil. rewrite <- Hs. apply sort_len_desc_perm. }
    apply (filter_nil_none _ _ _ Hf Ht). by apply is_cap_candidate_true.
  - pose proof (filter_first_longest _ _ _ _ Hs) as (l1 & l2 & -> & Hm & H1 & H2).
    apply is_cap_candidate_true in Hm. split.
    + intros Hnone. exfalso. apply (Hnone m); [apply elem_of_middle|done].
    + intros _. exists m. split; [done|].
      exists l1, l2. split_and!; [done|done| |].
      * intros t Ht Hc. apply H1; [done|]. by apply is_cap_candidate_true.
      * intros t Ht Hc. apply H2; [done|]. by apply is_cap_candidate_true.
Qed.

(** C8.  The 24h volume of the record is the second of the cell texts with a
    dollar sign when these are put in descending order of length; it is empty
    when there is one such cell text or none. *)
Theorem volume_second_longest row b tds :
  (read_tds B row b).1 = Ok tds →
  ∃ d b', extract_from_row B row b = (Ok d, b')
    ∧ (length (List.filter (has_char "$") tds) = 0 → d !! "volume_24h" = Some "")
    ∧ (length (List.filter (has_char "$") tds) = 1 → d !! "volume_24h" = Some "")
    ∧ (2 ≤ length (List.filter (has_char "$") tds) →
         ∃ v, d !! "volume_24h" = Some v
           ∧ second_longest (List.filter (has_char "$") tds) v).
Proof.
  intros Htds.
  destruct (extract_cell_fields row b tds Htds) as (d & b' & He & _ & _ & _ & Hvol).
  exists d, b'. split; [done|]. rewrite Hvol.
  change (has_char "$") with is_money. unfold item.
  pose proof (sort_len_desc_length (List.filter is_money tds)) as Hlen.
  split_and!.
  - intros H0. rewrite lookup_ge_None_2; [done|lia].
  - intros H1. rewrite lookup_ge_None_2; [done|lia].
  - intros H2. destruct (sort_len_desc_second _ H2) as (v & Hv & Hsec & _).
    exists v. by rewrite Hv.
Qed.

(** C10.  With at least two cell texts that have a dollar sign, none of them
    longer than six characters, the record has an empty market cap and, as
    its 24h volume, the second-longest of them, which is not empty. *)
Theorem short_dollars_volume_without_cap row b tds :
  (read_tds B row b).1 = Ok tds →
  2 ≤ length (List.filter (has_char "$") tds) →
  (∀ t, t ∈ tds → has_char "$" t = true → len t ≤ 6) →
  ∃ d b' v, extract_from_row B row b = (Ok d, b')
    ∧ d !! "market_cap" = Some ""
    ∧ d !! "volume_24h" = Some v
    ∧ v ≠ ""
    ∧ second_longest (List.filter (has_char "$") tds) v.
Proof.
  intros Htds Htwo Hshort.
  destruct (extract_cell_fields row b tds Htds) as (d & b' & He & _ & _ & Hcap & Hvol).
  destruct (sort_len_desc_second _ Htwo) as (v & Hv & Hsec & Hin).
  exists d, b', v. split_and!; [done| | | |done].
  - rewrite Hcap.
    assert (Hf : List.filter is_cap_candidate tds = []).
    { destruct (List.filter is_cap_candidate tds) as [|c cs] eqn:Hf; [done|]. exfalso.
      assert (Hc : c ∈ List.filter is_cap_candidate tds)
        by (rewrite Hf; apply elem_of_cons; by left).
      apply filter_elem in Hc as [Hc Hcand].
      apply is_cap_candidate_true in Hcand as [Hm Hlen].
      specialize (Hshort c Hc Hm). lia. }
    by rewrite Hf.
  - rewrite Hvol. change is_money with (has_char "$"). unfold item. by rewrite Hv.
  - apply filter_elem in Hin as [_ Hin]. by intros ->.
Qed.

(** C6, as the code has it.  The 24h change of the record is the first cell
    text that has a percent sign and a match of [-?\d+(\.\d+)?%], whether or
    not it has a dollar sign too, and is empty when no cell text is of that
    kind. *)
Theorem change_first_percent_match row b tds :
  (read_tds B row b).1 = Ok tds →
  ∃ d b', extract_from_row B row b = (Ok d, b')
    ∧ ((∀ t, t ∈ tds → ¬ change_candidate t) → d !! "change_24h" = Some "")
    ∧ (∀ l1 t l2, tds = l1 ++ t :: l2 → change_candidate t →
         (∀ u, u ∈ l1 → ¬ change_candidate u) → d !! "change_24h" = Some t).
Proof.
  intros Htds.
  destruct (extract_cell_fields row b tds Htds) as (d & b' & He & _ & Hch & _).
  exists d, b'. split; [done|]. rewrite Hch. split.
  - intros Hnone.
    destruct (List.filter is_change tds) as [|t ts] eqn:Hf; [done|]. exfalso.
    assert (Ht : t ∈ List.filter is_change tds) by (rewrite Hf; apply elem_of_cons; by left).
    apply filter_elem in Ht as [Ht Hc]. apply (Hnone t Ht). by apply is_change_true.
  - intros l1 t l2 -> Ht Hbefore. rewrite List.filter_app.
    assert (Hl1 : List.filter is_change l1 = []).
    { destruct (List.filter is_change l1) as [|u us] eqn:Hf; [done|]. exfalso.
      assert (Hu : u ∈ List.filter is_change l1) by (rewrite Hf; apply elem_of_cons; by left).
      apply filter_elem in Hu as [Hu Hc]. apply (Hbefore u Hu). by apply is_change_true. }
    rewrite Hl1. simpl. by rewrite (proj2 (is_change_true t) Ht).
Qed.

End Classifiers.

(** ** [extract_from_row] always returns a record *)

Lemma extract_from_row_keys {W} (B : browser W) row b :
  ∃ data b', extract_from_row B row b = (Ok data, b') ∧ keys_ok data.
Proof.
  destruct (extract_from_row_spec B row b)
    as (tds & b1 & d1 & d2 & b' & _ & _ & _ & _ & _ & _ & Hk & He).
  exists (cleanup (late_steps tds d2)), b'. split; [done|].
  apply cleanup_keys_ok. eapply touches_keys_ok; [|exact Hk].
  by apply late_steps_touches.
Qed.


(** ** Name and symbol from the cell texts *)

Lemma kept_refl k d : kept k d d.
Proof. by intros _. Qed.

Lemma kept_trans k d1 d2 d3 : kept k d1 d2 → kept k d2 d3 → kept k d1 d3.
Proof.
  unfold kept. intros H1 H2 Hne. rewrite <- (H1 Hne). apply H2. by rewrite (H1 Hne).
Qed.

Lemma py_or_set a b : a ≠ "" → py_or a b = a.
Proof. by destruct a. Qed.

Lemma nonempty_true s : s ≠ "" → nonempty s = true.
Proof. by destruct s. Qed.

Lemma kept_insert_or k d v : kept k d (<[k := py_or (getitem d k) v]> d).
Proof.
  intros Hne. unfold getitem. rewrite lookup_total_insert_eq. by apply py_or_set.
Qed.

Lemma kept_insert_other k k' d v : k' ≠ k → kept k d (<[k' := v]> d).
Proof. intros Hne _. unfold getitem. by rewrite lookup_total_insert_ne. Qed.

Lemma fallback_part_kept k p d :
  k = "name" ∨ k = "symbol" → kept k d (fallback_part p d).1.
Proof.
  intros Hk. unfold fallback_part.
  destruct ((1 <? len (strip p)) && negb (likely_money (strip p))
            && negb (likely_percent (strip p))); [|apply kept_refl].
  destruct (re_match name_symbol_re (strip p)) as [m|].
  - simpl. destruct Hk as [-> | ->].
    + eapply kept_trans; [apply kept_insert_or|]. by apply kept_insert_other.
    + eapply kept_trans; [by apply (kept_insert_other _ "name")|].
      apply kept_insert_or.
  - destruct (isupper (strip p) && (2 <=? len (strip p)) && (len (strip p) <=? 6)).
    + simpl. destruct Hk as [-> | ->];
        [by apply kept_insert_other|apply kept_insert_or].
    + destruct (length (split_ws "" (strip p)) <=? 3); simpl; [|apply kept_refl].
      destruct (nonempty (getitem d "name")) eqn:Hn; simpl; [apply kept_refl|].
      destruct Hk as [-> | ->]; [|by apply kept_insert_other].
      intros Hne. by rewrite (nonempty_true _ Hne) in Hn.
Qed.

Lemma fallback_parts_kept k ps d :
  k = "name" ∨ k = "symbol" → kept k d (fallback_parts ps d).
Proof.
  intros Hk. revert d; induction ps as [|p ps IH]; intros d; simpl; [apply kept_refl|].
  pose proof (fallback_part_kept k p d Hk) as Hp.
  destruct (fallback_part p d) as [d' brk]; simpl in Hp.
  destruct brk; [done|]. eapply kept_trans; [exact Hp|apply IH].
Qed.

Lemma fallback_cell_kept k t d :
  k = "name" ∨ k = "symbol" → kept k d (fallback_cell t d).
Proof.
  intros Hk. unfold fallback_cell.
  destruct (nonempty t && searches letter_re t); [|apply kept_refl].
  by apply fallback_parts_kept.
Qed.

Lemma fallback_cells_kept k ts d :
  k = "name" ∨ k = "symbol" → kept k d (fallback_cells ts d).
Proof.
  intros Hk. revert d; induction ts as [|t ts IH]; intros d; simpl; [apply kept_refl|].
  eapply kept_trans; [by apply fallback_cell_kept|apply IH].
Qed.

Lemma fallback_cells_app l1 l2 d :
  fallback_cells (l1 ++ l2) d = fallback_cells l2 (fallback_cells l1 d).
Proof. revert d; induction l1 as [|t l1 IH]; intros d; simpl; [done|apply IH]. Qed.

(** ** The result set *)

Lemma result_set_nil : result_set [].
Proof. split_and!; try done; by intros i j r1 r2 _ Hi. Qed.

Lemma nonempty_false s : nonempty s = false → s = "".
Proof. by destruct s. Qed.

Lemma unusable_false d : unusable d = false → usable d.
Proof.
  unfold unusable, usable. intros H.
  destruct (getitem d "rank"); [|by left].
  destruct (getitem d "name"); [|by right; left].
  destruct (getitem d "price"); [done|by right; right].
Qed.

Lemma unusable_true d : unusable d = true → ¬ usable d.
Proof.
  unfold unusable, usable. intros H.
  destruct (getitem d "rank"), (getitem d "name"), (getitem d "price");
    simpl in H; try done. by intros [?|[?|?]].
Qed.

Lemma is_dup_false k data results r :
  k ∈ field_keys → Forall keys_ok results →
  is_dup k data results = false → r ∈ results →
  getitem r k = getitem data k → getitem r k = "".
Proof.
  intros Hk Hks Hdup Hr Heq. unfold is_dup in Hdup.
  apply andb_false_iff in Hdup as [Hn|Hex].
  - rewrite Heq. by apply nonempty_false.
  - exfalso. apply not_true_iff_false in Hex. apply Hex.
    apply existsb_exists. exists r. split; [by apply list_elem_of_In|].
    apply bool_decide_eq_true. rewrite <- Heq. apply keys_ok_lookup; [|done].
    rewrite Forall_forall in Hks. by apply Hks.
Qed.

Lemma is_dup_true k data results :
  is_dup k data results = true →
  getitem data k ≠ "" ∧ ∃ r, r ∈ results ∧ r !! k = Some (getitem data k).
Proof.
  unfold is_dup. intros [Hn Hex]%andb_true_iff. split.
  - by destruct (getitem data k).
  - apply existsb_exists in Hex as (r & Hr & Hb). exists r.
    split; [by apply list_elem_of_In|]. by apply bool_decide_eq_true in Hb.
Qed.

Lemma no_shared_snoc k data results :
  k ∈ field_keys → Forall keys_ok results →
  is_dup k data results = false →
  no_shared k results → no_shared k (results ++ [data]).
Proof.
  intros Hk Hks Hdup Hns i j r1 r2 Hij Hi Hj Heq.
  destruct (decide (i < length results)) as [Hil|Hil];
    destruct (decide (j < length results)) as [Hjl|Hjl].
  - rewrite lookup_app_l in Hi, Hj by done. by eapply Hns.
  - rewrite lookup_app_l in Hi by done. rewrite lookup_app_r in Hj by lia.
    apply list_lookup_singleton_Some in Hj as [_ <-].
    eapply is_dup_false; [done|done|done| |done].
    by eapply list_elem_of_lookup_2.
  - rewrite lookup_app_l in Hj by done. rewrite lookup_app_r in Hi by lia.
    apply list_lookup_singleton_Some in Hi as [_ <-].
    rewrite Heq. eapply is_dup_false; [done|done|done| |done].
    by eapply list_elem_of_lookup_2.
  - rewrite lookup_app_r in Hi, Hj by lia.
    apply list_lookup_singleton_Some in Hi as [Hi _].
    apply list_lookup_singleton_Some in Hj as [Hj _]. lia.
Qed.

Lemma accumulate_cases data results :
  accumulate data results = results
  ∨ (accumulate data results = results ++ [data] ∧ unusable data = false
     ∧ is_dup "rank" data results = false ∧ is_dup "name" data results = false).
Proof.
  unfold accumulate.
  destruct (unusable data); [by left|].
  destruct (is_dup "rank" data results); [by left|].
  destruct (is_dup "name" data results); [by left|]. by right.
Qed.

Lemma accumulate_result_set data results :
  keys_ok data → result_set results → result_set (accumulate data results).
Proof.
  intros Hk (Hks & Hus & Hr & Hn).
  destruct (accumulate_cases data results) as [->|(-> & Hu & Hdr & Hdn)]; [done|].
  split_and!.
  - apply Forall_app. split; [done|]. by apply Forall_singleton.
  - apply Forall_app. split; [done|]. by apply Forall_singleton, unusable_false.
  - apply no_shared_snoc; [compute_done|done..].
  - apply no_shared_snoc; [compute_done|done..].
Qed.

Lemma accumulate_length data results :
  length (accumulate data results) ≤ S (length results)
  ∧ results `prefix_of` accumulate data results.
Proof.
  destruct (accumulate_cases data results) as [->|(-> & _)].
  - split; [lia|done].
  - rewrite length_app. simpl. split; [lia|]. by apply prefix_app_r.
Qed.

(** ** Computations that leave a measure of the state alone *)

Section Quiet.

Context {St : Type} (μ : St → nat).

Lemma quiet_ret {A} (a : A) : quiet μ (mret a).
Proof. by intros s. Qed.

Lemma quiet_bind {A C} (m : M St A) (f : A → M St C) :
  quiet μ m → (∀ a, quiet μ (f a)) → quiet μ (m ≫= f).
Proof.
  intros Hm Hf s. unfold mbind, M_bind. specialize (Hm s).
  destruct (m s) as [[a|e] s']; simpl in *; [|done]. by rewrite Hf.
Qed.

Lemma quiet_catch {A} (m : M St A) (h : exn → M St A) :
  quiet μ m → (∀ e, quiet μ (h e)) → quiet μ (catch m h).
Proof.
  intros Hm Hh s. unfold catch. specialize (Hm s).
  destruct (m s) as [[a|e] s']; simpl in *; [done|]. by rewrite Hh.
Qed.

End Quiet.

Section QuietLocals.

Context {L Bs : Type} (μ : Bs → nat).

Lemma quiet_lift {A} (m : M Bs A) :
  quiet μ m → quiet (λ s : L * Bs, μ s.2) (lift m).
Proof.
  intros Hm s. unfold lift. specialize (Hm s.2). by destruct (m s.2).
Qed.

Lemma quiet_modify (f : L → L) : quiet (λ s : L * Bs, μ s.2) (modify f).
Proof. by intros s. Qed.

Lemma quiet_get_local : quiet (λ s : L * Bs, μ s.2) (get_local (L := L)).
Proof. by intros s. Qed.

Lemma quiet_with_locals {A} (init : L) (m : M (L * Bs) A) :
  quiet (λ s : L * Bs, μ s.2) m → quiet μ (with_locals init m).
Proof.
  intros Hm b. unfold with_locals. specialize (Hm (init, b)).
  by destruct (m (init, b)) as [[a|e] [l b']].
Qed.

End QuietLocals.

Lemma clicks_snoc tr c : clicks (tr ++ [c]) = clicks tr + (if is_click c then 1 else 0).
Proof.
  unfold clicks. rewrite List.filter_app, length_app. simpl. by destruct (is_click c).
Qed.

Section LoopProps.

Context {W : Type} (B : browser W).

Lemma invoke_clicks {A} c (f : W → result A * W) b :
  nclicks (invoke c f b).2 = nclicks b + (if is_click c then 1 else 0).
Proof. unfold invoke, nclicks. destruct (f (world b)). simpl. apply clicks_snoc. Qed.

Lemma quiet_invoke {A} c (f : W → result A * W) :
  is_click c = false → quiet nclicks (invoke c f).
Proof. intros Hc b. rewrite invoke_clicks, Hc. lia. Qed.

Local Ltac quiet_step :=
  first
    [ apply quiet_ret
    | apply quiet_modify
    | apply quiet_get_local
    | apply quiet_invoke; reflexivity
    | apply quiet_lift
    | apply quiet_with_locals
    | apply quiet_bind; [|intros ?]
    | apply quiet_catch; [|intros ?]
    | match goal with |- quiet _ (if ?c then _ else _) => destruct c end
    | match goal with |- quiet _ (match ?c with _ => _ end) => destruct c end
    | match goal with |- quiet _ (let '_ := ?c in _) => destruct c end ].

Lemma quiet_safe_text l : quiet nclicks (safe_text B l).
Proof. unfold safe_text, text_content. repeat quiet_step. Qed.

Lemma quiet_tds_loop row indices tds : quiet nclicks (tds_loop B row indices tds).
Proof.
  revert tds; induction indices as [|i indices IH]; intros tds; simpl.
  - apply quiet_ret.
  - apply quiet_bind; [apply quiet_safe_text|]. intros s. apply IH.
Qed.

Lemma quiet_read_tds row : quiet nclicks (read_tds B row).
Proof.
  unfold read_tds, count. repeat quiet_step. apply quiet_tds_loop.
Qed.

Lemma quiet_extract_from_row row : quiet nclicks (extract_from_row B row).
Proof.
  unfold extract_from_row, extract_body, hints, price_fallback, count, text_content.
  repeat first [apply quiet_read_tds | quiet_step].
Qed.

Lemma quiet_process_row i results : quiet nclicks (process_row B i results).
Proof.
  unfold process_row, wait_for.
  repeat first [apply quiet_extract_from_row | quiet_step].
Qed.

End LoopProps.

(** ** The collection loop *)

Section Collection.

Context {W : Type} (B : browser W).
Variable target_count : Z.

Lemma process_row_spec i results b :
  result_set results →
  ∃ results' b', process_row B i results b = (Ok results', b')
    ∧ result_set results'
    ∧ results `prefix_of` results'
    ∧ length results' ≤ S (length results)
    ∧ nclicks b' = nclicks b.
Proof.
  intros Hrs. pose proof (quiet_process_row B i results b) as Hq.
  unfold process_row in *. unfold catch, mbind, M_bind, mret, M_ret in *.
  destruct (wait_for B (Nth rows_locator i) b) as [[[]|e] b1].
  - destruct (extract_from_row_keys B (Nth rows_locator i) b1) as (data & b2 & He & Hk).
    rewrite He in *. simpl in Hq. exists (accumulate data results), b2.
    split_and!; [done|by apply accumulate_result_set|apply accumulate_length..|done].
  - destruct (extract_from_row_keys B (Nth rows_locator i) b1) as (data & b2 & He & Hk).
    rewrite He in *. simpl in Hq. exists (accumulate data results), b2.
    split_and!; [done|by apply accumulate_result_set|apply accumulate_length..|done].
Qed.

Lemma scan_rows_full indices results b :
  (target_count ≤ Z.of_nat (length results))%Z →
  scan_rows B target_count indices results b = (Ok results, b).
Proof.
  intros Hfull. destruct indices as [|i indices]; simpl; [done|].
  by rewrite (proj2 (Z.leb_le _ _) Hfull).
Qed.

Lemma scan_rows_spec indices results b :
  result_set results →
  ∃ results' b', scan_rows B target_count indices results b = (Ok results', b')
    ∧ result_set results'
    ∧ results `prefix_of` results'
    ∧ (Z.of_nat (length results') ≤ Z.max target_count (Z.of_nat (length results)))%Z
    ∧ nclicks b' = nclicks b.
Proof.
  revert results b; induction indices as [|i indices IH]; intros results b Hrs; simpl.
  - exists results, b. split_and!; [done|done|done|lia|done].
  - destruct (target_count <=? Z.of_nat (length results))%Z eqn:Hfull.
    + exists results, b. split_and!; [done|done|done|lia|done].
    + apply Z.leb_gt in Hfull.
      destruct (process_row_spec i results b Hrs) as (r1 & b1 & Hp & Hrs1 & Hpre1 & Hlen1 & Hc1).
      destruct (IH r1 b1 Hrs1) as (r2 & b2 & Hs & Hrs2 & Hpre2 & Hlen2 & Hc2).
      exists r2, b2. unfold mbind, M_bind. rewrite Hp.
      split_and!; [done|done|by etrans|lia|congruence].
Qed.

Lemma row_count_spec b :
  ∃ n b1, catch (count B rows_locator) (λ _, mret 0) b = (Ok n, b1)
    ∧ nclicks b1 = nclicks b.
Proof.
  pose proof (quiet_invoke (Count rows_locator) (br_count B rows_locator) eq_refl b) as Hq.
  unfold catch, count in *.
  destruct (invoke (Count rows_locator) (br_count B rows_locator) b) as [[n|e] b1];
    simpl in *; by eexists _, _.
Qed.

Lemma paginate_spec b :
  ∃ c b', paginate B b = (Ok c, b') ∧ nclicks b' ≤ nclicks b + 1.
Proof.
  unfold paginate, catch, mbind, M_bind, mret, M_ret.
  pose proof (invoke_clicks (Count next_btn) (br_count B next_btn) b) as H1.
  unfold count. destruct (invoke (Count next_btn) (br_count B next_btn) b) as [[n|e] b1];
    simpl in H1; [|eexists _, _; split; [done|lia]].
  destruct (0 <? n).
  - pose proof (invoke_clicks (IsEnabled next_btn) (br_is_enabled B next_btn) b1) as H2.
    unfold is_enabled.
    destruct (invoke (IsEnabled next_btn) (br_is_enabled B next_btn) b1) as [[en|e] b2];
      simpl in H2; [|eexists _, _; split; [done|lia]].
    destruct en; [|eexists _, _; split; [done|lia]].
    pose proof (invoke_clicks (Click (First next_btn)) (br_click B (First next_btn)) b2) as H3.
    unfold click.
    destruct (invoke (Click (First next_btn)) (br_click B (First next_btn)) b2) as [[[]|e] b3];
      simpl in H3; [|eexists _, _; split; [done|lia]].
    pose proof (invoke_clicks (WaitForSelector "tbody tr")
                  (br_wait_for_selector B "tbody tr") b3) as H4.
    unfold wait_for_selector.
    destruct (invoke (WaitForSelector "tbody tr") (br_wait_for_selector B "tbody tr") b3)
      as [[[]|e] b4]; simpl in H4; eexists _, _; (split; [done|lia]).
  - eexists _, _. split; [done|]. lia.
Qed.

Lemma collection_loop_spec fuel results navigations b :
  MAX_PAGE_NAVIGATIONS - navigations < fuel →
  result_set results →
  ∃ results' navigations' b',
    collection_loop B fuel target_count results navigations b
      = (Ok (Some (results', navigations')), b')
    ∧ navigations ≤ navigations'
    ∧ navigations' ≤ Nat.max navigations MAX_PAGE_NAVIGATIONS
    ∧ nclicks b' + navigations ≤ nclicks b + navigations'
    ∧ result_set results'
    ∧ results `prefix_of` results'
    ∧ (Z.of_nat (length results') ≤ Z.max target_count (Z.of_nat (length results)))%Z.
Proof.
  revert results navigations b.
  induction fuel as [|fuel IH]; intros results navigations b Hfuel Hrs; [lia|].
  simpl.
  destruct ((Z.of_nat (length results) <? target_count)%Z
            && (navigations <? MAX_PAGE_NAVIGATIONS)) eqn:Hcond.
  - apply andb_true_iff in Hcond as [Hlt Hnav].
    apply Z.ltb_lt in Hlt. apply Nat.ltb_lt in Hnav.
    destruct (row_count_spec b) as (n & b1 & Hrc & Hc1).
    destruct (scan_rows_spec (seq 0 n) results b1 Hrs)
      as (r1 & b2 & Hs & Hrs1 & Hpre1 & Hlen1 & Hc2).
    unfold mbind, M_bind. rewrite Hrc, Hs.
    destruct (Z.of_nat (length r1) <? target_count)%Z eqn:Hmore.
    + destruct (paginate_spec b2) as (c & b3 & Hp & Hc3). rewrite Hp.
      destruct c.
      * destruct (IH r1 (navigations + 1) b3) as (r2 & n2 & b4 & Hl & Hn1 & Hn2 & Hc4 & Hrs2 & Hpre2 & Hlen2);
          [lia|done|].
        exists r2, n2, b4. rewrite Hl.
        split_and!; [done|lia|lia|lia|done|by etrans|lia].
      * exists r1, (navigations + 1), b3.
        split_and!; [done|lia|lia|lia|done|done|lia].
    + destruct (IH r1 (navigations + 1) b2) as (r2 & n2 & b4 & Hl & Hn1 & Hn2 & Hc4 & Hrs2 & Hpre2 & Hlen2);
        [lia|done|].
      exists r2, n2, b4. rewrite Hl.
      split_and!; [done|lia|lia|lia|done|by etrans|lia].
  - exists results, navigations, b.
    split_and!; [done|lia|lia|lia|done|done|lia].
Qed.

End Collection.

(** ** [scrape_top_n] *)

Lemma slice_to_short {A} (l : list A) n :
  (Z.of_nat (length l) ≤ n)%Z → slice_to l n = l.
Proof.
  intros Hn. unfold slice_to.
  destruct (n <? 0)%Z eqn:Hneg; [apply Z.ltb_lt in Hneg; lia|].
  apply take_ge. lia.
Qed.

Lemma slice_to_length {A} (l : list A) n :
  (0 ≤ n)%Z → (Z.of_nat (length (slice_to l n)) ≤ n)%Z.
Proof.
  intros Hn. unfold slice_to.
  destruct (n <? 0)%Z eqn:Hneg; [apply Z.ltb_lt in Hneg; lia|].
  rewrite length_take. lia.
Qed.

Lemma slice_to_nil {A} n : slice_to (A := A) [] n = [].
Proof. unfold slice_to. by destruct (n <? 0)%Z; rewrite take_nil. Qed.

Lemma slice_to_prefix {A} (l : list A) n : slice_to l n `prefix_of` l.
Proof. unfold slice_to. destruct (n <? 0)%Z; apply prefix_take. Qed.

Lemma slice_to_take {A} (l : list A) n :
  (0 ≤ n)%Z → slice_to l n = take (Z.to_nat n) l.
Proof.
  intros Hn. unfold slice_to.
  destruct (n <? 0)%Z eqn:Hneg; [apply Z.ltb_lt in Hneg; lia|done].
Qed.

Lemma slice_to_negative {A} (l : list A) n :
  (n < 0)%Z → slice_to l n = take (length l - Z.to_nat (- n)) l.
Proof.
  intros Hn. unfold slice_to. rewrite (proj2 (Z.ltb_lt _ _) Hn). f_equal. lia.
Qed.

Lemma no_shared_prefix k l1 l2 : l1 `prefix_of` l2 → no_shared k l2 → no_shared k l1.
Proof.
  intros [l' ->] Hns i j r1 r2 Hij Hi Hj. apply (Hns i j); [done|..].
  - by apply lookup_app_l_Some.
  - by apply lookup_app_l_Some.
Qed.

Lemma result_set_prefix l1 l2 : l1 `prefix_of` l2 → result_set l2 → result_set l1.
Proof.
  intros Hpre (Hk & Hu & Hr & Hn). pose proof Hpre as [l' ->].
  apply Forall_app in Hk as [Hk _]. apply Forall_app in Hu as [Hu _].
  split_and!; [done|done|by eapply no_shared_prefix..].
Qed.

Section ScrapeProps.

Context {W : Type} (B : browser W).

(** The page is loaded (or timed out): the loop runs from [b2]. *)
Local Ltac run_loop b2 :=
  let results := fresh "results" in
  let navs := fresh "navs" in
  let b3 := fresh "b" in
  let b4 := fresh "b" in
  let Hl := fresh "Hl" in
  let Hc := fresh "Hc" in
  let Hrs := fresh "Hrs" in
  let Hlen := fresh "Hlen" in
  let H5 := fresh "H" in
  let Hn := fresh "Hn" in
  match goal with
  | |- context [collection_loop ?B ?fuel ?t [] 0 b2] =>
      destruct (collection_loop_spec B t fuel [] 0 b2)
        as (results & navs & b3 & Hl & _ & Hn & Hc & Hrs & _ & Hlen);
        [lia|apply result_set_nil|];
      rewrite Hl;
      pose proof (invoke_clicks Close (br_close B) b3) as H5; unfold close;
      destruct (invoke Close (br_close B) b3) as [[[]|?] b4]; simpl in H5;
        [|eexists _, _; split; [done|by intros out [=]]];
      eexists _, _; split; [done|]; intros out [= <-];
      unfold MAX_PAGE_NAVIGATIONS in *; split; [lia|];
      right; exists b2, results, navs, b3; done
  end.

(** The page could not be loaded: the browser is closed at [b2]. *)
Local Ltac stop_early b2 :=
  let b4 := fresh "b" in
  let H4 := fresh "H" in
  match goal with
  | |- context [close ?B b2] =>
      pose proof (invoke_clicks Close (br_close B) b2) as H4; unfold close;
      destruct (invoke Close (br_close B) b2) as [[[]|?] b4]; simpl in H4;
        [|eexists _, _; split; [done|by intros out [=]]];
      eexists _, _; split; [done|]; intros out [= <-]; split; [lia|by left]
  end.

(** [scrape_top_n] either raises (the browser could not be opened or closed)
    or returns the records of the loop, cut at [target_count]; without a
    loaded page it returns no record. *)
Lemma scrape_top_n_spec fuel target_count b :
  MAX_PAGE_NAVIGATIONS < fuel →
  ∃ r b', scrape_top_n B fuel target_count b = (r, b')
    ∧ ∀ out, r = Ok out →
        nclicks b' ≤ nclicks b + MAX_PAGE_NAVIGATIONS
        ∧ (out = Some []
           ∨ ∃ b0 results navigations b1,
               collection_loop B fuel target_count [] 0 b0
                 = (Ok (Some (results, navigations)), b1)
               ∧ result_set results
               ∧ (Z.of_nat (length results) ≤ Z.max target_count 0)%Z
               ∧ out = Some (slice_to results target_count)).
Proof.
  intros Hfuel. unfold scrape_top_n, catch, mbind, M_bind, mret, M_ret.
  pose proof (invoke_clicks Launch (br_launch B) b) as H1. unfold launch.
  destruct (invoke Launch (br_launch B) b) as [[[]|e] b1]; simpl in H1;
    [|eexists _, _; split; [done|by intros out [=]]].
  pose proof (invoke_clicks (Goto START_URL) (br_goto B START_URL) b1) as H2. unfold goto.
  destruct (invoke (Goto START_URL) (br_goto B START_URL) b1) as [[[]|[]] b2]; simpl in H2.
  - pose proof (invoke_clicks (WaitForSelector "tbody tr")
                  (br_wait_for_selector B "tbody tr") b2) as H3.
    unfold wait_for_selector.
    destruct (invoke (WaitForSelector "tbody tr") (br_wait_for_selector B "tbody tr") b2)
      as [[[]|[]] b3]; simpl in H3.
    + run_loop b3.
    + run_loop b3.
    + stop_early b3.
  - run_loop b2.
  - stop_early b2.
Qed.

End ScrapeProps.

(** ** The claims on the collection loop *)

Section LoopClaims.

Context {W : Type} (B : browser W).

Lemma scrape_top_n_loaded fuel target_count b b1 b0 :
  (0 ≤ target_count)%Z →
  MAX_PAGE_NAVIGATIONS < fuel →
  launch B b = (Ok tt, b1) →
  catch (goto B START_URL;; wait_for_selector B "tbody tr";; mret true)
        (λ e, match e with
              | PlaywrightTimeoutError => mret true
              | OtherException => close B;; mret false
              end) b1 = (Ok true, b0) →
  returns_cut B fuel target_count b b0.
Proof.
  intros Htarget Hfuel Hlaunch Hload.
  destruct (collection_loop_spec B target_count fuel [] 0 b0)
    as (results & navs & b2 & Hl & _); [lia|apply result_set_nil|].
  exists results, navs, b2. split; [done|]. intros b3 Hclose.
  unfold scrape_top_n. unfold mbind at 1, M_bind at 1. rewrite Hlaunch.
  unfold mbind at 1, M_bind at 1. rewrite Hload.
  unfold mbind at 1, M_bind at 1. rewrite Hl.
  unfold mbind, M_bind, mret, M_ret. rewrite Hclose.
  by rewrite slice_to_take.
Qed.

(** C2.  From an empty result set and with a target that is not negative,
    the loop ends without raising after at most [MAX_PAGE_NAVIGATIONS] rounds
    and clicks on Next, with at most [target_count] records; once
    [target_count] records are there, the rest of a page is passed over
    without a call to the page.  What [scrape_top_n] returns is the result
    set of the loop cut at [target_count]: [results[:n]] is the first [n]
    records for [n] that is not negative, and all but the last [-n]
    otherwise; when the start page loads, or loading it times out, the
    output is the first [target_count] records of the loop that starts from
    the state after loading, in the order in which the loop has added them,
    and when loading raises anything else the output is the empty list. *)
Theorem collection_terminates_within_bounds target_count fuel b :
  (0 ≤ target_count)%Z →
  MAX_PAGE_NAVIGATIONS < fuel →
  (∃ results navigations b',
     collection_loop B fuel target_count [] 0 b
       = (Ok (Some (results, navigations)), b')
     ∧ (Z.of_nat (length results) ≤ target_count)%Z
     ∧ navigations ≤ MAX_PAGE_NAVIGATIONS
     ∧ clicks (trace b') ≤ clicks (trace b) + MAX_PAGE_NAVIGATIONS)
  ∧ (∀ indices results b0,
       (target_count ≤ Z.of_nat (length results))%Z →
       scan_rows B target_count indices results b0 = (Ok results, b0))
  ∧ (∃ r b', scrape_top_n B fuel target_count b = (r, b')
       ∧ ∀ out, r = Ok out →
           clicks (trace b') ≤ clicks (trace b) + MAX_PAGE_NAVIGATIONS
           ∧ ∃ results,
               out = Some (slice_to results target_count)
               ∧ slice_to results target_count `prefix_of` results
               ∧ (Z.of_nat (length (slice_to results target_count)) ≤ target_count)%Z
               ∧ (results = []
                  ∨ ∃ b0 navigations b1,
                      collection_loop B fuel target_count [] 0 b0
                        = (Ok (Some (results, navigations)), b1)))
  ∧ (∀ (l : list dict) n, (0 ≤ n)%Z → slice_to l n = take (Z.to_nat n) l)
  ∧ (∀ (l : list dict) n, (n < 0)%Z → slice_to l n = take (length l - Z.to_nat (- n)) l)
  ∧ (∀ b1, launch B b = (Ok tt, b1) →
       (∀ b2 b3, goto B START_URL b1 = (Ok tt, b2) →
          wait_for_selector B "tbody tr" b2 = (Ok tt, b3) →
          returns_cut B fuel target_count b b3)
       ∧ (∀ b2 b3, goto B START_URL b1 = (Ok tt, b2) →
            wait_for_selector B "tbody tr" b2 = (Raise PlaywrightTimeoutError, b3) →
            returns_cut B fuel target_count b b3)
       ∧ (∀ b2, goto B START_URL b1 = (Raise PlaywrightTimeoutError, b2) →
            returns_cut B fuel target_count b b2)
       ∧ (∀ b2 b3, goto B START_URL b1 = (Raise OtherException, b2) →
            close B b2 = (Ok tt, b3) →
            scrape_top_n B fuel target_count b = (Ok (Some []), b3))
       ∧ (∀ b2 b3 b4, goto B START_URL b1 = (Ok tt, b2) →
            wait_for_selector B "tbody tr" b2 = (Raise OtherException, b3) →
            close B b3 = (Ok tt, b4) →
            scrape_top_n B fuel target_count b = (Ok (Some []), b4))).
Proof.
  intros Htarget Hfuel. split_and!.
  - destruct (collection_loop_spec B target_count fuel [] 0 b)
      as (results & navs & b' & Hl & _ & Hn & Hc & _ & _ & Hlen);
      [lia|apply result_set_nil|].
    exists results, navs, b'. unfold nclicks in Hc. simpl in Hlen.
    split_and!; [done|lia|lia|lia].
  - intros indices results b0. apply scan_rows_full.
  - destruct (scrape_top_n_spec B fuel target_count b Hfuel) as (r & b' & Hs & Hout).
    exists r, b'. split; [done|]. intros out ->.
    destruct (Hout out eq_refl) as [Hc [->|(b0 & results & navs & b1 & Hl & _ & _ & ->)]].
    + split; [done|]. exists []. rewrite slice_to_nil.
      split_and!; [done|done|simpl; lia|by left].
    + split; [done|]. exists results.
      split_and!; [done|apply slice_to_prefix|by apply slice_to_length|].
      right. by exists b0, navs, b1.
  - intros l n. apply slice_to_take.
  - intros l n. apply slice_to_negative.
  - intros b1 Hlaunch. split_and!.
    + intros b2 b3 Hgoto Hwait. apply (scrape_top_n_loaded fuel target_count b b1); try done.
      unfold catch, mbind, M_bind, mret, M_ret. by rewrite Hgoto, Hwait.
    + intros b2 b3 Hgoto Hwait. apply (scrape_top_n_loaded fuel target_count b b1); try done.
      unfold catch, mbind, M_bind, mret, M_ret. by rewrite Hgoto, Hwait.
    + intros b2 Hgoto. apply (scrape_top_n_loaded fuel target_count b b1); try done.
      unfold catch, mbind, M_bind, mret, M_ret. by rewrite Hgoto.
    + intros b2 b3 Hgoto Hclose.
      unfold scrape_top_n, catch, mbind, M_bind, mret, M_ret.
      by rewrite Hlaunch, Hgoto, Hclose.
    + intros b2 b3 b4 Hgoto Hwait Hclose.
      unfold scrape_top_n, catch, mbind, M_bind, mret, M_ret.
      by rewrite Hlaunch, Hgoto, Hwait, Hclose.
Qed.

(** C3, as the code has it.  When the page shows no row (or its rows cannot
    be counted), the round adds no record and goes on to the pagination step.
    The loop ends with the records it had when the page finds no Next
    control, when the control is disabled, and when the attempt fails:
    counting the controls, asking whether Next is enabled, the click or the
    wait for rows raises.  Otherwise, when all four calls return, the page
    has been clicked once, on the first Next control, and the loop goes on
    from there with the same records. *)
Theorem empty_page_goes_on_to_pagination target_count fuel results navigations b b1 :
  (Z.of_nat (length results) < target_count)%Z →
  navigations < MAX_PAGE_NAVIGATIONS →
  catch (count B rows_locator) (λ _, mret 0) b = (Ok 0, b1) →
  (∃ c b2, paginate B b1 = (Ok c, b2))
  ∧ (∀ b2, paginate B b1 = (Ok false, b2) →
       collection_loop B (S fuel) target_count results navigations b
         = (Ok (Some (results, navigations + 1)), b2))
  ∧ (∀ b2, paginate B b1 = (Ok true, b2) →
       clicks (trace b2) = clicks (trace b1) + 1
       ∧ collection_loop B (S fuel) target_count results navigations b
           = collection_loop B fuel target_count results (navigations + 1) b2)
  ∧ (∀ b2, count B next_btn b1 = (Ok 0, b2) → paginate B b1 = (Ok false, b2))
  ∧ (∀ n b2 b3, count B next_btn b1 = (Ok (S n), b2) →
       is_enabled B next_btn b2 = (Ok false, b3) → paginate B b1 = (Ok false, b3))
  ∧ (∀ e b2, count B next_btn b1 = (Raise e, b2) → paginate B b1 = (Ok false, b2))
  ∧ (∀ b2, count B next_btn b1 = (Ok 0, b2) →
       ends_at B fuel target_count results navigations b b2)
  ∧ (∀ e b2, count B next_btn b1 = (Raise e, b2) →
       ends_at B fuel target_count results navigations b b2)
  ∧ (∀ n b2, count B next_btn b1 = (Ok (S n), b2) →
       (∀ b3, is_enabled B next_btn b2 = (Ok false, b3) →
          ends_at B fuel target_count results navigations b b3)
       ∧ (∀ e b3, is_enabled B next_btn b2 = (Raise e, b3) →
            ends_at B fuel target_count results navigations b b3)
       ∧ (∀ b3, is_enabled B next_btn b2 = (Ok true, b3) →
            (∀ e b4, click B (First next_btn) b3 = (Raise e, b4) →
               ends_at B fuel target_count results navigations b b4)
            ∧ (∀ b4, click B (First next_btn) b3 = (Ok tt, b4) →
                 (∀ e b5, wait_for_selector B "tbody tr" b4 = (Raise e, b5) →
                    ends_at B fuel target_count results navigations b b5)
                 ∧ (∀ b5, wait_for_selector B "tbody tr" b4 = (Ok tt, b5) →
                      trace b5 = trace b1 ++ next_page_calls
                      ∧ clicks (trace b5) = clicks (trace b1) + 1
                      ∧ collection_loop B (S fuel) target_count results navigations b
                        = collection_loop B fuel target_count results
                            (navigations + 1) b5)))).
Proof.
  intros Hlt Hnav Hrows.
  assert (Hstep : ∀ c b2, paginate B b1 = (Ok c, b2) →
            collection_loop B (S fuel) target_count results navigations b
            = if c then collection_loop B fuel target_count results (navigations + 1) b2
              else (Ok (Some (results, navigations + 1)), b2)).
  { intros c b2 Hp. simpl.
    rewrite (proj2 (Z.ltb_lt _ _) Hlt), (proj2 (Nat.ltb_lt _ _) Hnav). simpl.
    unfold mbind, M_bind. rewrite Hrows. simpl. unfold mret, M_ret.
    rewrite (proj2 (Z.ltb_lt _ _) Hlt), Hp. by destruct c. }
  assert (Hstop : ∀ b2, paginate B b1 = (Ok false, b2) →
            ends_at B fuel target_count results navigations b b2).
  { intros b2 Hp. unfold ends_at. by rewrite (Hstep false b2 Hp). }
  assert (Htrace : ∀ {A} c (f : W → result A * W) r s s',
            invoke c f s = (r, s') → trace s' = trace s ++ [c]).
  { intros A c f r s s'. unfold invoke. destruct (f (world s)). by intros [= _ <-]. }
  split_and!.
  - destruct (paginate_spec B b1) as (c & b2 & Hp & _). by exists c, b2.
  - intros b2 Hp. by rewrite (Hstep false b2 Hp).
  - intros b2 Hp. split; [|by rewrite (Hstep true b2 Hp)].
    revert Hp. unfold paginate, catch, mbind, M_bind, mret, M_ret.
    pose proof (invoke_clicks (Count next_btn) (br_count B next_btn) b1) as H1.
    unfold count. destruct (invoke (Count next_btn) (br_count B next_btn) b1) as [[n|e] b3];
      simpl in H1; [|done].
    destruct (0 <? n); [|done].
    pose proof (invoke_clicks (IsEnabled next_btn) (br_is_enabled B next_btn) b3) as H2.
    unfold is_enabled.
    destruct (invoke (IsEnabled next_btn) (br_is_enabled B next_btn) b3) as [[en|e] b4];
      simpl in H2; [|done].
    destruct en; [|done].
    pose proof (invoke_clicks (Click (First next_btn)) (br_click B (First next_btn)) b4) as H3.
    unfold click.
    destruct (invoke (Click (First next_btn)) (br_click B (First next_btn)) b4) as [[[]|e] b5];
      simpl in H3; [|done].
    pose proof (invoke_clicks (WaitForSelector "tbody tr")
                  (br_wait_for_selector B "tbody tr") b5) as H4.
    unfold wait_for_selector.
    destruct (invoke (WaitForSelector "tbody tr") (br_wait_for_selector B "tbody tr") b5)
      as [[[]|e] b6]; simpl in H4; [|done].
    intros [= <-]. unfold nclicks in *. lia.
  - intros b2 Hc. unfold paginate, catch, mbind, M_bind. by rewrite Hc.
  - intros n b2 b3 Hc Hen. unfold paginate, catch, mbind, M_bind. rewrite Hc.
    simpl. by rewrite Hen.
  - intros e b2 Hc. unfold paginate, catch, mbind, M_bind. by rewrite Hc.
  - intros b2 Hc. apply Hstop. unfold paginate, catch, mbind, M_bind. by rewrite Hc.
  - intros e b2 Hc. apply Hstop. unfold paginate, catch, mbind, M_bind. by rewrite Hc.
  - intros n b2 Hc. split_and!.
    + intros b3 Hen. apply Hstop. unfold paginate, catch, mbind, M_bind.
      rewrite Hc. simpl. by rewrite Hen.
    + intros e b3 Hen. apply Hstop. unfold paginate, catch, mbind, M_bind.
      rewrite Hc. simpl. by rewrite Hen.
    + intros b3 Hen. split.
      * intros e b4 Hcl. apply Hstop. unfold paginate, catch, mbind, M_bind.
        rewrite Hc. simpl. rewrite Hen. by rewrite Hcl.
      * intros b4 Hcl. split.
        -- intros e b5 Hw. apply Hstop. unfold paginate, catch, mbind, M_bind.
           rewrite Hc. simpl. rewrite Hen, Hcl. by rewrite Hw.
        -- intros b5 Hw.
           assert (Hp : paginate B b1 = (Ok true, b5)).
           { unfold paginate, catch, mbind, M_bind.
             rewrite Hc. simpl. rewrite Hen, Hcl. by rewrite Hw. }
           assert (Htr : trace b5 = trace b1 ++ next_page_calls).
           { rewrite (Htrace _ _ _ _ _ _ Hw), (Htrace _ _ _ _ _ _ Hcl),
               (Htrace _ _ _ _ _ _ Hen), (Htrace _ _ _ _ _ _ Hc).
             by rewrite <- !app_assoc. }
           split; [done|]. split; [|by rewrite (Hstep true b5 Hp)].
           rewrite Htr. unfold clicks. rewrite List.filter_app, length_app. done.
Qed.

(** C4.  Adding a record keeps ranks and names that are not empty distinct; a
    record whose rank or name is already there is left out and [results] stays
    as it is; every round of the loop over the rows returns, without raising,
    a result set with distinct ranks and names; and so do the loop, whose
    records all have the eight fields, and the cut at [target_count]. *)
Theorem dedup_invariant target_count fuel b :
  MAX_PAGE_NAVIGATIONS < fuel →
  (∀ data results,
     keys_ok data → result_set results →
     no_shared "rank" (accumulate data results)
     ∧ no_shared "name" (accumulate data results))
  ∧ (∀ data results k r,
       k = "rank" ∨ k = "name" →
       getitem data k ≠ "" → r ∈ results → r !! k = Some (getitem data k) →
       accumulate data results = results)
  ∧ (∀ i results b0,
       result_set results →
       ∃ results' b1, process_row B i results b0 = (Ok results', b1)
         ∧ no_shared "rank" results' ∧ no_shared "name" results')
  ∧ (∃ results navigations b',
       collection_loop B fuel target_count [] 0 b
         = (Ok (Some (results, navigations)), b')
       ∧ Forall keys_ok results
       ∧ no_shared "rank" results ∧ no_shared "name" results
       ∧ no_shared "rank" (slice_to results target_count)
       ∧ no_shared "name" (slice_to results target_count)).
Proof.
  intros Hfuel. split_and!.
  - intros data results Hk Hrs.
    by destruct (accumulate_result_set data results Hk Hrs) as (_ & _ & ? & ?).
  - intros data results k r Hk Hne Hr Heq.
    assert (Hdup : is_dup k data results = true).
    { unfold is_dup. rewrite (nonempty_true _ Hne). simpl.
      apply existsb_exists. exists r. split; [by apply list_elem_of_In|].
      by apply bool_decide_eq_true. }
    unfold accumulate. destruct (unusable data); [done|].
    destruct Hk as [-> | ->].
    + by rewrite Hdup.
    + rewrite Hdup. by destruct (is_dup "rank" data results).
  - intros i results b0 Hrs.
    destruct (process_row_spec B i results b0 Hrs) as (r' & b1 & Hp & (_ & _ & ? & ?) & _).
    by exists r', b1.
  - destruct (collection_loop_spec B target_count fuel [] 0 b)
      as (results & navs & b' & Hl & _ & _ & _ & (Hks & _ & Hr & Hn) & _);
      [lia|apply result_set_nil|].
    exists results, navs, b'. split_and!; try done.
    + eapply no_shared_prefix; [apply slice_to_prefix|done].
    + eapply no_shared_prefix; [apply slice_to_prefix|done].
Qed.

(** C5.  A record whose rank, name and price are all empty is never added,
    whatever its other fields are; every record of every round of the loop
    over the rows, of the loop and of the cut at [target_count] has a rank, a
    name or a price. *)
Theorem acceptance_gate target_count fuel b :
  MAX_PAGE_NAVIGATIONS < fuel →
  (∀ data results,
     getitem data "rank" = "" → getitem data "name" = "" → getitem data "price" = "" →
     accumulate data results = results)
  ∧ (∀ data results, Forall usable results → Forall usable (accumulate data results))
  ∧ (∀ i results b0,
       result_set results →
       ∃ results' b1, process_row B i results b0 = (Ok results', b1)
         ∧ Forall usable results')
  ∧ (∃ results navigations b',
       collection_loop B fuel target_count [] 0 b
         = (Ok (Some (results, navigations)), b')
       ∧ Forall usable results
       ∧ Forall usable (slice_to results target_count)).
Proof.
  intros Hfuel. split_and!.
  - intros data results Hr Hn Hp. unfold accumulate, unusable. by rewrite Hr, Hn, Hp.
  - intros data results Hu.
    destruct (accumulate_cases data results) as [->|(-> & Hus & _)]; [done|].
    apply Forall_app. split; [done|]. by apply Forall_singleton, unusable_false.
  - intros i results b0 Hrs.
    destruct (process_row_spec B i results b0 Hrs) as (r' & b1 & Hp & (_ & ? & _) & _).
    by exists r', b1.
  - destruct (collection_loop_spec B target_count fuel [] 0 b)
      as (results & navs & b' & Hl & _ & _ & _ & (_ & Hu & _) & _);
      [lia|apply result_set_nil|].
    exists results, navs, b'. split_and!; try done.
    destruct (slice_to_prefix results target_count) as [l' Hl'].
    rewrite Hl' in Hu. by apply Forall_app in Hu as [Hu _].
Qed.

End LoopClaims.

(** ** The claims at concrete tables *)

(** C7 at the row [priced_cells]. *)
Lemma market_cap_first_longest_witness :
  (read_tds (one_row priced_cells) row0 Static.start).1 = Ok priced_cells
  ∧ ∃ d b', extract_from_row (one_row priced_cells) row0 Static.start = (Ok d, b')
      ∧ ((∃ t, t ∈ priced_cells ∧ cap_candidate t) →
           ∃ m, d !! "market_cap" = Some m ∧ first_longest cap_candidate priced_cells m).
Proof.
  assert (H : (read_tds (one_row priced_cells) row0 Static.start).1 = Ok priced_cells)
    by (vm_compute; reflexivity).
  split; [exact H|].
  destruct (market_cap_first_longest (one_row priced_cells) row0 Static.start priced_cells H)
    as (d & b' & He & _ & Hm).
  exists d, b'. split; [exact He|exact Hm].
Defined.

(** C8 at the row [priced_cells]. *)
Lemma volume_second_longest_witness :
  (read_tds (one_row priced_cells) row0 Static.start).1 = Ok priced_cells
  ∧ ∃ d b', extract_from_row (one_row priced_cells) row0 Static.start = (Ok d, b')
      ∧ (2 ≤ length (List.filter (has_char "$") priced_cells) →
           ∃ v, d !! "volume_24h" = Some v
             ∧ second_longest (List.filter (has_char "$") priced_cells) v).
Proof.
  assert (H : (read_tds (one_row priced_cells) row0 Static.start).1 = Ok priced_cells)
    by (vm_compute; reflexivity).
  split; [exact H|].
  destruct (volume_second_longest (one_row priced_cells) row0 Static.start priced_cells H)
    as (d & b' & He & _ & _ & Hv).
  exists d, b'. split; [exact He|exact Hv].
Defined.

(** C10 at the row [short_cells]. *)
Lemma short_dollars_volume_without_cap_witness :
  (read_tds (one_row short_cells) row0 Static.start).1 = Ok short_cells
  ∧ 2 ≤ length (List.filter (has_char "$") short_cells)
  ∧ (∀ t, t ∈ short_cells → has_char "$" t = true → len t ≤ 6)
  ∧ ∃ d b' v, extract_from_row (one_row short_cells) row0 Static.start = (Ok d, b')
      ∧ d !! "market_cap" = Some ""
      ∧ d !! "volume_24h" = Some v
      ∧ v ≠ ""
      ∧ second_longest (List.filter (has_char "$") short_cells) v.
Proof.
  assert (H1 : (read_tds (one_row short_cells) row0 Static.start).1 = Ok short_cells)
    by (vm_compute; reflexivity).
  assert (H2 : 2 ≤ length (List.filter (has_char "$") short_cells))
    by (vm_compute; lia).
  assert (H3 : ∀ t, t ∈ short_cells → has_char "$" t = true → len t ≤ 6).
  { intros t Ht _. unfold short_cells in Ht.
    repeat (apply elem_of_cons in Ht as [-> | Ht]; [vm_compute; lia|]).
    by apply elem_of_nil in Ht. }
  split; [exact H1|]. split; [exact H2|]. split; [exact H3|].
  exact (short_dollars_volume_without_cap (one_row short_cells) row0 Static.start
           short_cells H1 H2 H3).
Defined.

(** C6, as the code has it, at the row [mixed_cells]. *)
Lemma change_first_percent_match_witness :
  (read_tds (one_row mixed_cells) row0 Static.start).1 = Ok mixed_cells
  ∧ ∃ d b', extract_from_row (one_row mixed_cells) row0 Static.start = (Ok d, b')
      ∧ (∀ l1 t l2, mixed_cells = l1 ++ t :: l2 → change_candidate t →
           (∀ u, u ∈ l1 → ¬ change_candidate u) → d !! "change_24h" = Some t).
Proof.
  assert (H : (read_tds (one_row mixed_cells) row0 Static.start).1 = Ok mixed_cells)
    by (vm_compute; reflexivity).
  split; [exact H|].
  destruct (change_first_percent_match (one_row mixed_cells) row0 Static.start mixed_cells H)
    as (d & b' & He & _ & Hc).
  exists d, b'. split; [exact He|exact Hc].
Defined.

(** C6 with its exclusion of currency markers fails at [mixed_cells]: of the
    two cell texts with a percentage the first has a dollar sign, and it is
    the 24h change. *)
Lemma change_with_dollar_selected :
  (λ d, d !! "change_24h") <$> Static.extract_cells mixed_cells
    = Ok (Some "$61,234.00 (1.2%)")
  ∧ has_char "$" "$61,234.00 (1.2%)" = true
  ∧ has_char "$" "-0.52%" = false
  ∧ is_change "-0.52%" = true.
Proof. vm_compute. repeat split. Qed.

(** C2 at the table [empty_then_one] with the target 20. *)
Lemma collection_terminates_within_bounds_witness :
  (0 ≤ 20)%Z
  ∧ MAX_PAGE_NAVIGATIONS < 6
  ∧ (∃ results navigations b',
      collection_loop (Static.static_browser empty_then_one) 6 20 [] 0 Static.start
        = (Ok (Some (results, navigations)), b')
      ∧ (Z.of_nat (length results) ≤ 20)%Z
      ∧ navigations ≤ MAX_PAGE_NAVIGATIONS
      ∧ clicks (trace b') ≤ clicks (trace Static.start) + MAX_PAGE_NAVIGATIONS)
  ∧ returns_cut (Static.static_browser empty_then_one) 6 20 Static.start
      (BState 0 [Launch; Goto START_URL; WaitForSelector "tbody tr"]).
Proof.
  assert (H1 : (0 ≤ 20)%Z) by lia.
  assert (H2 : MAX_PAGE_NAVIGATIONS < 6) by (unfold MAX_PAGE_NAVIGATIONS; lia).
  split; [exact H1|]. split; [exact H2|].
  destruct (collection_terminates_within_bounds
              (Static.static_browser empty_then_one) 20 6 Static.start H1 H2)
    as (Hloop & _ & _ & _ & _ & Hcut).
  split; [exact Hloop|].
  destruct (Hcut (BState 0 [Launch]) eq_refl) as (Hloaded & _).
  exact (Hloaded (BState 0 [Launch; Goto START_URL])
           (BState 0 [Launch; Goto START_URL; WaitForSelector "tbody tr"])
           eq_refl eq_refl).
Defined.

(** C3, as the code has it, at the first page of [empty_then_one]: the page
    shows no row and has a Next control, the loop clicks and goes on. *)
Lemma empty_page_goes_on_to_pagination_witness :
  (Z.of_nat (length (@nil dict)) < 20)%Z
  ∧ 0 < MAX_PAGE_NAVIGATIONS
  ∧ catch (count (Static.static_browser empty_then_one) rows_locator) (λ _, mret 0)
      Static.start = (Ok 0, BState 0 [Count rows_locator])
  ∧ (∃ c b2, paginate (Static.static_browser empty_then_one)
               (BState 0 [Count rows_locator]) = (Ok c, b2))
  ∧ collection_loop (Static.static_browser empty_then_one) 6 20 [] 0 Static.start
    = collection_loop (Static.static_browser empty_then_one) 5 20 [] 1
        (BState 1 (Count rows_locator :: next_page_calls)).
Proof.
  assert (H1 : (Z.of_nat (length (@nil dict)) < 20)%Z) by (simpl; lia).
  assert (H2 : 0 < MAX_PAGE_NAVIGATIONS) by (unfold MAX_PAGE_NAVIGATIONS; lia).
  assert (H3 : catch (count (Static.static_browser empty_then_one) rows_locator)
                 (λ _, mret 0) Static.start = (Ok 0, BState 0 [Count rows_locator]))
    by reflexivity.
  split; [exact H1|]. split; [exact H2|]. split; [exact H3|].
  destruct (empty_page_goes_on_to_pagination
              (Static.static_browser empty_then_one) 20 5 [] 0 Static.start
              (BState 0 [Count rows_locator]) H1 H2 H3)
    as (Hp & _ & _ & _ & _ & _ & _ & _ & Hnext).
  split; [exact Hp|].
  destruct (Hnext 0 (BState 0 [Count rows_locator; Count next_btn]) eq_refl)
    as (_ & _ & Hen).
  destruct (Hen (BState 0 [Count rows_locator; Count next_btn; IsEnabled next_btn]) eq_refl)
    as (_ & Hcl).
  destruct (Hcl (BState 1 [Count rows_locator; Count next_btn; IsEnabled next_btn;
                           Click (First next_btn)]) eq_refl) as (_ & Hw).
  destruct (Hw (BState 1 (Count rows_locator :: next_page_calls)) eq_refl)
    as (_ & _ & Hgo).
  exact Hgo.
Defined.

(** C3 with its end at the first empty page fails at [empty_then_one]: the
    first page shows no row, and the loop clicks on Next and returns the
    record of the second page. *)
Lemma empty_first_page_is_not_the_end :
  catch (count (Static.static_browser empty_then_one) rows_locator) (λ _, mret 0)
    Static.start = (Ok 0, BState 0 [Count rows_locator])
  ∧ fmap (M := option) (λ r : list dict * nat, (Static.fields <$> r.1, r.2))
      <$> (collection_loop (Static.static_browser empty_then_one) 6 20 [] 0 Static.start).1
    = Ok (Some ([["1"; "Bitcoin"; "BTC"; "$5"; ""; ""; ""; ""]], 2))
  ∧ clicks (trace (collection_loop (Static.static_browser empty_then_one) 6 20 [] 0
                     Static.start).2) = 1.
Proof. vm_compute. repeat split. Qed.

(** C4 at the table [with_repeats]. *)
Lemma dedup_invariant_witness :
  MAX_PAGE_NAVIGATIONS < 6
  ∧ ∃ results navigations b',
      collection_loop (Static.static_browser with_repeats) 6 20 [] 0 Static.start
        = (Ok (Some (results, navigations)), b')
      ∧ Forall keys_ok results
      ∧ no_shared "rank" results ∧ no_shared "name" results
      ∧ no_shared "rank" (slice_to results 20)
      ∧ no_shared "name" (slice_to results 20).
Proof.
  assert (H : MAX_PAGE_NAVIGATIONS < 6) by (unfold MAX_PAGE_NAVIGATIONS; lia).
  split; [exact H|].
  exact (proj2 (proj2 (proj2 (dedup_invariant (Static.static_browser with_repeats)
                                20 6 Static.start H)))).
Defined.

(** C5 at the table [with_repeats]. *)
Lemma acceptance_gate_witness :
  MAX_PAGE_NAVIGATIONS < 6
  ∧ ∃ results navigations b',
      collection_loop (Static.static_browser with_repeats) 6 20 [] 0 Static.start
        = (Ok (Some (results, navigations)), b')
      ∧ Forall usable results
      ∧ Forall usable (slice_to results 20).
Proof.
  assert (H : MAX_PAGE_NAVIGATIONS < 6) by (unfold MAX_PAGE_NAVIGATIONS; lia).
  split; [exact H|].
  exact (proj2 (proj2 (proj2 (acceptance_gate (Static.static_browser with_repeats)
                                20 6 Static.start H)))).
Defined.

(** * Further properties *)

(** ** [clean_text] *)

Lemma app_cons a s1 s2 : String a s1 +:+ s2 = String a (s1 +:+ s2).
Proof. reflexivity. Qed.

Lemma app_nil s : "" +:+ s = s.
Proof. reflexivity. Qed.

Lemma space_is_space : is_space " " = true.
Proof. reflexivity. Qed.

Lemma lstrip_len s : len (lstrip s) ≤ len s.
Proof.
  induction s as [|c s IH]; simpl; [lia|]. destruct (is_space c); simpl; lia.
Qed.

Lemma rstrip_len s : len (rstrip s) ≤ len s.
Proof.
  induction s as [|c s IH]; simpl; [lia|].
  destruct (rstrip s); [destruct (is_space c)|]; simpl in *; lia.
Qed.

Lemma sub_spaces_len b s : len (sub_spaces b s) ≤ len s.
Proof.
  revert b; induction s as [|c s IH]; intros b; simpl; [lia|].
  pose proof (IH true). pose proof (IH false).
  destruct (is_space c); [destruct b|]; simpl; lia.
Qed.

Lemma single_spaced_inside b s1 c s2 :
  single_spaced b (s1 +:+ String c s2) → is_space c = true →
  c = " "%char ∧ match s2 with
                 | String c' _ => is_space c' = false
                 | EmptyString => True
                 end.
Proof.
  revert b; induction s1 as [|a s1 IH]; intros b.
  - rewrite app_nil. simpl. intros Hs Hc. rewrite Hc in Hs.
    destruct Hs as (-> & _ & Hs). split; [done|].
    destruct s2 as [|c' s3]; [done|]. simpl in Hs.
    destruct (is_space c'); [|done]. by destruct Hs as (_ & ? & _).
  - rewrite app_cons. simpl. intros Hs Hc.
    destruct (is_space a); [destruct Hs as (_ & _ & Hs)|]; by eapply IH.
Qed.

Lemma lstrip_fixed_head c s : lstrip (String c s) = String c s → is_space c = false.
Proof.
  simpl. destruct (is_space c); [|done]. intros Hs.
  pose proof (lstrip_len s) as Hl. rewrite Hs in Hl. simpl in Hl. lia.
Qed.

Lemma rstrip_snoc_space s c : is_space c = true → rstrip (s +:+ String c "") = rstrip s.
Proof.
  intros Hc. induction s as [|a s IH].
  - rewrite app_nil. simpl. by rewrite Hc.
  - rewrite app_cons. simpl. by rewrite IH.
Qed.

Lemma app_len s1 s2 : len (s1 +:+ s2) = len s1 + len s2.
Proof. induction s1 as [|a s1 IH]; [done|]. rewrite app_cons. simpl. by rewrite IH. Qed.

Lemma rstrip_fixed_last s c :
  rstrip (s +:+ String c "") = s +:+ String c "" → is_space c = false.
Proof.
  destruct (is_space c) eqn:Hc; [|done]. rewrite (rstrip_snoc_space _ _ Hc). intros Hs.
  pose proof (rstrip_len s) as Hl. rewrite Hs, app_len in Hl. simpl in Hl. lia.
Qed.

Lemma visible_sub_spaces b s : visible (sub_spaces b s) = visible s.
Proof.
  revert b; induction s as [|c s IH]; intros b; simpl; [done|].
  destruct (is_space c) eqn:Hc.
  - destruct b; [apply IH|]. simpl. apply IH.
  - simpl. by rewrite Hc, IH.
Qed.

Lemma visible_lstrip s : visible (lstrip s) = visible s.
Proof.
  induction s as [|c s IH]; simpl; [done|].
  destruct (is_space c) eqn:Hc; [done|]. simpl. by rewrite Hc.
Qed.

Lemma visible_rstrip s : visible (rstrip s) = visible s.
Proof.
  induction s as [|c s IH]; simpl; [done|].
  destruct (rstrip s) as [|a r] eqn:Hr.
  - simpl in IH. destruct (is_space c) eqn:Hc; simpl; [done|]. by rewrite Hc, <- IH.
  - rewrite <- IH. simpl. by destruct (is_space c).
Qed.

Lemma visible_clean_text s : visible (clean_text (Some s)) = visible s.
Proof.
  unfold clean_text, strip.
  by rewrite visible_rstrip, visible_lstrip, visible_sub_spaces.
Qed.

(** X1.  [clean_text] is idempotent and turns [None] into the empty text; in
    its result every whitespace character is a space that stands after some
    character and right before a character that is not whitespace. *)
Theorem clean_text_idempotent o :
  clean_text (Some (clean_text o)) = clean_text o
  ∧ clean_text None = ""
  ∧ (∀ s1 c s2, clean_text o = s1 +:+ String c s2 → is_space c = true →
       c = " "%char ∧ s1 ≠ ""
       ∧ ∃ c' s3, s2 = String c' s3 ∧ is_space c' = false).
Proof.
  split; [apply clean_text_normalized|]. split; [done|].
  intros s1 c s2 Heq Hc.
  destruct (normalized_single_spaced _ (clean_text_normalized o)) as (Hss & Hl & Hr).
  rewrite Heq in Hss, Hl, Hr.
  destruct (single_spaced_inside _ _ _ _ Hss Hc) as [-> Hnext].
  split; [done|]. split.
  - intros ->. rewrite app_nil in Hl. apply lstrip_fixed_head in Hl. congruence.
  - destruct s2 as [|c' s3]; [|by exists c', s3].
    apply rstrip_fixed_last in Hr. congruence.
Qed.

(** X2.  [clean_text] keeps the characters that are not whitespace, in their
    order; its result is not longer than the text, and it is empty exactly
    when the text has no other characters than whitespace. *)
Theorem clean_text_keeps_visible s :
  visible (clean_text (Some s)) = visible s
  ∧ len (clean_text (Some s)) ≤ len s
  ∧ (clean_text (Some s) = "" ↔ visible s = "").
Proof.
  split; [apply visible_clean_text|]. split.
  - unfold clean_text, strip.
    pose proof (rstrip_len (lstrip (sub_spaces false s))).
    pose proof (lstrip_len (sub_spaces false s)).
    pose proof (sub_spaces_len false s). lia.
  - rewrite <- visible_clean_text. split; [by intros ->|].
    destruct (normalized_single_spaced _ (clean_text_normalized (Some s))) as (_ & Hl & _).
    destruct (clean_text (Some s)) as [|c u]; [done|].
    apply lstrip_fixed_head in Hl. simpl. by rewrite Hl.
Qed.

(** ** The match of a quantified class *)

(** What [rep] hands to its continuation: the position after a run of
    characters of the class, of a length that the bounds allow. *)
Lemma rep_sound p g k lo hi pos prev groups rest m :
  rep p g k lo hi pos prev groups rest = Some m →
  ∃ pre rest' prev',
    rest = pre +:+ rest' ∧ all_chars p pre = true ∧ lo ≤ len pre
    ∧ (∀ h, hi = Some h → len pre ≤ h)
    ∧ k (MState (len pre + pos) prev' rest' groups) = Some m.
Proof.
  revert lo hi pos prev.
  assert (Hstop : ∀ lo hi pos prev rest,
    match lo with 0 => k (MState pos prev rest groups) | S _ => None end = Some m →
    ∃ pre rest' prev',
      rest = pre +:+ rest' ∧ all_chars p pre = true ∧ lo ≤ len pre
      ∧ (∀ h, hi = Some h → len pre ≤ h)
      ∧ k (MState (len pre + pos) prev' rest' groups) = Some m).
  { intros [|lo] hi pos prev rest0 Hk; [|done].
    exists "", rest0, prev. split_and!; [done|done|done|simpl; lia|done]. }
  assert (Hmore : ∀ c rest' lo hi pos,
    p c && hi_allows hi = true →
    (∃ pre rest'' prev',
       rest' = pre +:+ rest'' ∧ all_chars p pre = true ∧ pred lo ≤ len pre
       ∧ (∀ h, pred <$> hi = Some h → len pre ≤ h)
       ∧ k (MState (len pre + S pos) prev' rest'' groups) = Some m) →
    ∃ pre rest'' prev',
      String c rest' = pre +:+ rest'' ∧ all_chars p pre = true ∧ lo ≤ len pre
      ∧ (∀ h, hi = Some h → len pre ≤ h)
      ∧ k (MState (len pre + pos) prev' rest'' groups) = Some m).
  { intros c rest' lo hi pos [Hc Hhi]%andb_true_iff (pre & rest'' & prev' & -> & Hp & Hlo & Hh & Hk).
    exists (String c pre), rest'', prev'. split_and!.
    - done.
    - simpl. by rewrite Hc, Hp.
    - simpl. lia.
    - intros h ->. destruct h as [|h]; [done|]. specialize (Hh h eq_refl). simpl. lia.
    - simpl. by rewrite Nat.add_succ_r in Hk. }
  induction rest as [|c rest IH]; intros lo hi pos prev; simpl.
  - apply Hstop.
  - destruct (p c && hi_allows hi) eqn:Hc; [|apply Hstop].
    destruct g.
    + destruct (rep p true k (pred lo) (pred <$> hi) (S pos) (Some c) groups rest) as [m'|] eqn:Hr.
      * intros [= ->]. apply Hmore; [done|]. by eapply IH.
      * apply Hstop.
    + destruct lo as [|lo].
      * destruct (k (MState pos prev (String c rest) groups)) as [m'|] eqn:Hk.
        -- intros [= ->]. by apply (Hstop 0 hi pos prev (String c rest)).
        -- intros Hr. apply Hmore; [done|]. by eapply IH.
      * intros Hr. apply Hmore; [done|]. by eapply IH.
Qed.

Lemma substring_middle a b c : String.substring (len a) (len b) (a +:+ b +:+ c) = b.
Proof.
  induction a as [|x a IH]; [|by rewrite app_cons].
  rewrite app_nil. simpl. induction b as [|y b IHb].
  - by destruct c.
  - rewrite app_cons. simpl. by rewrite IHb.
Qed.

(** The group of a match of [rank_re]: one to four digits. *)
Lemma rank_re_group t m :
  re_match rank_re t = Some m →
  1 ≤ len (group m 1) ∧ len (group m 1) ≤ 4 ∧ all_chars is_digit (group m 1) = true.
Proof.
  unfold re_match, match_at. intros Hm.
  apply fmap_Some in Hm as (ms & Hms & ->).
  unfold rank_re, star in Hms. simpl in Hms.
  apply rep_sound in Hms as (sp & r1 & p1 & -> & _ & _ & _ & Hms). simpl in Hms.
  apply rep_sound in Hms as (ds & r2 & p2 & -> & Hd & Hlo & Hhi & Hms). simpl in Hms.
  destruct (xorb _ _); [|done]. injection Hms as <-.
  unfold group. simpl.
  replace (len ds + (len sp + 0) - (len sp + 0)) with (len ds) by lia.
  rewrite Nat.add_0_r, substring_middle.
  split_and!; [done|by apply Hhi|done].
Qed.

(** ** The record, step by step *)

Section Stages.

Context {W : Type} (B : browser W).

(** The three parts of [extract_from_row] that call the page, each with the
    state it starts from, and the record they lead to. *)
Lemma extract_from_row_stages row b :
  ∃ tds b1 d1 b2 d2 b3,
    read_tds B row b = (Ok tds, b1)
    ∧ Forall normalized tds
    ∧ hints B row (rank_step tds data0, b1) = (Ok tt, (d1, b2))
    ∧ touches ["name"; "symbol"] (rank_step tds data0) d1
    ∧ price_fallback B row (price_step tds (fallback_step tds d1), b2) = (Ok tt, (d2, b3))
    ∧ touches ["price"] (price_step tds (fallback_step tds d1)) d2
    ∧ keys_ok (rank_step tds data0) ∧ keys_ok d1 ∧ keys_ok (fallback_step tds d1)
    ∧ keys_ok (price_step tds (fallback_step tds d1)) ∧ keys_ok d2
    ∧ extract_from_row B row b = (Ok (cleanup (late_steps tds d2)), b3).
Proof.
  destruct (read_tds_spec B row b) as (tds & b1 & Hr & Hn & _).
  pose proof (touches_keys_ok _ _ _ (rank_step_touches tds _ keys_ok_data0) keys_ok_data0) as Hk0.
  destruct (hints_spec B row (rank_step tds data0) b1 Hk0) as (d1 & b2 & Hh & Ht1 & _).
  pose proof (touches_keys_ok _ _ _ Ht1 Hk0) as Hk1.
  pose proof (touches_keys_ok _ _ _ (fallback_step_touches tds _ Hk1) Hk1) as Hk2.
  pose proof (touches_keys_ok _ _ _ (price_step_touches tds _ Hk2) Hk2) as Hk3.
  destruct (price_fallback_spec B row _ b2 Hk3) as (d2 & b3 & Hp & Ht2 & _).
  exists tds, b1, d1, b2, d2, b3. split_and!; try done.
  - by eapply touches_keys_ok.
  - unfold extract_from_row, with_locals, extract_body.
    unfold catch, mbind, M_bind, mret, M_ret, lift, modify. simpl.
    rewrite Hr. simpl. rewrite Hh. simpl. rewrite Hp. done.
Qed.

(** A field that the last steps do not write is the cleaned field of the
    dict that the price step leaves. *)
Lemma final_early_field tds d k :
  keys_ok d → k ∉ late_keys →
  cleanup (late_steps tds d) !! k = (λ v, clean_text (Some v)) <$> d !! k.
Proof.
  intros Hd Hk. rewrite cleanup_lookup.
  by rewrite (proj2 (late_steps_touches tds d Hd) k Hk).
Qed.

End Stages.

Lemma rank_loop_filter ts d :
  rank_loop ts d
  = match List.filter has_rank ts with
    | t :: _ => <["rank" := rank_of t]> d
    | [] => d
    end.
Proof.
  induction ts as [|t ts IH]; simpl; [done|].
  unfold has_rank at 1. unfold rank_of.
  destruct (re_match rank_re t) as [m|] eqn:Hm; simpl; [|done].
  by rewrite Hm.
Qed.

Lemma rank_step_filter tds d :
  rank_step tds d
  = match List.filter has_rank (take 3 tds) with
    | t :: _ => <["rank" := rank_of t]> d
    | [] => d
    end.
Proof. destruct tds; [done|]. apply rank_loop_filter. Qed.

Lemma price_loop_filter ts d :
  price_loop ts d
  = match List.filter is_price ts with
    | t :: _ => <["price" := t]> d
    | [] => d
    end.
Proof.
  induction ts as [|t ts IH]; simpl; [done|]. unfold is_price at 1.
  by destruct (is_money t && (len t <? 20)).
Qed.

Lemma price_step_filter tds d :
  price_step tds d
  = match List.filter is_price tds with
    | t :: _ => <["price" := t]> d
    | [] => d
    end.
Proof. destruct tds; [done|]. apply price_loop_filter. Qed.

Lemma supply_loop_filter ts : supply_loop ts = item (List.filter is_supply ts) 0.
Proof.
  induction ts as [|t ts IH]; simpl; [done|]. by destruct (is_supply t).
Qed.

Lemma is_price_true t : is_price t = true ↔ price_candidate t.
Proof.
  unfold is_price, price_candidate, is_money. by rewrite andb_true_iff, Nat.ltb_lt.
Qed.

Lemma is_supply_true t : is_supply t = true ↔ supply_candidate t.
Proof.
  unfold is_supply, supply_candidate, searches, is_money.
  rewrite !andb_true_iff, !negb_true_iff, bool_decide_eq_true.
  split.
  - intros [[[Hn ?] ?] ?]. split_and!; try done. by intros ->.
  - intros (Hn & ? & ? & ?). split_and!; try done. by destruct t.
Qed.

(** The first element of a filtered list, given where it stands. *)
Lemma filter_first (P : string → bool) l1 t l2 :
  P t = true → (∀ u, u ∈ l1 → P u = false) →
  List.filter P (l1 ++ t :: l2) = t :: List.filter P l2.
Proof.
  intros Ht Hl1. rewrite List.filter_app. simpl. rewrite Ht.
  replace (List.filter P l1) with (@nil string); [done|].
  symmetry. induction l1 as [|a l1 IH]; simpl; [done|].
  rewrite (Hl1 a) by (apply elem_of_cons; by left).
  apply IH. intros u Hu. apply Hl1. apply elem_of_cons. by right.
Qed.

Lemma filter_head_elem (P : string → bool) l t ts :
  List.filter P l = t :: ts → t ∈ l ∧ P t = true.
Proof.
  intros Hf. apply filter_elem. rewrite Hf. apply elem_of_cons. by left.
Qed.

Lemma no_space_clean (p : ascii → bool) s :
  (∀ c, p c = true → is_space c = false) → all_chars p s = true →
  clean_text (Some s) = s.
Proof.
  intros Hp Hs. unfold clean_text, strip.
  assert (Hns : all_chars (λ c, negb (is_space c)) s = true).
  { induction s as [|c s IH]; simpl in *; [done|].
    apply andb_true_iff in Hs as [Hc Hs]. by rewrite (Hp c Hc), IH. }
  clear Hs Hp.
  assert (H1 : ∀ b, sub_spaces b s = s).
  { induction s as [|c s IH]; intros b; simpl in *; [done|].
    apply andb_true_iff in Hns as [Hc Hs]. apply negb_true_iff in Hc.
    by rewrite Hc, IH. }
  rewrite H1.
  assert (H2 : lstrip s = s).
  { destruct s as [|c s]; simpl in *; [done|].
    apply andb_true_iff in Hns as [Hc Hs]. apply negb_true_iff in Hc. by rewrite Hc. }
  rewrite H2. clear H1 H2.
  induction s as [|c s IH]; simpl in *; [done|].
  apply andb_true_iff in Hns as [Hc Hs]. apply negb_true_iff in Hc.
  rewrite (IH Hs). destruct s; [by rewrite Hc|done].
Qed.

Lemma digit_not_space c : is_digit c = true → is_space c = false.
Proof. by destruct c as [[] [] [] [] [] [] [] []]. Qed.

Lemma item_elem l i : item l i = "" ∨ item l i ∈ l.
Proof.
  unfold item. destruct (l !! i) as [v|] eqn:Hv; simpl; [|by left].
  right. by eapply list_elem_of_lookup_2.
Qed.

Lemma rank_of_digits t :
  has_rank t = true →
  1 ≤ len (rank_of t) ∧ len (rank_of t) ≤ 4 ∧ all_chars is_digit (rank_of t) = true.
Proof.
  unfold has_rank, rank_of. intros [m Hm]%bool_decide_eq_true.
  rewrite Hm. simpl. by apply (rank_re_group t).
Qed.

Section EarlyFields.

Context {W : Type} (B : browser W).

(** Rank and circulating supply of the record, computed from the cells, and
    its price when a cell gives one. *)
Lemma extract_early_fields row b tds :
  (read_tds B row b).1 = Ok tds →
  ∃ d b', extract_from_row B row b = (Ok d, b')
    ∧ Forall normalized tds
    ∧ d !! "rank" = Some (item (rank_of <$> List.filter has_rank (take 3 tds)) 0)
    ∧ d !! "circulating_supply" = Some (item (List.filter is_supply tds) 0)
    ∧ (∀ t ts, List.filter is_price tds = t :: ts → d !! "price" = Some t).
Proof.
  intros Htds.
  destruct (extract_from_row_stages B row b)
    as (tds' & b1 & d1 & b2 & d2 & b3 & Hr & Hn & Hh & Ht1 & Hp & Ht2
        & Hk0 & Hk1 & Hk2 & Hk3 & Hk4 & He).
  rewrite Hr in Htds. injection Htds as ->.
  exists (cleanup (late_steps tds d2)), b3. split; [done|]. split; [done|]. split_and!.
  - rewrite (final_early_field tds d2 "rank" Hk4) by compute_done.
    rewrite (proj2 Ht2), (proj2 (price_step_touches tds _ Hk2)),
      (proj2 (fallback_step_touches tds _ Hk1)), (proj2 Ht1) by compute_done.
    rewrite rank_step_filter.
    destruct (List.filter has_rank (take 3 tds)) as [|t ts] eqn:Hf; [done|].
    rewrite lookup_insert_eq. simpl. f_equal.
    apply filter_head_elem in Hf as [_ Ht].
    destruct (rank_of_digits t Ht) as (_ & _ & Hd).
    by apply (no_space_clean is_digit); [apply digit_not_space|].
  - rewrite cleanup_lookup, (late_supply tds d2), supply_loop_filter. simpl. f_equal.
    destruct (item_elem (List.filter is_supply tds) 0) as [->|Hin]; [done|].
    apply (normalized_elem tds); [done|]. by apply filter_elem in Hin as [? _].
  - intros t ts Hf.
    rewrite (final_early_field tds d2 "price" Hk4) by compute_done.
    pose proof (filter_head_elem _ _ _ _ Hf) as [Hin Ht].
    revert Hp. rewrite price_step_filter, Hf.
    unfold price_fallback, mbind, M_bind, get_local. simpl.
    unfold getitem. rewrite lookup_total_insert_eq.
    assert (Hne : nonempty t = true).
    { apply is_price_true in Ht as [Hm _]. by destruct t. }
    rewrite Hne. simpl. unfold mret, M_ret. intros [= <- _].
    rewrite lookup_insert_eq. simpl. f_equal. by apply (normalized_elem tds).
Qed.

(** X3.  The rank of a record is empty or has one to four characters, all of
    them decimal digits. *)
Theorem rank_is_short_number row b :
  ∃ d b' r, extract_from_row B row b = (Ok d, b')
    ∧ d !! "rank" = Some r
    ∧ len r ≤ 4
    ∧ all_chars is_digit r = true.
Proof.
  destruct (read_tds_spec B row b) as (tds & b1 & Hr & _).
  destruct (extract_early_fields row b tds) as (d & b' & He & _ & Hrank & _);
    [by rewrite Hr|].
  exists d, b', (item (rank_of <$> List.filter has_rank (take 3 tds)) 0).
  split; [done|]. split; [done|].
  destruct (List.filter has_rank (take 3 tds)) as [|t ts] eqn:Hf; [simpl; split; [lia|done]|].
  apply filter_head_elem in Hf as [_ Ht].
  destruct (rank_of_digits t Ht) as (_ & ? & ?). done.
Qed.

(** X4.  The rank is read from the first of the first three cell texts that
    starts, after optional whitespace, with one to four digits that no word
    character follows; it is empty when none of the three does, whatever the
    later cells are. *)
Theorem rank_from_first_three_cells row b tds :
  (read_tds B row b).1 = Ok tds →
  ∃ d b', extract_from_row B row b = (Ok d, b')
    ∧ ((∀ t, t ∈ take 3 tds → re_match rank_re t = None) → d !! "rank" = Some "")
    ∧ (∀ l1 t l2 m, take 3 tds = l1 ++ t :: l2 →
         (∀ u, u ∈ l1 → re_match rank_re u = None) →
         re_match rank_re t = Some m →
         d !! "rank" = Some (group m 1)).
Proof.
  intros Htds.
  destruct (extract_early_fields row b tds Htds) as (d & b' & He & _ & Hrank & _).
  exists d, b'. split; [done|]. rewrite Hrank.
  assert (Hnone : ∀ u, re_match rank_re u = None → has_rank u = false).
  { intros u Hu. unfold has_rank. rewrite Hu. apply bool_decide_eq_false_2. by intros [? ?]. }
  split.
  - intros Hno. destruct (List.filter has_rank (take 3 tds)) as [|t ts] eqn:Hf; [done|].
    apply filter_head_elem in Hf as [Hin Ht]. by rewrite (Hnone t (Hno t Hin)) in Ht.
  - intros l1 t l2 m -> Hbefore Hm. rewrite filter_first.
    + simpl. unfold item. simpl. unfold rank_of. by rewrite Hm.
    + unfold has_rank. rewrite Hm. apply bool_decide_eq_true_2. eauto.
    + intros u Hu. apply Hnone. by apply Hbefore.
Qed.

(** X5.  The price is the first cell text with a dollar sign and fewer than
    twenty characters, whatever the page answers for the price selector. *)
Theorem price_first_short_dollar_cell row b tds l1 t l2 :
  (read_tds B row b).1 = Ok tds →
  tds = l1 ++ t :: l2 →
  price_candidate t →
  (∀ u, u ∈ l1 → ¬ price_candidate u) →
  ∃ d b', extract_from_row B row b = (Ok d, b') ∧ d !! "price" = Some t.
Proof.
  intros Htds -> Ht Hbefore.
  destruct (extract_early_fields row b _ Htds) as (d & b' & He & _ & _ & _ & Hprice).
  exists d, b'. split; [done|]. eapply Hprice. apply filter_first.
  - by apply is_price_true.
  - intros u Hu. destruct (is_price u) eqn:E; [|done].
    destruct (Hbefore u Hu). by apply is_price_true.
Qed.

(** X7.  The circulating supply is the first cell text that is not empty,
    has a match of the supply pattern, and has neither ["Market Cap"] nor a
    dollar sign in it; it is empty when there is no such cell text. *)
Theorem supply_first_matching_cell row b tds :
  (read_tds B row b).1 = Ok tds →
  ∃ d b', extract_from_row B row b = (Ok d, b')
    ∧ ((∀ t, t ∈ tds → ¬ supply_candidate t) → d !! "circulating_supply" = Some "")
    ∧ (∀ l1 t l2, tds = l1 ++ t :: l2 → supply_candidate t →
         (∀ u, u ∈ l1 → ¬ supply_candidate u) →
         d !! "circulating_supply" = Some t).
Proof.
  intros Htds.
  destruct (extract_early_fields row b tds Htds) as (d & b' & He & _ & _ & Hs & _).
  exists d, b'. split; [done|]. rewrite Hs. split.
  - intros Hno. destruct (List.filter is_supply tds) as [|t ts] eqn:Hf; [done|].
    apply filter_head_elem in Hf as [Hin Ht]. destruct (Hno t Hin). by apply is_supply_true.
  - intros l1 t l2 -> Ht Hbefore. rewrite filter_first; [done|by apply is_supply_true|].
    intros u Hu. destruct (is_supply u) eqn:E; [|done].
    destruct (Hbefore u Hu). by apply is_supply_true.
Qed.

(** X8.  The 24h change, the market cap, the 24h volume and the circulating
    supply of a record are each empty or one of the cell texts, unchanged. *)
Theorem cell_fields_are_cells row b tds :
  (read_tds B row b).1 = Ok tds →
  ∃ d b', extract_from_row B row b = (Ok d, b')
    ∧ ∀ k v, k ∈ late_keys → d !! k = Some v → v = "" ∨ v ∈ tds.
Proof.
  intros Htds.
  destruct (extract_cell_fields B row b tds Htds) as (d & b' & He & _ & Hch & Hcap & Hvol).
  destruct (extract_early_fields row b tds Htds) as (d' & b'' & He' & _ & _ & Hs & _).
  rewrite He in He'. injection He' as <- <-.
  exists d, b'. split; [done|]. intros k v Hk.
  assert (Hsub : ∀ (P : string → bool) l i, l ⊆ List.filter P tds →
            item l i = "" ∨ item l i ∈ tds).
  { intros P l i Hl. destruct (item_elem l i) as [?|Hin]; [by left|]. right.
    apply Hl in Hin. by apply filter_elem in Hin as [? _]. }
  unfold late_keys in Hk.
  repeat (apply elem_of_cons in Hk as [-> | Hk]).
  - rewrite Hch. intros [= <-]. by apply (Hsub is_change).
  - rewrite Hcap. intros [= <-]. apply (Hsub is_cap_candidate).
    intros x Hx. by rewrite <- (sort_len_desc_perm _).
  - rewrite Hvol. intros [= <-]. apply (Hsub is_money).
    intros x Hx. by rewrite <- (sort_len_desc_perm _).
  - rewrite Hs. intros [= <-]. by apply (Hsub is_supply).
  - by apply elem_of_nil in Hk.
Qed.

End EarlyFields.

Lemma filter_singleton (P : string → bool) tds t :
  List.filter P tds = [t] →
  ∃ l1 l2, tds = l1 ++ t :: l2 ∧ P t = true
    ∧ (∀ u, u ∈ l1 → P u = false) ∧ (∀ u, u ∈ l2 → P u = false).
Proof.
  intros Hf. apply (filter_split P tds [] t []) in Hf as (l1 & l2 & -> & H1 & H2 & Ht).
  exists l1, l2. split_and!; [done|done| |].
  - intros u Hu. pose proof (filter_nil_Forall P l1 H1) as Hall.
    rewrite Forall_forall in Hall. by apply Hall.
  - intros u Hu. pose proof (filter_nil_Forall P l2 H2) as Hall.
    rewrite Forall_forall in Hall. by apply Hall.
Qed.

Lemma filter_weaker (P Q : string → bool) l1 t l2 :
  (∀ u, Q u = true → P u = true) → Q t = true →
  (∀ u, u ∈ l1 → P u = false) → (∀ u, u ∈ l2 → P u = false) →
  List.filter Q (l1 ++ t :: l2) = [t].
Proof.
  intros HQP Ht H1 H2.
  assert (Hnone : ∀ l, (∀ u, u ∈ l → P u = false) → List.filter Q l = []).
  { intros l Hl. induction l as [|a l IH]; simpl; [done|].
    destruct (Q a) eqn:Ha.
    - apply HQP in Ha. rewrite (Hl a) in Ha; [done|]. apply elem_of_cons. by left.
    - apply IH. intros u Hu. apply Hl. apply elem_of_cons. by right. }
  rewrite List.filter_app. simpl. by rewrite Ht, (Hnone l1 H1), (Hnone l2 H2).
Qed.

Section DollarCells.

Context {W : Type} (B : browser W).

(** X9.  A market cap that is not empty is at least as long as every cell
    text with a dollar sign, and so at least as long as the 24h volume. *)
Theorem market_cap_is_longest_dollar_cell row b tds :
  (read_tds B row b).1 = Ok tds →
  ∃ d b' cap vol, extract_from_row B row b = (Ok d, b')
    ∧ d !! "market_cap" = Some cap
    ∧ d !! "volume_24h" = Some vol
    ∧ (cap ≠ "" →
         (∀ t, t ∈ tds → has_char "$" t = true → len t ≤ len cap)
         ∧ len vol ≤ len cap).
Proof.
  intros Htds.
  destruct (extract_cell_fields B row b tds Htds) as (d & b' & He & _ & _ & Hcap & Hvol).
  exists d, b', (item (sort_len_desc (List.filter is_cap_candidate tds)) 0),
    (item (sort_len_desc (List.filter is_money tds)) 1).
  split; [done|]. split; [done|]. split; [done|].
  destruct (sort_len_desc (List.filter is_cap_candidate tds)) as [|m r] eqn:Hs; [done|].
  intros _. unfold item at 1 3. simpl.
  destruct (filter_first_longest _ _ _ _ Hs) as (l1 & l2 & -> & Hm & H1 & H2).
  apply is_cap_candidate_true in Hm as [_ Hm].
  assert (Hall : ∀ t, t ∈ l1 ++ m :: l2 → has_char "$" t = true → len t ≤ len m).
  { intros t Ht Hd. destruct (decide (6 < len t)) as [Hlong|]; [|lia].
    assert (Hc : is_cap_candidate t = true) by by apply is_cap_candidate_true.
    apply elem_of_app in Ht as [Ht|Ht]; [specialize (H1 t Ht Hc); lia|].
    apply elem_of_cons in Ht as [->|Ht]; [lia|]. by apply H2. }
  split; [done|].
  unfold item.
  destruct (sort_len_desc (List.filter is_money (l1 ++ m :: l2)) !! 1) as [v|] eqn:Hv;
    simpl; [|lia].
  apply sort_len_desc_elem in Hv. apply filter_elem in Hv as [Hin Hd]. by apply Hall.
Qed.

(** X10.  When one cell text alone has a dollar sign and it has seven to
    nineteen characters, it is both the price and the market cap of the
    record, and the 24h volume is empty. *)
Theorem lone_dollar_cell_is_price_and_market_cap row b tds t :
  (read_tds B row b).1 = Ok tds →
  List.filter (has_char "$") tds = [t] →
  6 < len t → len t < 20 →
  ∃ d b', extract_from_row B row b = (Ok d, b')
    ∧ d !! "price" = Some t
    ∧ d !! "market_cap" = Some t
    ∧ d !! "volume_24h" = Some "".
Proof.
  intros Htds Hone Hlo Hhi.
  destruct (extract_cell_fields B row b tds Htds) as (d & b' & He & _ & _ & Hcap & Hvol).
  destruct (extract_early_fields B row b tds Htds) as (d' & b'' & He' & _ & _ & _ & Hprice).
  rewrite He in He'. injection He' as <- <-.
  exists d, b'. split; [done|].
  pose proof Hone as Hone'.
  apply filter_singleton in Hone' as (l1 & l2 & -> & Ht & H1 & H2).
  split_and!.
  - apply (Hprice t []). apply (filter_weaker (has_char "$")); try done.
    + by intros u [? _]%andb_true_iff.
    + apply is_price_true. done.
  - rewrite Hcap, (filter_weaker (has_char "$") is_cap_candidate); try done.
    + by intros u [? _]%andb_true_iff.
    + by apply is_cap_candidate_true.
  - rewrite Hvol. change is_money with (has_char "$"). by rewrite Hone.
Qed.

End DollarCells.

Section Hints.

Context {W : Type} (B : browser W).



End Hints.

(** ** The calls that a computation makes *)

Section Emits.

Context {St : Type} (tr : St → list call).

Lemma emits_ret P {A} (a : A) : emits tr P (mret a).
Proof. intros s. exists []. by rewrite app_nil_r. Qed.

Lemma emits_bind P {A C} (m : M St A) (f : A → M St C) :
  emits tr P m → (∀ a, emits tr P (f a)) → emits tr P (m ≫= f).
Proof.
  intros Hm Hf s. unfold mbind, M_bind. destruct (Hm s) as (e1 & H1 & HP1).
  destruct (m s) as [[a|e] s']; simpl in *; [|by exists e1].
  destruct (Hf a s') as (e2 & H2 & HP2). exists (e1 ++ e2).
  rewrite H2, H1, app_assoc. split; [done|]. by apply Forall_app.
Qed.

Lemma emits_catch P {A} (m : M St A) (h : exn → M St A) :
  emits tr P m → (∀ e, emits tr P (h e)) → emits tr P (catch m h).
Proof.
  intros Hm Hh s. unfold catch. destruct (Hm s) as (e1 & H1 & HP1).
  destruct (m s) as [[a|e] s']; simpl in *; [by exists e1|].
  destruct (Hh e s') as (e2 & H2 & HP2). exists (e1 ++ e2).
  rewrite H2, H1, app_assoc. split; [done|]. by apply Forall_app.
Qed.

Lemma emits_weaken (P Q : call → Prop) {A} (m : M St A) :
  (∀ c, P c → Q c) → emits tr P m → emits tr Q m.
Proof.
  intros HPQ Hm s. destruct (Hm s) as (evs & H & HP). exists evs.
  split; [done|]. by eapply Forall_impl.
Qed.

End Emits.

Section EmitsLocals.

Context {L Bs : Type} (tr : Bs → list call).

Lemma emits_lift P {A} (m : M Bs A) :
  emits tr P m → emits (λ s : L * Bs, tr s.2) P (lift m).
Proof.
  intros Hm s. unfold lift. destruct (Hm s.2) as (evs & H & HP).
  destruct (m s.2); simpl in *. by exists evs.
Qed.

Lemma emits_modify P (f : L → L) : emits (λ s : L * Bs, tr s.2) P (modify f).
Proof. intros s. exists []. by rewrite app_nil_r. Qed.

Lemma emits_get_local P : emits (λ s : L * Bs, tr s.2) P (get_local (L := L)).
Proof. intros s. exists []. by rewrite app_nil_r. Qed.

Lemma emits_with_locals P {A} (init : L) (m : M (L * Bs) A) :
  emits (λ s : L * Bs, tr s.2) P m → emits tr P (with_locals init m).
Proof.
  intros Hm b. unfold with_locals. destruct (Hm (init, b)) as (evs & H & HP).
  destruct (m (init, b)) as [[a|e] [l b']]; simpl in *; by exists evs.
Qed.

End EmitsLocals.

Section Calls.

Context {W : Type} (B : browser W).

Lemma emits_invoke (P : call → Prop) {A} c (f : W → result A * W) :
  P c → emits trace P (invoke c f).
Proof.
  intros Hc b. unfold invoke. destruct (f (world b)). simpl.
  exists [c]. split; [done|]. by apply Forall_singleton.
Qed.

Local Ltac emits_step :=
  first
    [ apply emits_ret
    | apply emits_modify
    | apply emits_get_local
    | apply emits_lift
    | apply emits_with_locals
    | apply emits_bind; [|intros ?]
    | apply emits_catch; [|intros ?]
    | match goal with |- emits _ _ (if ?c then _ else _) => destruct c end
    | match goal with |- emits _ _ (match ?c with _ => _ end) => destruct c end ].

Lemma emits_safe_text row i :
  emits trace (cell_read row) (safe_text B (Nth (tds_locator row) i)).
Proof.
  unfold safe_text, text_content. repeat emits_step.
  apply emits_invoke. right. by exists i.
Qed.

Lemma emits_tds_loop row indices tds :
  emits trace (cell_read row) (tds_loop B row indices tds).
Proof.
  revert tds; induction indices as [|i indices IH]; intros tds; simpl.
  - apply emits_ret.
  - apply emits_bind; [apply emits_safe_text|]. intros s. apply IH.
Qed.

Lemma emits_read_tds row : emits trace (cell_read row) (read_tds B row).
Proof.
  unfold read_tds, count. repeat emits_step.
  - apply emits_invoke. by left.
  - apply emits_tds_loop.
Qed.

Lemma emits_hints row :
  emits (λ s : dict * bstate W, trace s.2) (hint_read row) (hints B row).
Proof.
  unfold hints, count, text_content.
  repeat first [emits_step | apply emits_invoke; unfold hint_read; tauto].
Qed.

Lemma emits_price_fallback row :
  emits (λ s : dict * bstate W, trace s.2) (price_read row) (price_fallback B row).
Proof.
  unfold price_fallback, count, text_content.
  repeat first [emits_step | apply emits_invoke; unfold price_read; tauto].
Qed.

Lemma emits_extract_from_row row : emits trace (row_read row) (extract_from_row B row).
Proof.
  unfold extract_from_row, extract_body.
  repeat first
    [ apply (emits_weaken _ (cell_read row)); [unfold row_read; tauto|apply emits_read_tds]
    | apply (emits_weaken _ (hint_read row)); [unfold row_read; tauto|apply emits_hints]
    | apply (emits_weaken _ (price_read row));
        [unfold row_read; tauto|apply emits_price_fallback]
    | emits_step ].
Qed.

Lemma emits_process_row i results : emits trace loop_call (process_row B i results).
Proof.
  unfold process_row, wait_for.
  repeat first
    [ apply (emits_weaken _ (row_read (Nth rows_locator i)));
        [intros c Hc; right; left; exists i; by right|apply emits_extract_from_row]
    | apply emits_invoke; right; left; exists i; by left
    | emits_step ].
Qed.

Lemma emits_scan_rows target_count indices results :
  emits trace loop_call (scan_rows B target_count indices results).
Proof.
  revert results; induction indices as [|i indices IH]; intros results; simpl.
  - apply emits_ret.
  - destruct (target_count <=? Z.of_nat (length results))%Z; [apply emits_ret|].
    apply emits_bind; [apply emits_process_row|]. intros r. apply IH.
Qed.

Lemma emits_paginate : emits trace loop_call (paginate B).
Proof.
  unfold paginate, count, is_enabled, click, wait_for_selector.
  repeat first [emits_step | apply emits_invoke; unfold loop_call; tauto].
Qed.

Lemma emits_collection_loop fuel target_count results navigations :
  emits trace loop_call (collection_loop B fuel target_count results navigations).
Proof.
  revert results navigations; induction fuel as [|fuel IH]; intros results navigations;
    simpl; [apply emits_ret|].
  destruct ((Z.of_nat (length results) <? target_count)%Z
            && (navigations <? MAX_PAGE_NAVIGATIONS)); [|apply emits_ret].
  apply emits_bind.
  { unfold count. apply emits_catch; [|intros ?; apply emits_ret].
    apply emits_invoke. by left. }
  intros n. apply emits_bind; [apply emits_scan_rows|]. intros r.
  destruct (Z.of_nat (length r) <? target_count)%Z; [|apply IH].
  apply emits_bind; [apply emits_paginate|]. intros [|]; [apply IH|apply emits_ret].
Qed.

(** X12.  [extract_from_row] only counts and reads elements inside the row it
    is given: the cells with a timeout of 500, and the first element for the
    name, the symbol and the price. *)
Theorem extract_from_row_only_reads_its_row row b :
  ∃ evs, trace (extract_from_row B row b).2 = trace b ++ evs
    ∧ Forall (row_read row) evs
    ∧ Forall (λ c, match c with Count _ | TextContent _ _ => True | _ => False end) evs.
Proof.
  destruct (emits_extract_from_row row b) as (evs & Ht & HP).
  exists evs. split; [done|]. split; [done|].
  eapply Forall_impl; [exact HP|]. intros c Hc. unfold row_read, cell_read, hint_read, price_read in Hc.
  destruct Hc as [[->|[i ->]]|[[->|[->|[->| ->]]]|[->| ->]]]; done.
Qed.

(** X13.  The collection loop counts the rows and the Next controls, waits
    for rows, reads inside rows, asks whether Next is enabled, clicks on the
    first Next control and waits for rows to appear; it makes no other call:
    it never launches or closes the browser, never loads a page by its
    address and clicks on nothing but Next. *)
Theorem collection_loop_calls fuel target_count results navigations b :
  ∃ evs,
    trace (collection_loop B fuel target_count results navigations b).2 = trace b ++ evs
    ∧ Forall loop_call evs
    ∧ Forall (λ c, match c with
                   | Launch | Goto _ | Close => False
                   | Click l => l = First next_btn
                   | _ => True
                   end) evs.
Proof.
  destruct (emits_collection_loop fuel target_count results navigations b) as (evs & Ht & HP).
  exists evs. split; [done|]. split; [done|].
  eapply Forall_impl; [exact HP|]. intros c Hc.
  unfold loop_call, row_read, cell_read, hint_read, price_read in Hc.
  destruct Hc as [->|[(i & [->|[[->|[j ->]]|[[->|[->|[->| ->]]]|[->| ->]]]])|[->|[->|[->| ->]]]]];
    done.
Qed.

End Calls.

(** ** What the page is asked, and what its answers become *)

Lemma fallback_step_kept k tds d :
  k = "name" ∨ k = "symbol" → kept k d (fallback_step tds d).
Proof.
  intros Hk. unfold fallback_step.
  destruct (negb (nonempty (getitem d "name")) || negb (nonempty (getitem d "symbol")));
    [by apply fallback_cells_kept|apply kept_refl].
Qed.

Section Answers.

Context {W : Type} (B : browser W).

Local Ltac run_page :=
  unfold catch, mbind, M_bind, mret, M_ret, lift, modify, get_local,
    count, text_content, invoke; simpl.







(** X16.  When a cell text gives the price, the page is not asked for the
    price element: the row's cells and its elements for name and symbol are
    all that is read. *)
Theorem cell_price_skips_price_selector row b tds t :
  (read_tds B row b).1 = Ok tds →
  t ∈ tds → price_candidate t →
  ∃ evs, trace (extract_from_row B row b).2 = trace b ++ evs
    ∧ Forall (λ c, cell_read row c ∨ hint_read row c) evs
    ∧ Count (price_sel row) ∉ evs.
Proof.
  intros Htds Hin Ht.
  destruct (extract_from_row_stages B row b)
    as (tds' & b1 & d1 & b2 & d2 & b3 & Hr & Hn & Hh & Ht1 & Hp & Ht2
        & Hk0 & Hk1 & Hk2 & Hk3 & Hk4 & He).
  rewrite Hr in Htds. injection Htds as ->.
  destruct (emits_read_tds B row b) as (e1 & Htr1 & He1). rewrite Hr in Htr1. simpl in Htr1.
  destruct (emits_hints B row (rank_step tds data0, b1)) as (e2 & Htr2 & He2).
  rewrite Hh in Htr2. simpl in Htr2.
  assert (Hb3 : b3 = b2).
  { revert Hp. rewrite price_step_filter.
    destruct (List.filter is_price tds) as [|u us] eqn:Hf.
    - assert (Hu : t ∈ List.filter is_price tds).
      { apply filter_elem. split; [done|]. by apply is_price_true. }
      rewrite Hf in Hu. by apply elem_of_nil in Hu.
    - apply filter_head_elem in Hf as [_ Hu]. apply is_price_true in Hu as [Hu _].
      unfold price_fallback, mbind, M_bind, get_local. simpl.
      unfold getitem. rewrite lookup_total_insert_eq.
      assert (Hne : nonempty u = true) by by destruct u.
      rewrite Hne. simpl. unfold mret, M_ret. by intros [= _ <-]. }
  assert (Hall : Forall (λ c, cell_read row c ∨ hint_read row c) (e1 ++ e2)).
  { apply Forall_app. split; (eapply Forall_impl; [eassumption|]); simpl; tauto. }
  exists (e1 ++ e2). rewrite He. simpl. rewrite Hb3, Htr2, Htr1, app_assoc.
  split; [done|]. split; [done|].
  intros Hc. rewrite Forall_forall in Hall. apply Hall in Hc.
  unfold cell_read, hint_read in Hc.
  destruct Hc as [[Hc|[i Hc]]|[Hc|[Hc|[Hc|Hc]]]]; discriminate Hc.
Qed.

End Answers.

(** ** Where the records come from *)

Lemma is_dup_fresh k data results : fresh_at k data results → is_dup k data results = false.
Proof.
  unfold is_dup. intros [Hemp|Hnew].
  - by rewrite Hemp.
  - apply andb_false_iff. right. apply not_true_iff_false.
    intros (r & Hr & Hb)%existsb_exists. apply bool_decide_eq_true in Hb.
    by apply (Hnew r); [apply list_elem_of_In|].
Qed.

Lemma usable_unusable d : usable d → unusable d = false.
Proof.
  intros Hu. destruct (unusable d) eqn:E; [|done]. by apply unusable_true in E.
Qed.

(** X17.  A record with a rank, a name or a price is appended to the result
    set when its rank and its name are each empty or new to it.  A record
    with a price but neither rank nor name is therefore appended every time
    it comes, while a record with a rank or a name is appended once. *)
Theorem accumulate_appends_new_records data results :
  (usable data → fresh_at "rank" data results → fresh_at "name" data results →
     accumulate data results = results ++ [data])
  ∧ (getitem data "rank" = "" → getitem data "name" = "" → getitem data "price" ≠ "" →
       accumulate data (accumulate data results) = results ++ [data; data])
  ∧ (keys_ok data → getitem data "rank" ≠ "" ∨ getitem data "name" ≠ "" →
       accumulate data (accumulate data results) = accumulate data results).
Proof.
  assert (Happ : ∀ rs, usable data → fresh_at "rank" data rs → fresh_at "name" data rs →
            accumulate data rs = rs ++ [data]).
  { intros rs Hu Hr Hn. unfold accumulate.
    by rewrite (usable_unusable _ Hu), (is_dup_fresh _ _ _ Hr), (is_dup_fresh _ _ _ Hn). }
  split_and!.
  - apply Happ.
  - intros Hr Hn Hp.
    assert (Hu : usable data) by (right; by right).
    rewrite !Happ; try done; try by left.
    by rewrite <- app_assoc.
  - intros Hk Hset.
    destruct (accumulate_cases data results) as [Hsame|(-> & Hu & _)];
      [by rewrite !Hsame|].
    assert (Hin : data ∈ results ++ [data]).
    { apply elem_of_app. right. apply elem_of_cons. by left. }
    unfold accumulate. rewrite Hu.
    destruct (is_dup "rank" data (results ++ [data])) eqn:Hd1; [done|].
    destruct (is_dup "name" data (results ++ [data])) eqn:Hd2; [done|].
    exfalso. unfold is_dup in Hd1, Hd2.
    assert (Hex : ∀ k, k ∈ field_keys →
              existsb (λ r, bool_decide (r !! k = Some (getitem data k))) (results ++ [data])
              = true).
    { intros k Hkin. apply existsb_exists. exists data. split; [by apply list_elem_of_In|].
      apply bool_decide_eq_true. by apply keys_ok_lookup. }
    rewrite Hex, andb_true_r in Hd1 by compute_done.
    rewrite Hex, andb_true_r in Hd2 by compute_done.
    destruct Hset as [Hset|Hset]; apply nonempty_true in Hset; congruence.
Qed.

Section Provenance.

Context {W : Type} (B : browser W).

Lemma extracted_clean d : extracted B d → keys_ok d ∧ clean_fields d.
Proof.
  intros (i & b & He).
  destruct (extract_from_row_spec B (Nth rows_locator i) b)
    as (tds & b1 & d1 & d2 & b' & _ & _ & _ & _ & _ & _ & Hk & He').
  rewrite He' in He. injection He as <-. split.
  - apply cleanup_keys_ok. eapply touches_keys_ok; [|exact Hk].
    by apply late_steps_touches.
  - intros k v. rewrite cleanup_lookup.
    destruct (late_steps tds d2 !! k) as [u|]; [|done]. simpl. intros [= <-].
    apply clean_text_normalized.
Qed.

Lemma process_row_from i results b :
  ∃ new, (process_row B i results b).1 = Ok (results ++ new) ∧ Forall (extracted B) new.
Proof.
  unfold process_row, catch, mbind, M_bind, mret, M_ret.
  destruct (wait_for B (Nth rows_locator i) b) as [[[]|e] b1].
  - destruct (extract_from_row_keys B (Nth rows_locator i) b1) as (data & b2 & He & _).
    rewrite He. simpl.
    destruct (accumulate_cases data results) as [->|(-> & _)].
    + exists []. by rewrite app_nil_r.
    + exists [data]. split; [done|]. apply Forall_singleton. exists i, b1. by rewrite He.
  - destruct (extract_from_row_keys B (Nth rows_locator i) b1) as (data & b2 & He & _).
    rewrite He. simpl.
    destruct (accumulate_cases data results) as [->|(-> & _)].
    + exists []. by rewrite app_nil_r.
    + exists [data]. split; [done|]. apply Forall_singleton. exists i, b1. by rewrite He.
Qed.

Lemma scan_rows_from target_count indices : ∀ results b,
  ∃ new, (scan_rows B target_count indices results b).1 = Ok (results ++ new)
    ∧ Forall (extracted B) new.
Proof.
  induction indices as [|i indices IH]; intros results b; simpl.
  - exists []. by rewrite app_nil_r.
  - destruct (target_count <=? Z.of_nat (length results))%Z.
    + exists []. by rewrite app_nil_r.
    + unfold mbind, M_bind.
      destruct (process_row_from i results b) as (new1 & H1 & Hn1).
      destruct (process_row B i results b) as [[r1|e] b1]; simpl in H1; [|done].
      injection H1 as ->.
      destruct (IH (results ++ new1) b1) as (new2 & H2 & Hn2).
      exists (new1 ++ new2). rewrite app_assoc. split; [done|]. by apply Forall_app.
Qed.

Lemma collection_loop_from target_count fuel : ∀ results navigations b rs n,
  (collection_loop B fuel target_count results navigations b).1 = Ok (Some (rs, n)) →
  ∃ new, rs = results ++ new ∧ Forall (extracted B) new.
Proof.
  induction fuel as [|fuel IH]; intros results navigations b rs n; simpl; [done|].
  destruct ((Z.of_nat (length results) <? target_count)%Z
            && (navigations <? MAX_PAGE_NAVIGATIONS)).
  - unfold mbind, M_bind.
    destruct (catch (count B rows_locator) (λ _, mret 0) b) as [[k|e] b1]; [|done].
    destruct (scan_rows_from target_count (seq 0 k) results b1) as (new1 & H1 & Hn1).
    destruct (scan_rows B target_count (seq 0 k) results b1) as [[r1|e] b2];
      simpl in H1; [|done].
    injection H1 as ->.
    assert (Hgo : ∀ b3,
      (collection_loop B fuel target_count (results ++ new1) (navigations + 1) b3).1
        = Ok (Some (rs, n)) →
      ∃ new, rs = results ++ new ∧ Forall (extracted B) new).
    { intros b3 Hl. destruct (IH _ _ _ _ _ Hl) as (new2 & -> & Hn2).
      exists (new1 ++ new2). rewrite app_assoc. split; [done|]. by apply Forall_app. }
    destruct (Z.of_nat (length (results ++ new1)) <? target_count)%Z; [|apply Hgo].
    destruct (paginate B b2) as [[[|]|e] b3]; simpl; [apply Hgo| |done].
    intros [= <- _]. by exists new1.
  - intros [= <- _]. exists []. by rewrite app_nil_r.
Qed.

(** X18.  The loop returns the records it started with followed by records
    that [extract_from_row] returned for rows of the table: it drops none,
    reorders none and makes up none.  All new records have the eight fields,
    each a text that [clean_text] leaves as it is. *)
Theorem collection_loop_records_come_from_rows target_count fuel results navigations b :
  MAX_PAGE_NAVIGATIONS - navigations < fuel →
  result_set results →
  ∃ new n b',
    collection_loop B fuel target_count results navigations b
      = (Ok (Some (results ++ new, n)), b')
    ∧ Forall (extracted B) new
    ∧ Forall (λ d, keys_ok d ∧ clean_fields d) new.
Proof.
  intros Hfuel Hrs.
  destruct (collection_loop_spec B target_count fuel results navigations b Hfuel Hrs)
    as (rs & n & b' & Hl & _).
  destruct (collection_loop_from target_count fuel results navigations b rs n)
    as (new & -> & Hnew); [by rewrite Hl|].
  exists new, n, b'. split; [done|]. split; [done|].
  eapply Forall_impl; [exact Hnew|]. apply extracted_clean.
Qed.

End Provenance.

(** ** The browser from launch to close *)

Section Session.

Context {W : Type} (B : browser W).

Local Ltac run_calls :=
  unfold catch, mbind, M_bind, mret, M_ret,
    launch, goto, wait_for_selector, count, is_enabled, click, close, invoke; simpl.

(** X19.  Pagination says go on only after these four calls, in this order,
    have all returned: counting the Next controls (more than none), asking
    whether Next is enabled (it is), the click on the first Next control and
    the wait for rows.  Otherwise it says stop, having made the first one,
    two, three or all four of them; it never raises. *)
Theorem paginate_outcomes b :
  ∃ c b', paginate B b = (Ok c, b')
    ∧ (c = true →
         trace b' = trace b ++ [Count next_btn; IsEnabled next_btn; Click (First next_btn);
                                WaitForSelector "tbody tr"]
         ∧ ∃ n w1 w2 w3,
             br_count B next_btn (world b) = (Ok (S n), w1)
             ∧ br_is_enabled B next_btn w1 = (Ok true, w2)
             ∧ br_click B (First next_btn) w2 = (Ok tt, w3)
             ∧ br_wait_for_selector B "tbody tr" w3 = (Ok tt, world b'))
    ∧ (c = false →
         ∃ k, 1 ≤ k ≤ 4
           ∧ trace b' = trace b ++ take k [Count next_btn; IsEnabled next_btn;
                                           Click (First next_btn);
                                           WaitForSelector "tbody tr"]).
Proof.
  unfold paginate. run_calls.
  destruct (br_count B next_btn (world b)) as [[[|n]|e] w1] eqn:H1; simpl.
  - eexists _, _. split; [done|]. split; [done|]. intros _. exists 1. split; [lia|done].
  - destruct (br_is_enabled B next_btn w1) as [[[|]|e] w2] eqn:H2; simpl.
    + destruct (br_click B (First next_btn) w2) as [[[]|e] w3] eqn:H3; simpl.
      * destruct (br_wait_for_selector B "tbody tr" w3) as [[[]|e] w4] eqn:H4; simpl.
        -- eexists _, _. split; [done|]. split; [|done]. intros _. simpl.
           rewrite <- !app_assoc. split; [done|]. by exists n, w1, w2, w3.
        -- eexists _, _. split; [done|]. split; [done|]. intros _. exists 4.
           split; [lia|]. simpl. by rewrite <- !app_assoc.
      * eexists _, _. split; [done|]. split; [done|]. intros _. exists 3.
        split; [lia|]. simpl. by rewrite <- !app_assoc.
    + eexists _, _. split; [done|]. split; [done|]. intros _. exists 2.
      split; [lia|]. simpl. by rewrite <- !app_assoc.
    + eexists _, _. split; [done|]. split; [done|]. intros _. exists 2.
      split; [lia|]. simpl. by rewrite <- !app_assoc.
  - eexists _, _. split; [done|]. split; [done|]. intros _. exists 1. split; [lia|done].
Qed.

(** The loop from the loaded page and the close after it; [pre] are the
    calls made between loading the page and the loop. *)
Local Ltac run_loop pre :=
  match goal with
  | H2 : br_goto _ _ ?w1 = _ |- context [collection_loop ?B ?fuel ?t [] 0 ?bx] =>
      let rs := fresh "rs" in let n := fresh "n" in let b2 := fresh "b" in
      let Hl := fresh "Hl" in let mid := fresh "mid" in let Htr := fresh "Htr" in
      let Hmid := fresh "Hmid" in let Hc := fresh "Hc" in
      destruct (collection_loop_spec B t fuel [] 0 bx) as (rs & n & b2 & Hl & _);
        [lia|apply result_set_nil|];
      destruct (emits_collection_loop B fuel t [] 0 bx) as (mid & Htr & Hmid);
      rewrite Hl in Htr |- *; simpl in Htr |- *;
      destruct (br_close B (world b2)) as [[[]|?] ?] eqn:Hc; simpl;
      (eexists _, _; split; [done|]; simpl; rewrite Htr; split_and!;
       [ right; exists (pre ++ mid); split;
           [simpl; by rewrite <- ?app_assoc
           |apply Forall_app; split; [|done];
            repeat constructor; unfold loop_call; tauto]
       | first [by intros ? [= <-] | by intros ? [=]]
       | first [by eauto
               | intros _ Hok; specialize (Hok (world b2)); by rewrite Hc in Hok]
       | intros _ Hg; specialize (Hg w1); by rewrite H2 in Hg ])
  end.

(** The page could not be loaded: the browser is closed where it stands. *)
Local Ltac stop_early pre :=
  match goal with
  | H2 : br_goto _ _ ?w1 = _ |- context [br_close ?B ?w] =>
      let Hc := fresh "Hc" in
      destruct (br_close B w) as [[[]|?] ?] eqn:Hc; simpl;
      (eexists _, _; split; [done|]; simpl; split_and!;
       [ right; exists pre; split;
           [simpl; by rewrite <- ?app_assoc
           |repeat constructor; unfold loop_call; tauto]
       | first [by intros ? [= <-] | by intros ? [=]]
       | first [by eauto
               | intros _ Hok; specialize (Hok w); by rewrite Hc in Hok]
       | first [ intros _ Hg; specialize (Hg w1); by rewrite H2 in Hg
               | intros _ _; split;
                   [simpl; by rewrite <- ?app_assoc
                   |first [by intros ? [= <-] | by intros ? [=]]] ] ])
  end.

(** X20.  [scrape_top_n] launches the browser first; unless the launch
    raises, it then loads the start page and ends with closing the browser,
    which it does once, as its last call, on every path.  Between the two it
    only makes the calls of the collection loop.  It returns a list whenever
    launching and closing the browser do not raise; when loading the start
    page raises something other than a timeout, that list is empty and no
    row is looked at. *)
Theorem scrape_top_n_opens_and_closes fuel target_count b :
  MAX_PAGE_NAVIGATIONS < fuel →
  ∃ r b', scrape_top_n B fuel target_count b = (r, b')
    ∧ ((trace b' = trace b ++ [Launch] ∧ ∃ e, r = Raise e)
       ∨ ∃ mid, trace b' = trace b ++ Launch :: Goto START_URL :: mid ++ [Close]
           ∧ Forall loop_call mid)
    ∧ (∀ out, r = Ok out → is_Some out)
    ∧ ((∀ w, (br_launch B w).1 = Ok tt) → (∀ w, (br_close B w).1 = Ok tt) →
         ∃ out, r = Ok (Some out))
    ∧ ((∀ w, (br_launch B w).1 = Ok tt) →
       (∀ w, (br_goto B START_URL w).1 = Raise OtherException) →
         trace b' = trace b ++ [Launch; Goto START_URL; Close]
         ∧ ∀ out, r = Ok out → out = Some []).
Proof.
  intros Hfuel. unfold scrape_top_n. run_calls.
  destruct (br_launch B (world b)) as [[[]|e] w1] eqn:H1; simpl.
  2:{ eexists _, _. split; [done|]. split_and!.
      - left. eauto.
      - by intros out [=].
      - intros Hl. specialize (Hl (world b)). by rewrite H1 in Hl.
      - intros Hl. specialize (Hl (world b)). by rewrite H1 in Hl. }
  destruct (br_goto B START_URL w1) as [[[]|[]] w2] eqn:H2; simpl.
  - destruct (br_wait_for_selector B "tbody tr" w2) as [[[]|[]] w3] eqn:H3; simpl.
    + run_loop [WaitForSelector "tbody tr"].
    + run_loop [WaitForSelector "tbody tr"].
    + stop_early [WaitForSelector "tbody tr"].
  - run_loop (@nil call).
  - stop_early (@nil call).
Qed.

End Session.

(** ** The files that are written *)

Section OutputCalls.

Context {F : Type} (fs : files F).

Local Ltac run_files :=
  unfold with_open, closing, raise, fwrite, fcall_run, mbind, M_bind, mret, M_ret;
  simpl.

Lemma run_calls_app cs1 cs2 s :
  run_calls fs (cs1 ++ cs2) s = (run_calls fs cs1;; run_calls fs cs2) s.
Proof.
  revert s; induction cs1 as [|c cs1 IH]; intros s; simpl; [done|].
  unfold mbind, M_bind in *.
  destruct (fcall_run fs c s) as [[[]|e] s1]; [apply IH|done].
Qed.

Lemma write_record_calls idx r s :
  write_record fs idx r s = run_calls fs (FWrite <$> record_lines idx r) s.
Proof.
  unfold write_record. simpl. run_files.
  repeat (destruct (fs _ _) as [[[]|?] ?]; simpl; [|done]). done.
Qed.

Lemma text_loop_calls records : ∀ idx s,
  text_loop fs idx records s = run_calls fs (FWrite <$> text_lines idx records) s.
Proof.
  induction records as [|r records IH]; intros idx s; [done|].
  cbn [text_loop text_lines]. rewrite fmap_app, run_calls_app.
  unfold mbind, M_bind. rewrite write_record_calls.
  destruct (run_calls fs (FWrite <$> record_lines idx r) s) as [[[]|e] s1]; [apply IH|done].
Qed.

Lemma csv_loop_calls records : ∀ s,
  csv_loop fs records s = run_calls fs ((λ r, CsvRow (csv_row r)) <$> records) s.
Proof.
  induction records as [|r records IH]; intros s; [done|].
  simpl. unfold mbind, M_bind.
  destruct (fcall_run fs (CsvRow (csv_row r)) s) as [[[]|e] s1]; [apply IH|done].
Qed.

(** A run of calls makes them in order and stops at the first that raises. *)
Lemma run_calls_spec cs : ∀ s,
  ∃ r s' made, run_calls fs cs s = (r, s')
    ∧ ftrace s' = ftrace s ++ made
    ∧ made `prefix_of` cs
    ∧ (r = Ok tt → made = cs).
Proof.
  induction cs as [|c cs IH]; intros s; simpl.
  - exists (Ok tt), s, []. by rewrite app_nil_r.
  - run_files. destruct (fs c (fworld s)) as [[[]|e] w]; simpl.
    + destruct (IH (FState w (ftrace s ++ [c]))) as (r & s' & made & Hr & Htr & Hpre & Hok).
      exists r, s', (c :: made). split; [done|]. split_and!.
      * rewrite Htr. simpl. by rewrite <- app_assoc.
      * by apply prefix_cons.
      * intros Hr'. by rewrite Hok.
    + exists (Raise e), (FState w (ftrace s ++ [c])), [c]. split; [done|].
      split_and!; [done| |done]. by apply prefix_cons, prefix_nil.
Qed.

(** A file is opened, the calls are made up to the first that raises, and
    the file is closed. *)
Lemma with_open_calls path newline (body : M (fstate F) unit) cs s :
  (∀ s0, body s0 = run_calls fs cs s0) →
  ∃ r s', with_open fs path newline body s = (r, s')
    ∧ ((ftrace s' = ftrace s ++ [FOpen path newline] ∧ ∃ e, r = Raise e)
       ∨ ∃ made, ftrace s' = ftrace s ++ FOpen path newline :: made ++ [FClose]
           ∧ made `prefix_of` cs
           ∧ (r = Ok tt → made = cs)).
Proof.
  intros Hbody. unfold with_open, closing, mbind, M_bind. unfold fcall_run at 1.
  destruct (fs (FOpen path newline) (fworld s)) as [[[]|e] w]; simpl.
  2:{ eexists _, _. split; [done|]. left. eauto. }
  rewrite Hbody.
  destruct (run_calls_spec cs (FState w (ftrace s ++ [FOpen path newline])))
    as (r & s1 & made & Hr & Htr & Hpre & Hok).
  rewrite Hr. simpl in Htr.
  destruct r as [[]|e]; unfold fcall_run, raise, mret, M_ret;
    destruct (fs FClose (fworld s1)) as [[[]|e'] w']; simpl;
    eexists _, _; (split; [done|]); right; exists made; simpl;
    rewrite Htr, <- !app_assoc; (split_and!; [done|done|done]).
Qed.

Lemma fmap_FWrite_inj (l1 l2 : list string) :
  FWrite <$> l1 = FWrite <$> l2 → l1 = l2.
Proof.
  revert l2; induction l1 as [|a l1 IH]; intros [|b l2]; simpl; try done.
  intros [= -> H]. f_equal. by apply IH.
Qed.

(** X21.  [save_to_text] makes no call for an empty list of records.
    Otherwise it opens the file once; unless that raises, it writes the
    eight strings of each record in order, up to the first write that
    raises, and closes the file on every path.  When it returns, all strings
    of all records have been written. *)
Theorem save_to_text_writes_and_closes records path s :
  ∃ r s', save_to_text fs records path s = (r, s')
    ∧ (records = [] → r = Ok tt ∧ s' = s)
    ∧ (records ≠ [] →
         (ftrace s' = ftrace s ++ [FOpen path None] ∧ ∃ e, r = Raise e)
         ∨ ∃ ws, ftrace s' = ftrace s ++ FOpen path None :: (FWrite <$> ws) ++ [FClose]
             ∧ ws `prefix_of` text_lines 1 records
             ∧ (r = Ok tt → ws = text_lines 1 records)).
Proof.
  destruct records as [|d records].
  { exists (Ok tt), s. by split_and!. }
  destruct (with_open_calls path None (text_loop fs 1 (d :: records))
              (FWrite <$> text_lines 1 (d :: records)) s)
    as (r & s' & Hr & Hcases); [apply text_loop_calls|].
  exists r, s'. split; [done|]. split; [done|]. intros _.
  destruct Hcases as [?|(made & Htr & [rest Hpre] & Hok)]; [by left|]. right.
  apply fmap_app_inv in Hpre as (ws & ws' & -> & _ & Hall).
  exists ws. split_and!; [done|by exists ws'|].
  intros Hr'. by apply fmap_FWrite_inj, Hok.
Qed.

(** X22.  [save_to_csv] makes no call for an empty list of records.
    Otherwise it opens the file once with [newline=""]; unless that raises,
    it makes the writer for the eight field names, writes the header and
    then one row per record in order, up to the first call that raises, and
    closes the file on every path.  Every row has exactly the eight field
    names, in the order of the header, whatever keys the record has: a field
    the record lacks is empty, a key that is no field name is left out. *)
Theorem save_to_csv_writes_and_closes records path s :
  ∃ r s', save_to_csv fs records path s = (r, s')
    ∧ (records = [] → r = Ok tt ∧ s' = s)
    ∧ (records ≠ [] →
         (ftrace s' = ftrace s ++ [FOpen path (Some "")] ∧ ∃ e, r = Raise e)
         ∨ ∃ made,
             ftrace s' = ftrace s ++ FOpen path (Some "") :: made ++ [FClose]
             ∧ made `prefix_of`
                 CsvWriter keys :: CsvHeader :: ((λ d, CsvRow (csv_row d)) <$> records)
             ∧ (r = Ok tt →
                  made = CsvWriter keys :: CsvHeader
                           :: ((λ d, CsvRow (csv_row d)) <$> records)))
    ∧ (∀ d, (csv_row d).*1 = keys
            ∧ ∀ k, k ∈ keys → (k, default "" (d !! k)) ∈ csv_row d).
Proof.
  assert (Hrows : ∀ d, (csv_row d).*1 = keys
            ∧ ∀ k, k ∈ keys → (k, default "" (d !! k)) ∈ csv_row d).
  { intros d. split; [done|]. intros k Hk. unfold csv_row.
    apply (list_elem_of_fmap_2 (λ k, (k, get d k))). done. }
  destruct records as [|d records].
  { exists (Ok tt), s. by split_and!. }
  destruct (with_open_calls path (Some "")
              (fcall_run fs (CsvWriter keys);; fcall_run fs CsvHeader;;
               csv_loop fs (d :: records))
              (CsvWriter keys :: CsvHeader
                 :: ((λ d, CsvRow (csv_row d)) <$> d :: records)) s)
    as (r & s' & Hr & Hcases).
  { intros s0. cbn [run_calls]. unfold mbind, M_bind.
    destruct (fcall_run fs (CsvWriter keys) s0) as [[[]|e] s1]; [|done].
    destruct (fcall_run fs CsvHeader s1) as [[[]|e] s2]; [|done].
    apply (csv_loop_calls (d :: records)). }
  exists r, s'. split; [done|]. split; [done|]. split; [|done]. by intros _.
Qed.

End OutputCalls.

(** ** The lines of the text file *)

Lemma app_app s1 s2 s3 : (s1 +:+ s2) +:+ s3 = s1 +:+ (s2 +:+ s3).
Proof. induction s1 as [|a s1 IH]; [done|]. rewrite !app_cons. by rewrite IH. Qed.

Lemma count_char_app c s1 s2 :
  count_char c (s1 +:+ s2) = count_char c s1 + count_char c s2.
Proof.
  induction s1 as [|a s1 IH]; [done|]. rewrite app_cons. simpl. rewrite IH. lia.
Qed.

Lemma single_spaced_no_newline s : ∀ b, single_spaced b s → count_char newline s = 0.
Proof.
  induction s as [|c s IH]; intros b; simpl; [done|].
  destruct (is_space c) eqn:Hc.
  - intros (-> & _ & Hs). simpl. by apply (IH true).
  - intros Hs. rewrite bool_decide_eq_false_2; [by apply (IH false)|].
    intros ->. done.
Qed.

Lemma normalized_no_newline v : normalized v → count_char newline v = 0.
Proof.
  intros [Hs _]%normalized_single_spaced. by apply (single_spaced_no_newline v false).
Qed.

Lemma decimal_no_newline n : count_char newline (decimal n) = 0.
Proof.
  unfold decimal. induction (Nat.to_uint n) as [|u IH|u IH|u IH|u IH|u IH|u IH|u IH|u IH|u IH|u IH];
    simpl; done.
Qed.

Lemma get_no_newline d k : clean_fields d → count_char newline (get d k) = 0.
Proof.
  intros Hd. unfold get. destruct (d !! k) as [v|] eqn:Hv; simpl; [|done].
  by apply normalized_no_newline, (Hd k).
Qed.

Lemma written_app tr1 tr2 : written (tr1 ++ tr2) = written tr1 +:+ written tr2.
Proof.
  induction tr1 as [|c tr1 IH]; simpl; [done|].
  destruct c; try done. rewrite IH. by rewrite app_app.
Qed.

Lemma record_lines_newlines idx d :
  clean_fields d →
  count_char newline (written (FWrite <$> record_lines idx d)) = 8.
Proof.
  intros Hd. unfold record_lines. cbn [fmap list_fmap written]. unfold nl.
  rewrite !count_char_app, decimal_no_newline, !(get_no_newline d _ Hd). done.
Qed.

Lemma text_lines_newlines records : ∀ idx,
  Forall clean_fields records →
  count_char newline (written (FWrite <$> text_lines idx records)) = 8 * length records.
Proof.
  induction records as [|d records IH]; intros idx Hall; [done|].
  apply Forall_cons in Hall as [Hd Hall]. cbn [text_lines length].
  rewrite fmap_app, written_app, count_char_app, record_lines_newlines, IH by done. lia.
Qed.

Section OutputLines.

Context {F : Type} (fs : files F).

(** X23.  When the fields of the records are texts that [clean_text] leaves
    as they are, as those of the scraped records are, [save_to_text] writes
    exactly eight line breaks per record: no field runs over a line. *)
Theorem text_file_has_eight_lines_per_record records path s s' :
  Forall clean_fields records →
  save_to_text fs records path s = (Ok tt, s') →
  count_char newline (written (ftrace s'))
  = count_char newline (written (ftrace s)) + 8 * length records.
Proof.
  intros Hall Hsave. destruct records as [|d records].
  { injection Hsave as <-. simpl. lia. }
  destruct (with_open_calls fs path None (text_loop fs 1 (d :: records))
              (FWrite <$> text_lines 1 (d :: records)) s)
    as (r & s1 & Hr & Hcases); [apply text_loop_calls|].
  change (save_to_text fs (d :: records) path s)
    with (with_open fs path None (text_loop fs 1 (d :: records)) s) in Hsave.
  rewrite Hsave in Hr. injection Hr as <- <-.
  destruct Hcases as [[_ [e He]]|(made & Htr & _ & Hok)]; [done|].
  rewrite Htr, (Hok eq_refl), written_app, count_char_app.
  change (FOpen path None :: ?l) with ([FOpen path None] ++ l).
  rewrite !written_app, !count_char_app, text_lines_newlines by done.
  simpl. lia.
Qed.

Context {W : Type} (B : browser W).

(** X24.  [main] never raises, whatever the page and the files do.  It makes
    no call to the files when [scrape_top_n] raises or returns no record.
    Otherwise it has at most twenty records, which it saves as CSV, then as
    text, then as Excel file; when one of the save functions raises, the
    later ones are not called. *)
Theorem main_never_raises fuel s :
  MAX_PAGE_NAVIGATIONS < fuel →
  ∃ s', main fs B fuel s = (Ok (Some tt), s')
    ∧ s'.2 = (scrape_top_n B fuel TARGET_COUNT s.2).2
    ∧ match (scrape_top_n B fuel TARGET_COUNT s.2).1 with
      | Ok (Some (d :: rs)) =>
          length (d :: rs) ≤ 20
          ∧ ∃ r1 f1, save_to_csv fs (d :: rs) OUTPUT_CSV s.1 = (r1, f1)
              ∧ ((∃ e, r1 = Raise e) → s'.1 = f1)
              ∧ (r1 = Ok tt →
                   ∃ r2 f2, save_to_text fs (d :: rs) OUTPUT_TXT f1 = (r2, f2)
                     ∧ ((∃ e, r2 = Raise e) → s'.1 = f2)
                     ∧ (r2 = Ok tt →
                          s'.1 = (save_to_excel fs (d :: rs) OUTPUT_XLSX f2).2))
      | _ => s'.1 = s.1
      end.
Proof.
  intros Hfuel.
  destruct (scrape_top_n_spec B fuel TARGET_COUNT s.2 Hfuel) as (r & b' & Hs & Hout).
  unfold main, catch, mbind, M_bind, mret, M_ret, lift, on_files. rewrite Hs.
  cbn -[save_to_csv save_to_text save_to_excel].
  destruct r as [[[|d rs]|]|e]; cbn -[save_to_csv save_to_text save_to_excel].
  - by eexists.
  - assert (Hlen : length (d :: rs) ≤ 20).
    { destruct (Hout _ eq_refl) as [_ [[=]|(b0 & results & n & b1 & _ & _ & _ & [= Heq])]].
      pose proof (slice_to_length results TARGET_COUNT) as Hl.
      rewrite <- Heq in Hl. unfold TARGET_COUNT in Hl. lia. }
    destruct (save_to_csv fs (d :: rs) OUTPUT_CSV s.1) as [[[]|e1] f1] eqn:H1;
      cbn -[save_to_csv save_to_text save_to_excel].
    + destruct (save_to_text fs (d :: rs) OUTPUT_TXT f1) as [[[]|e2] f2] eqn:H2;
        cbn -[save_to_csv save_to_text save_to_excel].
      * destruct (save_to_excel fs (d :: rs) OUTPUT_XLSX f2) as [[[]|e3] f3] eqn:H3;
          cbn -[save_to_csv save_to_text save_to_excel];
          (eexists; split; [done|]; split; [done|]; split; [done|];
           eexists _, _; split; [done|]; split; [by intros [? ?]|]; intros _;
           eexists _, _; split; [done|]; split; [by intros [? ?]|]; intros _;
           by rewrite H3).
      * eexists. split; [done|]. split; [done|]. split; [done|].
        eexists _, _. split; [done|]. split; [by intros [? ?]|]. intros _.
        eexists _, _. split; [done|]. split; [done|]. done.
    + eexists. split; [done|]. split; [done|]. split; [done|].
      eexists _, _. split; [done|]. split; [done|]. done.
  - destruct (Hout _ eq_refl) as [_ [[=]|(? & ? & ? & ? & _ & _ & _ & [=])]].
  - by eexists.
Qed.

End OutputLines.

(** ** The first token that offers a name or a symbol *)

Lemma py_or_empty a : py_or a "" = a.
Proof. by destruct a. Qed.

Lemma py_or_assoc a b c : py_or (py_or a b) c = py_or a (py_or b c).
Proof. by destruct a. Qed.

Lemma first_set_app l1 l2 : first_set (l1 ++ l2) = py_or (first_set l1) (first_set l2).
Proof.
  unfold first_set. rewrite List.filter_app.
  destruct (List.filter nonempty l1) as [|a l] eqn:Hf; simpl; [done|].
  assert (Ha : nonempty a = true).
  { assert (Hin : a ∈ List.filter nonempty l1) by (rewrite Hf; apply elem_of_cons; by left).
    by apply filter_elem in Hin as [_ ?]. }
  unfold py_or. by rewrite Ha.
Qed.

Lemma first_set_cons a l : first_set (a :: l) = py_or a (first_set l).
Proof.
  change (a :: l) with ([a] ++ l). rewrite first_set_app. f_equal. by destruct a.
Qed.

Lemma first_set_nil : first_set [] = "".
Proof. done. Qed.

(** The first token that offers something, given where it stands. *)
Lemma first_set_first (f : string → string) a l1 p l2 :
  a = "" → (∀ q, q ∈ l1 → f q = "") →
  first_set (a :: (f <$> l1 ++ p :: l2)) = py_or (f p) (first_set (f <$> l2)).
Proof.
  intros -> Hl1. rewrite first_set_cons. simpl.
  rewrite fmap_app, first_set_app. simpl. rewrite first_set_cons.
  replace (first_set (f <$> l1)) with ""; [done|].
  induction l1 as [|q l1 IH]; [done|]. simpl. rewrite first_set_cons.
  rewrite (Hl1 q) by (apply elem_of_cons; by left). simpl.
  apply IH. intros q' Hq'. apply Hl1. apply elem_of_cons. by right.
Qed.

Section FirstOffer.

(** A field [k] with what a token offers for it. *)
Variable k : string.
Variable f : string → string.
Hypothesis part_field : ∀ p0 d,
  getitem (fallback_part p0 d).1 k
  = if token_ok (strip p0) then py_or (getitem d k) (f (strip p0)) else getitem d k.

Lemma fallback_part_break p0 d :
  (fallback_part p0 d).2 = token_ok (strip p0) && is_pair (strip p0).
Proof.
  unfold fallback_part, token_ok, is_pair.
  destruct ((1 <? len (strip p0)) && negb (likely_money (strip p0))
            && negb (likely_percent (strip p0))); [|done].
  destruct (re_match name_symbol_re (strip p0)) as [m|]; [done|].
  rewrite andb_true_l, bool_decide_eq_false_2 by by intros [? ?].
  by repeat case_match.
Qed.

Lemma fallback_parts_first ps : ∀ d,
  getitem (fallback_parts ps d) k
  = first_set (getitem d k :: (f <$> up_to_pair (List.filter token_ok (strip <$> ps)))).
Proof.
  induction ps as [|p0 ps IH]; intros d; simpl.
  - by rewrite first_set_cons, py_or_empty.
  - pose proof (part_field p0 d) as Hf. pose proof (fallback_part_break p0 d) as Hb.
    destruct (fallback_part p0 d) as [d' brk]. simpl in Hf, Hb. subst brk.
    destruct (token_ok (strip p0)); simpl.
    + destruct (is_pair (strip p0)); simpl.
      * by rewrite Hf, !first_set_cons, first_set_nil, py_or_empty.
      * by rewrite IH, Hf, !first_set_cons, py_or_assoc.
    + by rewrite IH, Hf.
Qed.

Lemma fallback_cell_first t d :
  getitem (fallback_cell t d) k = first_set (getitem d k :: (f <$> cell_tokens t)).
Proof.
  unfold fallback_cell, cell_tokens.
  destruct (nonempty t && searches letter_re t); [apply fallback_parts_first|].
  by rewrite first_set_cons, py_or_empty.
Qed.

Lemma fallback_cells_first ts : ∀ d,
  getitem (fallback_cells ts d) k = first_set (getitem d k :: (f <$> row_tokens ts)).
Proof.
  induction ts as [|t ts IH]; intros d.
  - simpl. by rewrite first_set_cons, py_or_empty.
  - change (row_tokens (t :: ts)) with (cell_tokens t ++ row_tokens ts).
    cbn [fallback_cells]. rewrite IH, fallback_cell_first, fmap_app.
    by rewrite !first_set_cons, first_set_app, py_or_assoc.
Qed.

Lemma fallback_step_first tds d :
  k = "name" ∨ k = "symbol" →
  getitem (fallback_step tds d) k = first_set (getitem d k :: (f <$> row_tokens tds)).
Proof.
  intros Hk. unfold fallback_step.
  destruct (nonempty (getitem d "name")) eqn:Hn; simpl; [|apply fallback_cells_first].
  destruct (nonempty (getitem d "symbol")) eqn:Hs; simpl; [|apply fallback_cells_first].
  rewrite first_set_cons. unfold py_or. by destruct Hk as [-> | ->]; rewrite ?Hn, ?Hs.
Qed.

End FirstOffer.

Lemma fallback_part_name p0 d :
  getitem (fallback_part p0 d).1 "name"
  = if token_ok (strip p0) then py_or (getitem d "name") (name_offer (strip p0))
    else getitem d "name".
Proof.
  unfold fallback_part, token_ok, name_offer, short_upper, getitem.
  destruct ((1 <? len (strip p0)) && negb (likely_money (strip p0))
            && negb (likely_percent (strip p0))); [|done].
  destruct (re_match name_symbol_re (strip p0)) as [m|]; cbn [fst].
  - rewrite lookup_total_insert_ne by done. by rewrite lookup_total_insert_eq.
  - destruct (isupper (strip p0) && (2 <=? len (strip p0)) && (len (strip p0) <=? 6));
      cbn [fst].
    + rewrite lookup_total_insert_ne by done. by rewrite py_or_empty.
    + destruct (length (split_ws "" (strip p0)) <=? 3); cbn [fst andb].
      * unfold py_or. destruct (nonempty (d !!! "name")); cbn [fst negb]; [done|].
        by rewrite lookup_total_insert_eq.
      * by rewrite py_or_empty.
Qed.

Lemma fallback_part_symbol p0 d :
  getitem (fallback_part p0 d).1 "symbol"
  = if token_ok (strip p0) then py_or (getitem d "symbol") (symbol_offer (strip p0))
    else getitem d "symbol".
Proof.
  unfold fallback_part, token_ok, symbol_offer, short_upper, getitem.
  destruct ((1 <? len (strip p0)) && negb (likely_money (strip p0))
            && negb (likely_percent (strip p0))); [|done].
  destruct (re_match name_symbol_re (strip p0)) as [m|]; cbn [fst].
  - rewrite lookup_total_insert_eq. by rewrite lookup_total_insert_ne by done.
  - destruct (isupper (strip p0) && (2 <=? len (strip p0)) && (len (strip p0) <=? 6));
      cbn [fst].
    + by rewrite lookup_total_insert_eq.
    + destruct ((length (split_ws "" (strip p0)) <=? 3) && negb (nonempty (d !!! "name")));
        cbn [fst]; [rewrite lookup_total_insert_ne by done|]; by rewrite py_or_empty.
Qed.

Section Unresolved.

Context {W : Type} (B : browser W).

Local Ltac run_page :=
  unfold catch, mbind, M_bind, mret, M_ret, lift, modify, get_local,
    count, text_content, invoke; simpl.

(** Without elements for name and symbol, the dict stays as it is. *)
Lemma hints_unresolved row d b :
  unresolved B (name_locator row) → unresolved B (sym_loc row) →
  ∃ b', hints B row (d, b) = (Ok tt, (d, b')).
Proof.
  intros Hn Hs. unfold hints. run_page.
  destruct (Hn (world b)) as [(w1 & ->)|(e & w1 & ->)]; simpl; [|by eexists].
  destruct (Hs w1) as [(w2 & ->)|(e & w2 & ->)]; simpl; by eexists.
Qed.

(** The name and the symbol of the record when no element resolves. *)
Lemma extract_unresolved row b tds :
  (read_tds B row b).1 = Ok tds →
  unresolved B (name_locator row) → unresolved B (sym_loc row) →
  ∃ d b', extract_from_row B row b = (Ok d, b')
    ∧ d !! "name" = Some (clean_text (Some (first_set (name_offer <$> row_tokens tds))))
    ∧ d !! "symbol"
      = Some (clean_text (Some (first_set (symbol_offer <$> row_tokens tds)))).
Proof.
  intros Htds Hn Hs.
  destruct (extract_from_row_stages B row b)
    as (tds' & b1 & d1 & b2 & d2 & b3 & Hr & _ & Hh & Ht1 & Hp & Ht2
        & Hk0 & Hk1 & Hk2 & Hk3 & Hk4 & He).
  rewrite Hr in Htds. injection Htds as ->.
  destruct (hints_unresolved row (rank_step tds data0) b1 Hn Hs) as (b2' & Hh').
  rewrite Hh in Hh'. injection Hh' as -> _.
  assert (Hempty : ∀ k, k = "name" ∨ k = "symbol" → getitem (rank_step tds data0) k = "").
  { intros k Hk. unfold getitem. rewrite lookup_total_alt.
    rewrite (proj2 (rank_step_touches tds data0 keys_ok_data0))
      by (destruct Hk as [-> | ->]; compute_done).
    by destruct Hk as [-> | ->]. }
  assert (Hfield : ∀ k f, k = "name" ∨ k = "symbol" →
            (∀ p0 d, getitem (fallback_part p0 d).1 k
                     = if token_ok (strip p0) then py_or (getitem d k) (f (strip p0))
                       else getitem d k) →
            cleanup (late_steps tds d2) !! k
            = Some (clean_text (Some (first_set (f <$> row_tokens tds))))).
  { intros k f Hk Hpart.
    rewrite (final_early_field tds d2 k Hk4) by (destruct Hk as [-> | ->]; compute_done).
    rewrite (proj2 Ht2), (proj2 (price_step_touches tds _ Hk2))
      by (destruct Hk as [-> | ->]; compute_done).
    rewrite (keys_ok_lookup k _ Hk2) by (destruct Hk as [-> | ->]; compute_done).
    simpl. rewrite (fallback_step_first k f Hpart tds _ Hk), (Hempty k Hk).
    by rewrite first_set_cons. }
  exists (cleanup (late_steps tds d2)), b3. split; [done|]. split.
  - apply Hfield; [by left|apply fallback_part_name].
  - apply Hfield; [by right|apply fallback_part_symbol].
Qed.

End Unresolved.

(** C9.  Without inner elements for name and symbol, the row with the one
    cell ["Bitcoin BTC"] gets name ["Bitcoin"] and symbol ["BTC"], and the row
    with the one cell ["XRP"] gets symbol ["XRP"] and an empty name; parts set
    apart by a bullet or a line break are taken one by one, a part of more
    than three words is no name, and the first cell that gives a field gives
    it.  In general the fallback goes through the tokens of the row in order,
    each of which offers a name, a symbol, both or nothing: a field that is
    set stays as it is, and a field that is empty gets the first offer that
    is not empty, and stays empty when there is none.  A name or symbol that
    is set is kept by every later part and every later cell.  When the page
    finds no element for name and symbol, these are the name and the symbol
    of the record. *)
Theorem name_symbol_fallback_first_wins :
  (λ d, (d !! "name", d !! "symbol")) <$> Static.extract_cells ["Bitcoin BTC"]
    = Ok (Some "Bitcoin", Some "BTC")
  ∧ (λ d, (d !! "name", d !! "symbol")) <$> Static.extract_cells ["XRP"]
      = Ok (Some "", Some "XRP")
  ∧ (let d := fallback_step ["Bitcoin BTC"] data0 in
     d !! "name" = Some "Bitcoin" ∧ d !! "symbol" = Some "BTC")
  ∧ (let d := fallback_step ["XRP"] data0 in
     d !! "name" = Some "" ∧ d !! "symbol" = Some "XRP")
  ∧ (∀ k, k = "name" ∨ k = "symbol" →
       (∀ p d, kept k d (fallback_part p d).1)
       ∧ (∀ parts d, kept k d (fallback_parts parts d))
       ∧ (∀ l1 l2 d, kept k (fallback_cells l1 d) (fallback_cells (l1 ++ l2) d))
       ∧ (∀ tds d, kept k d (fallback_step tds d)))
  ∧ (λ d, (d !! "name", d !! "symbol")) <$> Static.extract_cells bullet_cells
      = Ok (Some "Bitcoin", Some "BTC")
  ∧ (row_tokens bullets_cells = ["BTC"; "Bitcoin"; "Ether ETH"; "XRP"]
     ∧ (λ d, (d !! "name", d !! "symbol")) <$> Static.extract_cells bullets_cells
       = Ok (Some "Bitcoin", Some "BTC"))
  ∧ (λ d, (d !! "name", d !! "symbol")) <$> Static.extract_cells ["Ether ETH"; "Bitcoin BTC"]
      = Ok (Some "Ether", Some "ETH")
  ∧ (λ d, (d !! "name", d !! "symbol"))
      <$> Static.extract_cells ["XRP"; "Ripple Labs"; "Stellar"]
      = Ok (Some "Ripple Labs", Some "XRP")
  ∧ (λ d, (d !! "name", d !! "symbol")) <$> Static.extract_cells ["Alpha Beta Gamma Delta"]
      = Ok (Some "", Some "")
  ∧ (λ d, (d !! "name", d !! "symbol")) <$> Static.extract_cells ["Alpha Beta Gamma"]
      = Ok (Some "Alpha Beta Gamma", Some "")
  ∧ (let d := fallback_step ["Bitcoin" +:+ String newline "BTC"] data0 in
     d !! "name" = Some "Bitcoin" ∧ d !! "symbol" = Some "BTC")
  ∧ (∀ tds d,
       getitem (fallback_step tds d) "name"
       = first_set (getitem d "name" :: (name_offer <$> row_tokens tds))
       ∧ getitem (fallback_step tds d) "symbol"
         = first_set (getitem d "symbol" :: (symbol_offer <$> row_tokens tds)))
  ∧ (∀ tds d l1 p l2,
       row_tokens tds = l1 ++ p :: l2 →
       (getitem d "name" = "" → (∀ q, q ∈ l1 → name_offer q = "") → name_offer p ≠ "" →
          getitem (fallback_step tds d) "name" = name_offer p)
       ∧ (getitem d "symbol" = "" → (∀ q, q ∈ l1 → symbol_offer q = "") →
          symbol_offer p ≠ "" →
          getitem (fallback_step tds d) "symbol" = symbol_offer p))
  ∧ (∀ tds d,
       (getitem d "name" = "" → (∀ q, q ∈ row_tokens tds → name_offer q = "") →
          getitem (fallback_step tds d) "name" = "")
       ∧ (getitem d "symbol" = "" → (∀ q, q ∈ row_tokens tds → symbol_offer q = "") →
          getitem (fallback_step tds d) "symbol" = ""))
  ∧ (∀ W (B : browser W) row b tds,
       (read_tds B row b).1 = Ok tds →
       unresolved B (name_locator row) → unresolved B (sym_loc row) →
       ∃ d b', extract_from_row B row b = (Ok d, b')
         ∧ d !! "name"
           = Some (clean_text (Some (first_set (name_offer <$> row_tokens tds))))
         ∧ d !! "symbol"
           = Some (clean_text (Some (first_set (symbol_offer <$> row_tokens tds))))).
Proof.
  assert (Hname : ∀ tds d, getitem (fallback_step tds d) "name"
            = first_set (getitem d "name" :: (name_offer <$> row_tokens tds))).
  { intros tds d. apply fallback_step_first; [apply fallback_part_name|by left]. }
  assert (Hsym : ∀ tds d, getitem (fallback_step tds d) "symbol"
            = first_set (getitem d "symbol" :: (symbol_offer <$> row_tokens tds))).
  { intros tds d. apply fallback_step_first; [apply fallback_part_symbol|by right]. }
  assert (Hnone : ∀ (f : string → string) l, (∀ q, q ∈ l → f q = "") →
            first_set (f <$> l) = "").
  { intros f l Hl. induction l as [|q l IH]; [done|]. simpl. rewrite first_set_cons.
    rewrite (Hl q) by (apply elem_of_cons; by left). simpl.
    apply IH. intros q' Hq'. apply Hl. apply elem_of_cons. by right. }
  do 4 (split; [vm_compute; repeat split|]).
  split.
  { intros k Hk. split_and!.
    - intros p d. by apply fallback_part_kept.
    - intros ps d. by apply fallback_parts_kept.
    - intros l1 l2 d. rewrite fallback_cells_app. by apply fallback_cells_kept.
    - intros tds d. by apply fallback_step_kept. }
  do 7 (split; [vm_compute; repeat split|]).
  split; [by intros tds d|].
  split.
  { intros tds d l1 p l2 Htok. split.
    - intros Hd Hl1 Hp. rewrite Hname, Htok, (first_set_first name_offer) by done.
      by apply py_or_set.
    - intros Hd Hl1 Hp. rewrite Hsym, Htok, (first_set_first symbol_offer) by done.
      by apply py_or_set. }
  split.
  { intros tds d. split.
    - intros Hd Hl. by rewrite Hname, first_set_cons, Hd, Hnone.
    - intros Hd Hl. by rewrite Hsym, first_set_cons, Hd, Hnone. }
  intros W B row b tds. apply extract_unresolved.
Qed.

(** ** The further properties at concrete rows *)

(** X4 at the row [priced_cells]: the rank is the first cell. *)
Lemma rank_from_first_three_cells_witness :
  (read_tds (one_row priced_cells) row0 Static.start).1 = Ok priced_cells
  ∧ ∃ d b', extract_from_row (one_row priced_cells) row0 Static.start = (Ok d, b')
      ∧ d !! "rank" = Some "7".
Proof.
  assert (H : (read_tds (one_row priced_cells) row0 Static.start).1 = Ok priced_cells)
    by (vm_compute; reflexivity).
  split; [exact H|].
  destruct (rank_from_first_three_cells (one_row priced_cells) row0 Static.start
              priced_cells H) as (d & b' & He & _ & Hrank).
  exists d, b'. split; [exact He|].
  assert (Hg : (λ m, group m 1) <$> re_match rank_re "7" = Some "7")
    by (vm_compute; reflexivity).
  apply fmap_Some in Hg as (m & Hm & Hg).
  rewrite Hg.
  apply (Hrank [] "7" ["Bitcoin BTC"; "$61,234.00"] m); [reflexivity| |exact Hm].
  intros u Hu. apply elem_of_nil in Hu. destruct Hu.
Defined.

(** X5 at the row [priced_cells]: the price is the third cell. *)
Lemma price_first_short_dollar_cell_witness :
  (read_tds (one_row priced_cells) row0 Static.start).1 = Ok priced_cells
  ∧ price_candidate "$61,234.00"
  ∧ (∀ u, u ∈ ["7"; "Bitcoin BTC"] → ¬ price_candidate u)
  ∧ ∃ d b', extract_from_row (one_row priced_cells) row0 Static.start = (Ok d, b')
      ∧ d !! "price" = Some "$61,234.00".
Proof.
  assert (H : (read_tds (one_row priced_cells) row0 Static.start).1 = Ok priced_cells)
    by (vm_compute; reflexivity).
  assert (Ht : price_candidate "$61,234.00") by (split; [reflexivity|simpl; lia]).
  assert (Hb : ∀ u, u ∈ ["7"; "Bitcoin BTC"] → ¬ price_candidate u).
  { intros u Hu [Hd _]. repeat (apply elem_of_cons in Hu as [-> | Hu]); try done.
    by apply elem_of_nil in Hu. }
  split; [exact H|]. split; [exact Ht|]. split; [exact Hb|].
  exact (price_first_short_dollar_cell (one_row priced_cells) row0 Static.start priced_cells
           ["7"; "Bitcoin BTC"] "$61,234.00"
           ["-0.52%"; "$1,205,432,112,000"; "$32,112,000,000"; "19,000,000 BTC"]
           H eq_refl Ht Hb).
Defined.


(** X7 at the row [priced_cells]: the supply is the last cell. *)
Lemma supply_first_matching_cell_witness :
  (read_tds (one_row priced_cells) row0 Static.start).1 = Ok priced_cells
  ∧ ∃ d b', extract_from_row (one_row priced_cells) row0 Static.start = (Ok d, b')
      ∧ d !! "circulating_supply" = Some "19,000,000 BTC".
Proof.
  assert (H : (read_tds (one_row priced_cells) row0 Static.start).1 = Ok priced_cells)
    by (vm_compute; reflexivity).
  split; [exact H|].
  destruct (supply_first_matching_cell (one_row priced_cells) row0 Static.start
              priced_cells H) as (d & b' & He & _ & Hs).
  exists d, b'. split; [exact He|].
  apply (Hs ["7"; "Bitcoin BTC"; "$61,234.00"; "-0.52%"; "$1,205,432,112,000";
             "$32,112,000,000"] "19,000,000 BTC" []); [reflexivity| |].
  - apply is_supply_true. vm_compute. reflexivity.
  - assert (Hall : Forall (λ u, is_supply u = false)
                     ["7"; "Bitcoin BTC"; "$61,234.00"; "-0.52%"; "$1,205,432,112,000";
                      "$32,112,000,000"]) by (repeat constructor; vm_compute; reflexivity).
    rewrite Forall_forall in Hall.
    intros u Hu Hc. apply is_supply_true in Hc. rewrite (Hall u Hu) in Hc. discriminate Hc.
Defined.

(** X8 at the row [priced_cells]. *)
Lemma cell_fields_are_cells_witness :
  (read_tds (one_row priced_cells) row0 Static.start).1 = Ok priced_cells
  ∧ ∃ d b', extract_from_row (one_row priced_cells) row0 Static.start = (Ok d, b')
      ∧ ∀ k v, k ∈ late_keys → d !! k = Some v → v = "" ∨ v ∈ priced_cells.
Proof.
  assert (H : (read_tds (one_row priced_cells) row0 Static.start).1 = Ok priced_cells)
    by (vm_compute; reflexivity).
  split; [exact H|].
  exact (cell_fields_are_cells (one_row priced_cells) row0 Static.start priced_cells H).
Defined.

(** X9 at the row [priced_cells]. *)
Lemma market_cap_is_longest_dollar_cell_witness :
  (read_tds (one_row priced_cells) row0 Static.start).1 = Ok priced_cells
  ∧ ∃ d b' cap vol,
      extract_from_row (one_row priced_cells) row0 Static.start = (Ok d, b')
      ∧ d !! "market_cap" = Some cap
      ∧ d !! "volume_24h" = Some vol
      ∧ (cap ≠ "" →
           (∀ t, t ∈ priced_cells → has_char "$" t = true → len t ≤ len cap)
           ∧ len vol ≤ len cap).
Proof.
  assert (H : (read_tds (one_row priced_cells) row0 Static.start).1 = Ok priced_cells)
    by (vm_compute; reflexivity).
  split; [exact H|].
  exact (market_cap_is_longest_dollar_cell (one_row priced_cells) row0 Static.start
           priced_cells H).
Defined.

(** X10 at the row [lone_price_cells]. *)
Lemma lone_dollar_cell_is_price_and_market_cap_witness :
  (read_tds (one_row lone_price_cells) row0 Static.start).1 = Ok lone_price_cells
  ∧ List.filter (has_char "$") lone_price_cells = ["$61,234.00"]
  ∧ ∃ d b', extract_from_row (one_row lone_price_cells) row0 Static.start = (Ok d, b')
      ∧ d !! "price" = Some "$61,234.00"
      ∧ d !! "market_cap" = Some "$61,234.00"
      ∧ d !! "volume_24h" = Some "".
Proof.
  assert (H : (read_tds (one_row lone_price_cells) row0 Static.start).1
              = Ok lone_price_cells) by (vm_compute; reflexivity).
  assert (Hf : List.filter (has_char "$") lone_price_cells = ["$61,234.00"])
    by (vm_compute; reflexivity).
  split; [exact H|]. split; [exact Hf|].
  apply (lone_dollar_cell_is_price_and_market_cap (one_row lone_price_cells) row0
           Static.start lone_price_cells "$61,234.00" H Hf); simpl; lia.
Defined.



(** X16 at the row [priced_cells]. *)
Lemma cell_price_skips_price_selector_witness :
  (read_tds (one_row priced_cells) row0 Static.start).1 = Ok priced_cells
  ∧ "$61,234.00" ∈ priced_cells
  ∧ price_candidate "$61,234.00"
  ∧ ∃ evs,
      trace (extract_from_row (one_row priced_cells) row0 Static.start).2
        = trace Static.start ++ evs
      ∧ Forall (λ c, cell_read row0 c ∨ hint_read row0 c) evs
      ∧ Count (price_sel row0) ∉ evs.
Proof.
  assert (H : (read_tds (one_row priced_cells) row0 Static.start).1 = Ok priced_cells)
    by (vm_compute; reflexivity).
  assert (Hin : "$61,234.00" ∈ priced_cells).
  { unfold priced_cells. do 2 (apply elem_of_cons; right). apply elem_of_cons. by left. }
  assert (Ht : price_candidate "$61,234.00") by (split; [reflexivity|simpl; lia]).
  split; [exact H|]. split; [exact Hin|]. split; [exact Ht|].
  exact (cell_price_skips_price_selector (one_row priced_cells) row0 Static.start
           priced_cells "$61,234.00" H Hin Ht).
Defined.

(** X18 at the table [with_repeats]. *)
Lemma collection_loop_records_come_from_rows_witness :
  MAX_PAGE_NAVIGATIONS - 0 < 6
  ∧ result_set []
  ∧ ∃ new n b',
      collection_loop (Static.static_browser with_repeats) 6 20 [] 0 Static.start
        = (Ok (Some ([] ++ new, n)), b')
      ∧ Forall (extracted (Static.static_browser with_repeats)) new
      ∧ Forall (λ d, keys_ok d ∧ clean_fields d) new.
Proof.
  assert (H : MAX_PAGE_NAVIGATIONS - 0 < 6) by (unfold MAX_PAGE_NAVIGATIONS; lia).
  split; [exact H|]. split; [exact result_set_nil|].
  exact (collection_loop_records_come_from_rows (Static.static_browser with_repeats)
           20 6 [] 0 Static.start H result_set_nil).
Defined.

(** X20 at the table [with_repeats]. *)
Lemma scrape_top_n_opens_and_closes_witness :
  MAX_PAGE_NAVIGATIONS < 6
  ∧ ∃ out b' mid,
      scrape_top_n (Static.static_browser with_repeats) 6 20 Static.start
        = (Ok (Some out), b')
      ∧ trace b' = Launch :: Goto START_URL :: mid ++ [Close]
      ∧ Forall loop_call mid.
Proof.
  assert (H : MAX_PAGE_NAVIGATIONS < 6) by (unfold MAX_PAGE_NAVIGATIONS; lia).
  split; [exact H|].
  destruct (scrape_top_n_opens_and_closes (Static.static_browser with_repeats) 6 20
              Static.start H) as (r & b' & Hs & Hshape & _ & Hok & _).
  destruct Hok as [out ->]; [done..|].
  destruct Hshape as [[_ [e He]]|(mid & Htr & Hmid)]; [discriminate He|].
  exists out, b', mid. split; [exact Hs|]. split; [exact Htr|exact Hmid].
Defined.

(** X23 for one record with a rank. *)
Lemma text_file_has_eight_lines_per_record_witness :
  Forall clean_fields [ ({["rank" := "1"]} : dict) ]
  ∧ ∃ s', save_to_text plain_files [ {["rank" := "1"]} ] OUTPUT_TXT (FState tt [])
          = (Ok tt, s')
      ∧ count_char newline (written (ftrace s')) = 8.
Proof.
  assert (H : Forall clean_fields [ ({["rank" := "1"]} : dict) ]).
  { apply Forall_singleton. intros k v [_ <-]%lookup_singleton_Some. reflexivity. }
  split; [exact H|].
  eexists. split; [reflexivity|].
  apply (text_file_has_eight_lines_per_record plain_files [ {["rank" := "1"]} ] OUTPUT_TXT
           (FState tt []) _ H eq_refl).
Defined.

(** X24 at the table [with_repeats], with files that take every call. *)
Lemma main_never_raises_witness :
  MAX_PAGE_NAVIGATIONS < 6
  ∧ ∃ s', main plain_files (Static.static_browser with_repeats) 6
            (FState tt [], Static.start) = (Ok (Some tt), s').
Proof.
  assert (H : MAX_PAGE_NAVIGATIONS < 6) by (unfold MAX_PAGE_NAVIGATIONS; lia).
  split; [exact H|].
  destruct (main_never_raises plain_files (Static.static_browser with_repeats) 6
              (FState tt [], Static.start) H) as (s' & Hm & _).
  exists s'. exact Hm.
Defined.
